(** * Rekomendasi-Film: content-based and embedding-based movie recommendation

    A shallow embedding of the pipeline of [terapanfix.py] (the notebook
    [terapan2_notebook.py] repeats the same cells): catalog normalisation,
    TF-IDF encoding and cosine similarity, the title query, the entity
    indices, rating normalisation and the forward pass of [RecommenderNet].

    Conventions.
    - Strings are byte strings; [len], [lower], [upper] and the word
      characters of the tokenizer are the ASCII ones: they are what Python
      computes on ASCII text ([is_ascii]).
    - Rating and similarity values that the code only compares, subtracts
      or divides are rationals ([Q]); the TF-IDF weights, which need a
      logarithm and a square root, are real numbers ([R]), so results about
      them hold for exact arithmetic.
    - A Python call that can raise returns an [outcome]. *)

From Stdlib Require Import ZArith QArith Reals Lra Lia.
From Stdlib Require Import Permutation Sorted Ascii String DecimalString.
From Stdlib Require Import DecimalNat.
From Stdlib Require Lqa.
From stdpp Require Import gmap strings list sorting.

(** ** The Python runtime pieces the notebook relies on *)

Module Py.

(** The exceptions of the runtime and of the libraries that the notebook
    can meet, and the two conditions that the specification names and no
    line of the notebook raises ([NotFound], [DegenerateInput]). *)
Inductive exn : Type :=
| ValueError
| KeyError
| TypeError
| IndexError
| ZeroDivisionError
| InvalidArgumentError
| NotFound
| DegenerateInput.

Inductive outcome (A : Type) : Type :=
| Ok (a : A)
| Raise (e : exn).
Arguments Ok {A} a.
Arguments Raise {A} e.

Definition bind {A B} (m : outcome A) (f : A → outcome B) : outcome B :=
  match m with
  | Ok a => f a
  | Raise e => Raise e
  end.

Fixpoint traverse {A B} (f : A → outcome B) (l : list A) : outcome (list B) :=
  match l with
  | [] => Ok []
  | x :: r => bind (f x) (λ y, bind (traverse f r) (λ ys, Ok (y :: ys)))
  end.

(** [str.isspace] on ASCII. *)
Definition is_space (c : ascii) : bool :=
  let n := nat_of_ascii c in
  ((9 <=? n) && (n <=? 13)) || ((28 <=? n) && (n <=? 32)).

(** The fields of [s] when it is cut at every separator character. *)
Fixpoint fields (is_sep : ascii → bool) (s : string) : list string :=
  match s with
  | EmptyString => [EmptyString]
  | String c r =>
      if is_sep c then EmptyString :: fields is_sep r
      else match fields is_sep r with
           | [] => [String c EmptyString]
           | w :: ws => String c w :: ws
           end
  end.

Definition nonempty (s : string) : bool :=
  match s with EmptyString => false | _ => true end.

(** [s.split()]: runs of whitespace separate, no empty field. *)
Definition split (s : string) : list string :=
  filter (λ w, nonempty w = true) (fields is_space s).

(** [s.split(sep)] for a one-character separator. *)
Definition split_on (sep : ascii) (s : string) : list string :=
  fields (Ascii.eqb sep) s.

(** [sep.join(ws)]. *)
Fixpoint join (sep : string) (ws : list string) : string :=
  match ws with
  | [] => EmptyString
  | [w] => w
  | w :: r => w +:+ sep +:+ join sep r
  end.

(** [str.lower] and [str.upper] on ASCII text: the letters [A-Z] and [a-z]
    are mapped, every other byte is kept. *)
Definition lower_char (c : ascii) : ascii :=
  let n := nat_of_ascii c in
  if (65 <=? n) && (n <=? 90) then ascii_of_nat (n + 32) else c.

Definition upper_char (c : ascii) : ascii :=
  let n := nat_of_ascii c in
  if (97 <=? n) && (n <=? 122) then ascii_of_nat (n - 32) else c.

Fixpoint map_chars (f : ascii → ascii) (s : string) : string :=
  match s with
  | EmptyString => EmptyString
  | String c r => String (f c) (map_chars f r)
  end.

Definition lower : string → string := map_chars lower_char.
Definition upper : string → string := map_chars upper_char.

(** [s[:n]], on ASCII text (a character is a byte). *)
Fixpoint prefix (n : nat) (s : string) : string :=
  match n, s with
  | S m, String c r => String c (prefix m r)
  | _, _ => EmptyString
  end.

(** [str(n)] for a non-negative integer. *)
Definition str_of_nat (n : nat) : string :=
  NilEmpty.string_of_uint (Nat.to_uint n).

(** A slice bound, as Python resolves it against a length. *)
Definition bound (n : nat) (i : Z) : nat :=
  let j := if (i <? 0)%Z then (i + Z.of_nat n)%Z else i in
  Z.to_nat (Z.min (Z.max j 0) (Z.of_nat n)).

(** [l[lo:hi]]. *)
Definition slice {A} (lo hi : Z) (l : list A) : list A :=
  let a := bound (length l) lo in
  let b := bound (length l) hi in
  take (b - a) (drop a l).

(** [l[lo:]]. *)
Definition slice_from {A} (lo : Z) (l : list A) : list A :=
  drop (bound (length l) lo) l.

(** [min(xs)] and [max(xs)] of the builtins: the first extremal element;
    an empty argument raises. *)
Definition min (xs : list Q) : outcome Q :=
  match xs with
  | [] => Raise ValueError
  | x :: r => Ok (fold_left (λ m y, if Qlt_le_dec y m then y else m) r x)
  end.

Definition max (xs : list Q) : outcome Q :=
  match xs with
  | [] => Raise ValueError
  | x :: r => Ok (fold_left (λ m y, if Qlt_le_dec m y then y else m) r x)
  end.

(** [a / b] on floats: a zero divisor raises. *)
Definition div (a b : Q) : outcome Q :=
  if Qeq_bool b 0 then Raise ZeroDivisionError else Ok (a / b)%Q.

(** A [dict]: the items in insertion order, one per key. *)
Definition dict (K V : Type) : Type := list (K * V).

(** [d[k] = v]: an existing key keeps its place. *)
Fixpoint setitem {K V} `{EqDecision K} (k : K) (v : V) (d : dict K V)
  : dict K V :=
  match d with
  | [] => [(k, v)]
  | (k', v') :: r =>
      if decide (k' = k) then (k, v) :: r else (k', v') :: setitem k v r
  end.

(** [d.get(k)]. *)
Fixpoint get {K V} `{EqDecision K} (d : dict K V) (k : K) : option V :=
  match d with
  | [] => None
  | (k', v) :: r => if decide (k' = k) then Some v else get r k
  end.

Definition values {K V} (d : dict K V) : list V := map snd d.
Definition keys {K V} (d : dict K V) : list K := map fst d.
Definition len {K V} (d : dict K V) : nat := length d.

(** [enumerate(xs)]. *)
Definition enumerate {A} (xs : list A) : list (nat * A) :=
  imap (λ i x, (i, x)) xs.

End Py.

#[global] Instance outcome_ret : MRet Py.outcome := @Py.Ok.
#[global] Instance outcome_bind : MBind Py.outcome :=
  λ A B f m, Py.bind m f.

(** Unfolds the sequencing of calls that can raise. *)
Ltac unfold_outcome :=
  unfold mbind, outcome_bind, mret, outcome_ret, Py.bind in *.

(** The characters of a string. *)
Definition chars (s : string) : list ascii := list_ascii_of_string s.

(** Text of ASCII characters.  On such text [str.lower], [str.upper],
    [str.len], slicing and the word characters of a regular expression are
    what the definitions of this file compute on the bytes of a string;
    elsewhere Python consults the Unicode tables, which are not
    modelled. *)
Definition is_ascii (s : string) : bool :=
  forallb (λ c, nat_of_ascii c <? 128) (chars s).

(** ** Input tables *)

(** A row of [movies.csv]. *)
Record movie : Type := Movie {
  mv_movieId : Z;
  mv_title : string;
  mv_genres : string
}.

(** A row of [ratings.csv]. *)
Record rating_row : Type := Rating {
  rt_userId : Z;
  rt_movieId : Z;
  rt_rating : Q;
  rt_timestamp : Z
}.

(** ** Catalog normalisation *)

(** [df_mov] once the columns [genres_split] and [title_length] are added;
    [str.len] counts the characters, which are the bytes on ASCII text. *)
Record mov_row : Type := MovRow {
  mr_movieId : Z;
  mr_title : string;
  mr_genres : string;
  mr_genres_split : list string;
  mr_title_length : nat
}.

Definition df_mov (movies : list movie) : list mov_row :=
  map (λ m, {| mr_movieId := mv_movieId m;
               mr_title := mv_title m;
               mr_genres := mv_genres m;
               mr_genres_split := Py.split_on "|"%char (mv_genres m);
               mr_title_length := String.length (mv_title m) |}) movies.

(** A row of [df_merged]. *)
Record merged_row : Type := Merged {
  mg_userId : Z;
  mg_movieId : Z;
  mg_rating : Q;
  mg_timestamp : Z;
  mg_title : string;
  mg_genres : string;
  mg_genres_split : list string;
  mg_title_length : nat
}.

Definition join_row (r : rating_row) (m : mov_row) : merged_row :=
  {| mg_userId := rt_userId r;
     mg_movieId := rt_movieId r;
     mg_rating := rt_rating r;
     mg_timestamp := rt_timestamp r;
     mg_title := mr_title m;
     mg_genres := mr_genres m;
     mg_genres_split := mr_genres_split m;
     mg_title_length := mr_title_length m |}.

(** [pd.merge(df_rat, df_mov, on='movieId')]: an inner join that keeps the
    order of the left table. *)
Definition df_merged (ratings : list rating_row) (movies : list movie)
  : list merged_row :=
  flat_map
    (λ r, map (join_row r)
            (filter (λ m, mr_movieId m = rt_movieId r) (df_mov movies)))
    ratings.

(** [drop_duplicates(key)]: the first row of each key, in order. *)
Fixpoint drop_duplicates {A K} `{EqDecision K} (key : A → K) (seen : list K)
    (l : list A) : list A :=
  match l with
  | [] => []
  | x :: r =>
      if decide (key x ∈ seen) then drop_duplicates key seen r
      else x :: drop_duplicates key (key x :: seen) r
  end.

(** A row of [dataset_content]. *)
Record content_row : Type := ContentRow {
  dc_movieId : Z;
  dc_title : string;
  dc_genres : string;
  dc_rating : Q;
  dc_genres_split : list string;
  dc_title_length : nat;
  dc_movie_label : string;
  dc_content_features : string
}.

Definition content_of (g : merged_row) : content_row :=
  {| dc_movieId := mg_movieId g;
     dc_title := mg_title g;
     dc_genres := mg_genres g;
     dc_rating := mg_rating g;
     dc_genres_split := mg_genres_split g;
     dc_title_length := mg_title_length g;
     dc_movie_label := mg_title g +:+ " (" +:+ mg_genres g +:+ ")";
     dc_content_features :=
       Py.join " " (mg_genres_split g) +:+ " "
         +:+ Py.str_of_nat (mg_title_length g) |}.

Definition dataset_content (ratings : list rating_row) (movies : list movie)
  : list content_row :=
  map content_of (drop_duplicates mg_movieId [] (df_merged ratings movies)).

(** The mean of the rating rows of one movie, which is what the
    specification attaches to a record. *)
Definition ratings_of (id : Z) (ratings : list rating_row) : list Q :=
  map rt_rating (filter (λ r, rt_movieId r = id) ratings).

Definition mean (xs : list Q) : Q :=
  (fold_right Qplus 0 xs / inject_Z (Z.of_nat (length xs)))%Q.

(** [content_based_data]: the three columns the content engine reads. *)
Record item : Type := Item {
  it_title : string;
  it_movie_label : string;
  it_content_features : string
}.

Definition content_based_data (dc : list content_row) : list item :=
  map (λ c, {| it_title := dc_title c;
               it_movie_label := dc_movie_label c;
               it_content_features := dc_content_features c |}) dc.

(** ** Sorting, as the libraries do it *)

(** Insertion sort: [x], which comes first in the input, stays ahead of
    every [y] with [before x y]. *)
Fixpoint insert_by {A} (before : A → A → bool) (x : A) (l : list A) : list A :=
  match l with
  | [] => [x]
  | y :: r => if before x y then x :: y :: r else y :: insert_by before x r
  end.

Definition sort_by {A} (before : A → A → bool) (l : list A) : list A :=
  foldr (insert_by before) [] l.

(** ** The content feature encoder: [TfidfVectorizer()] with its defaults *)

Module Sklearn.

Local Open Scope R_scope.

(** A character of ASCII text that [\w] matches. *)
Definition is_word_char (c : ascii) : bool :=
  let n := nat_of_ascii c in
  ((48 <=? n)%nat && (n <=? 57)%nat)
  || ((65 <=? n)%nat && (n <=? 90)%nat)
  || ((97 <=? n)%nat && (n <=? 122)%nat)
  || (n =? 95)%nat.

(** [token_pattern = r"(?u)\b\w\w+\b"]: the maximal runs of word
    characters that are at least two characters long. *)
Definition tokenize (s : string) : list string :=
  filter (λ w, (2 ≤ String.length w)%nat)
    (Py.fields (λ c, negb (is_word_char c)) s).

(** [lowercase = True], then the token pattern. *)
Definition analyze (doc : string) : list string :=
  tokenize (Py.lower doc).

(** [vocabulary_]: the distinct terms of the corpus, sorted. *)
Definition vocabulary (docs : list string) : list string :=
  sort_by String.leb
    (drop_duplicates (λ w : string, w) [] (concat (map analyze docs))).

(** Term frequency: the raw count of [t] in the document. *)
Definition tf (t : string) (doc : string) : nat :=
  length (filter (λ w, w = t) (analyze doc)).

(** Document frequency: the number of documents that contain [t]. *)
Definition df (docs : list string) (t : string) : nat :=
  length (filter (λ d, t ∈ analyze d) docs).

(** [smooth_idf = True]. *)
Definition idf (docs : list string) (t : string) : R :=
  ln ((1 + INR (length docs)) / (1 + INR (df docs t))) + 1.

Definition sum_squares (v : list R) : R :=
  foldr (λ x acc, x * x + acc) 0 v.

(** [normalize(X, norm='l2')] on one row: a row of norm zero is kept.  The
    weights are real numbers: the rounding of the floating-point numbers of
    the library is not modelled. *)
Definition normalize_row (v : list R) : list R :=
  let n := sqrt (sum_squares v) in
  if Req_dec_T n 0 then v else map (λ x, x / n) v.

Definition weights (docs : list string) (d : string) : list R :=
  map (λ t, INR (tf t d) * idf docs t) (vocabulary docs).

(** [fit_transform]: an empty vocabulary raises. *)
Definition fit_transform (docs : list string) : Py.outcome (list (list R)) :=
  match vocabulary docs with
  | [] => Py.Raise Py.ValueError
  | _ => Py.Ok (map (λ d, normalize_row (weights docs d)) docs)
  end.

Definition dot (u v : list R) : R :=
  foldr Rplus 0 (zip_with Rmult u v).

(** [cosine_similarity(X, Y)]: both arguments are normalised, then
    multiplied. *)
Definition cosine_similarity (X Y : list (list R)) : list (list R) :=
  map (λ x, map (λ y, dot (normalize_row x) (normalize_row y)) Y) X.

End Sklearn.

(** [tfidf_matrix] and [cosine_sim] of the notebook. *)
Definition tfidf_matrix (items : list item) : Py.outcome (list (list R)) :=
  Sklearn.fit_transform (map it_content_features items).

Definition cosine_sim (items : list item) : Py.outcome (list (list R)) :=
  X ← tfidf_matrix items; mret (Sklearn.cosine_similarity X X).

(** A word character of ASCII text in the words of the token pattern: a
    letter, a digit or the underscore. *)
Definition word_char (c : ascii) : bool :=
  existsb (Ascii.eqb c)
    (chars "abcdefghijklmnopqrstuvwxyzABCDEFGHIJKLMNOPQRSTUVWXYZ0123456789_").

(** The maximal runs of word characters of a string, from left to right: a
    character that is no word character belongs to no run, and a run ends
    at the end of the string or before such a character. *)
Inductive word_runs : string → list string → Prop :=
| runs_end : word_runs "" []
| runs_skip (c : ascii) (s : string) (ws : list string) :
    word_char c = false → word_runs s ws → word_runs (String c s) ws
| runs_word (w s : string) (ws : list string) :
    w ≠ "" → Forall (λ c, word_char c = true) (chars w) →
    (∀ c s', s = String c s' → word_char c = false) →
    word_runs s ws → word_runs (w +:+ s) (w :: ws).

(** The weights in the words of the specification: the raw count of a token
    in the tokens of a document, the number of documents that contain it,
    [log((1 + N) / (1 + df)) + 1], and the Euclidean norm. *)
Definition spec_tf (tokens : list string) (t : string) : nat :=
  count_occ string_dec tokens t.

Fixpoint spec_df (corpus : list (list string)) (t : string) : nat :=
  match corpus with
  | [] => 0
  | tokens :: rest =>
      (if existsb (String.eqb t) tokens then 1 else 0) + spec_df rest t
  end.

Definition spec_idf (N df : nat) : R :=
  (ln ((1 + INR N) / (1 + INR df)) + 1)%R.

Definition spec_weight (corpus : list (list string)) (tokens : list string)
    (t : string) : R :=
  (INR (spec_tf tokens t) * spec_idf (length corpus) (spec_df corpus t))%R.

Fixpoint spec_norm_sq (v : list R) : R :=
  match v with
  | [] => 0%R
  | x :: r => (x ^ 2 + spec_norm_sq r)%R
  end.

Definition spec_norm (v : list R) : R := sqrt (spec_norm_sq v).

(** The entry of a matrix, when there is one. *)
Definition entry {A} (M : list (list A)) (a b : nat) : option A :=
  M !! a ≫= (.!! b).

(** ** The similarity frame and the title query *)

(** A [DataFrame] of one value type: the row labels and the labelled
    columns. *)
Record frame (V : Type) : Type := Frame {
  fr_index : list string;
  fr_columns : list (string * list V)
}.
Arguments Frame {V} _ _.
Arguments fr_index {V} _.
Arguments fr_columns {V} _.

(** The columns of a row-major matrix with [n] columns. *)
Fixpoint transpose {A} (n : nat) (rows : list (list A)) : list (list A) :=
  match n with
  | O => []
  | S m => omap head rows :: transpose m (map tail rows)
  end.

(** [pd.DataFrame(values, index=labels, columns=labels)]. *)
Definition DataFrame {V} (values : list (list V)) (labels : list string)
  : frame V :=
  {| fr_index := labels;
     fr_columns := zip labels (transpose (length labels) values) |}.

Definition cosine_sim_df (items : list item) : Py.outcome (frame R) :=
  S ← cosine_sim items; mret (DataFrame S (map it_movie_label items)).

(** What [frame[label]] selects: a [Series] when one column carries the
    label, a sub-frame when several do. *)
Inductive selection (V : Type) : Type :=
| Series (s : list (string * V))
| SubFrame (cols : list (list (string * V))).
Arguments Series {V} s.
Arguments SubFrame {V} cols.

Definition getitem {V} (sd : frame V) (label : string)
  : Py.outcome (selection V) :=
  match filter (λ c, c.1 = label) (fr_columns sd) with
  | [] => Py.Raise Py.KeyError
  | [c] => Py.Ok (Series (zip (fr_index sd) c.2))
  | cs => Py.Ok (SubFrame (map (λ c, zip (fr_index sd) c.2) cs))
  end.

(** [.sort_values(ascending=False)]: defined on a [Series]; a frame needs
    the argument [by].  The sorting routine is the one pandas dispatches
    to. *)
Definition sort_values {V}
    (sorter : list (string * V) → list (string * V)) (sel : selection V)
  : Py.outcome (list (string * V)) :=
  match sel with
  | Series s => Py.Ok (sorter s)
  | SubFrame _ => Py.Raise Py.TypeError
  end.

(** What the title query hands back: the message string or the rows. *)
Inductive reply : Type :=
| Message (s : string)
| Recommendations (rows : list item).

Definition content_based_movie_recommendations {V}
    (sorter : list (string * V) → list (string * V))
    (title : string) (similarity_data : frame V) (items : list item) (k : Z)
  : Py.outcome reply :=
  match filter (λ it, Py.lower (it_title it) = Py.lower title) items with
  | [] =>
      Py.Ok (Message ("Judul '" +:+ title +:+ "' tidak ditemukan dalam dataset."))
  | first :: _ =>
      let movie_label := it_movie_label first in
      sel ← getitem similarity_data movie_label;
      sim_scores ← sort_values sorter sel;
      let top_indices := map fst (Py.slice 1 (k + 1) sim_scores) in
      mret (Recommendations
              (filter (λ it, it_movie_label it ∈ top_indices) items))
  end.

(** A sort that keeps ties in input order, the highest score first: what
    the insertion sort of NumPy does on short inputs. *)
Definition stable_desc (s : list (string * Q)) : list (string * Q) :=
  sort_by (λ x y, Qle_bool y.2 x.2) s.

(** What the title query needs of the sorting routine: the column comes
    back rearranged, the greatest value first. *)
Definition sorts_descending {V} (le : V → V → Prop)
    (sorter : list (string * V) → list (string * V)) : Prop :=
  ∀ s, sorter s ≡ₚ s ∧ StronglySorted (λ a b, le b.2 a.2) (sorter s).

(** The frame has one row and one column per catalog row, labelled alike:
    the shape of [cosine_sim_df]. *)
Definition square_over {V} (sd : frame V) (items : list item) : Prop :=
  fr_index sd = map it_movie_label items
  ∧ map fst (fr_columns sd) = map it_movie_label items
  ∧ Forall (λ c, length c.2 = length items) (fr_columns sd).

(** ** The interaction encoder *)

(** A row of [dataset_filter]. *)
Record filter_row : Type := FilterRow {
  fl_movieId : Z;
  fl_title : string;
  fl_genres_split : list string;
  fl_title_length : nat;
  fl_rating : Q;
  fl_genres_str : string;
  fl_movie_label : string;
  fl_content_features : string;
  fl_film_id : string
}.

(** [x.split()[0][:3].upper()], on ASCII text: a title without a word has
    no first word. *)
Definition film_code (title : string) : Py.outcome string :=
  match Py.split title with
  | [] => Py.Raise Py.IndexError
  | w :: _ => Py.Ok (Py.upper (Py.prefix 3 w))
  end.

Definition filter_of (idx : nat) (c : content_row) : Py.outcome filter_row :=
  code ← film_code (dc_title c);
  let genres_str := Py.join " " (dc_genres_split c) in
  mret {| fl_movieId := dc_movieId c;
          fl_title := dc_title c;
          fl_genres_split := dc_genres_split c;
          fl_title_length := dc_title_length c;
          fl_rating := dc_rating c;
          fl_genres_str := genres_str;
          fl_movie_label := dc_title c +:+ " (" +:+ genres_str +:+ ")";
          fl_content_features :=
            genres_str +:+ " " +:+ Py.str_of_nat (dc_title_length c);
          fl_film_id := code +:+ Py.str_of_nat idx |}.

Definition dataset_filter (dc : list content_row)
  : Py.outcome (list filter_row) :=
  Py.traverse (λ p, filter_of p.1 p.2) (Py.enumerate dc).

(** [Series.unique().tolist()]: the distinct values, first seen first. *)
Definition unique (xs : list string) : list string :=
  drop_duplicates (λ x : string, x) [] xs.

(** [{x: i for i, x in enumerate(xs)}] and [{i: x for i, x in enumerate(xs)}]. *)
Definition encoding (xs : list string) : Py.dict string nat :=
  foldl (λ d p, Py.setitem p.2 p.1 d) [] (Py.enumerate xs).

Definition decoding (xs : list string) : Py.dict nat string :=
  foldl (λ d p, Py.setitem p.1 p.2 d) [] (Py.enumerate xs).

Definition film_ids (rows : list filter_row) : list string :=
  unique (map fl_film_id rows).
Definition film_to_film_encoded (rows : list filter_row) : Py.dict string nat :=
  encoding (film_ids rows).
Definition film_encoded_to_film (rows : list filter_row) : Py.dict nat string :=
  decoding (film_ids rows).

Definition movie_labels (rows : list filter_row) : list string :=
  unique (map fl_movie_label rows).
Definition movie_to_encoded (rows : list filter_row) : Py.dict string nat :=
  encoding (movie_labels rows).
Definition encoded_to_movie (rows : list filter_row) : Py.dict nat string :=
  decoding (movie_labels rows).

(** The columns [track] and [name]: [Series.map(dict)]. *)
Definition track (rows : list filter_row) : list (option nat) :=
  map (λ r, Py.get (film_to_film_encoded rows) (fl_film_id r)) rows.
Definition name (rows : list filter_row) : list (option nat) :=
  map (λ r, Py.get (movie_to_encoded rows) (fl_movie_label r)) rows.

Definition num_track (rows : list filter_row) : nat :=
  Py.len (film_to_film_encoded rows).
Definition num_name (rows : list filter_row) : nat :=
  Py.len (encoded_to_movie rows).

Definition min_popularity (rows : list filter_row) : Py.outcome Q :=
  Py.min (map fl_rating rows).
Definition max_popularity (rows : list filter_row) : Py.outcome Q :=
  Py.max (map fl_rating rows).

(** [collaborative_based]: the three columns, shuffled by [sample]. *)
Definition collaborative_based
    (sample : list (option nat * option nat * Q)
              → list (option nat * option nat * Q))
    (rows : list filter_row) : list (option nat * option nat * Q) :=
  sample (zip (zip (track rows) (name rows)) (map fl_rating rows)).

(** The body of the lambda that scales a rating. *)
Definition normalize_rating (min_p max_p x : Q) : Py.outcome Q :=
  Py.div (x - min_p) (max_p - min_p).

(** The targets [y]. *)
Definition y
    (sample : list (option nat * option nat * Q)
              → list (option nat * option nat * Q))
    (rows : list filter_row) : Py.outcome (list Q) :=
  min_p ← min_popularity rows;
  max_p ← max_popularity rows;
  Py.traverse (normalize_rating min_p max_p)
    (map snd (collaborative_based sample rows)).


(** ** The latent factor model *)

Section RecommenderNet.

(** The number type of the tensors and its operations; [rescale] is the
    scaling [Dropout(0.3)] applies to a unit it keeps. *)
Context {T : Type}.
Variables (zero : T) (add mul : T → T → T) (sigmoid rescale : T → T).

(** The weights of the four [Embedding] layers. *)
Record RecommenderNet : Type := Net {
  track_embedding : list (list T);
  name_embedding : list (list T);
  name_bias : list T;
  track_bias : list T
}.

(** The shapes [__init__] gives the layers. *)
Definition built (num_track num_name embedding_size : nat)
    (net : RecommenderNet) : Prop :=
  length (track_embedding net) = num_track
  ∧ length (track_bias net) = num_track
  ∧ length (name_embedding net) = num_name
  ∧ length (name_bias net) = num_name
  ∧ Forall (λ v, length v = embedding_size) (track_embedding net)
  ∧ Forall (λ v, length v = embedding_size) (name_embedding net).

(** An [Embedding] layer applied to one id. *)
Definition Embedding {A} (table : list A) (i : nat) : Py.outcome A :=
  match table !! i with
  | Some v => Py.Ok v
  | None => Py.Raise Py.InvalidArgumentError
  end.

(** [layers.Dropout(0.3)] on one unit: the identity outside training. *)
Definition Dropout (training keep : bool) (x : T) : T :=
  if training then (if keep then rescale x else zero) else x.

Definition reduce_sum (v : list T) : T := foldl add zero v.

Definition dot_track_name (track_vector name_vector : list T) : T :=
  reduce_sum (zip_with mul track_vector name_vector).

(** [call] on one row of the batch. *)
Definition call_row (net : RecommenderNet) (training keep : bool)
    (input : nat * nat) : Py.outcome T :=
  track_vector ← Embedding (track_embedding net) input.1;
  track_b ← Embedding (track_bias net) input.1;
  name_vector ← Embedding (name_embedding net) input.2;
  name_b ← Embedding (name_bias net) input.2;
  let x := add (add (dot_track_name track_vector name_vector) track_b) name_b in
  let x := Dropout training keep x in
  mret (sigmoid x).

(** [call]: [mask] tells which rows of the batch dropout keeps. *)
Definition call (net : RecommenderNet) (training : bool) (mask : nat → bool)
    (inputs : list (nat * nat)) : Py.outcome (list T) :=
  Py.traverse (λ p, call_row net training (mask p.1) p.2)
    (Py.enumerate inputs).

(** [model.predict]: the forward pass outside training. *)
Definition predict (net : RecommenderNet) (inputs : list (nat * nat))
  : Py.outcome (list T) :=
  call net false (λ _, true) inputs.

(** [scores.argsort()] and the text of a rating in an f-string. *)
Variable argsort : list T → list nat.
Variable show_rating : Q → string.

Definition index {A} (l : list A) (i : nat) : Py.outcome A :=
  match l !! i with
  | Some v => Py.Ok v
  | None => Py.Raise Py.IndexError
  end.

(** The line printed for one recommended film id. *)
Definition describe (rows : list filter_row) (film_id : option string)
  : string :=
  match film_id with
  | Some f =>
      match filter (λ r, fl_film_id r = f) rows with
      | info :: _ =>
          "🎬 " +:+ fl_title info +:+ " | Genre: " +:+ fl_genres_str info
            +:+ " | Rating: " +:+ show_rating (fl_rating info)
      | [] => "- Film ID '" +:+ f +:+ "' tidak ditemukan di dataset."
      end
  | None => "- Film ID 'None' tidak ditemukan di dataset."
  end.

(** The label query: the lines it prints, and [None], which it returns on
    every path. *)
Definition recommend_movies_based_on_title (net : RecommenderNet)
    (rows : list filter_row) (movie_label : string) (top_n : Z)
  : Py.outcome (list string * unit) :=
  match Py.get (movie_to_encoded rows) movie_label with
  | None =>
      Py.Ok (["Film dengan label '" +:+ movie_label +:+ "' tidak ditemukan."],
             tt)
  | Some encoded_movie_label =>
      let all_film_ids := Py.values (film_to_film_encoded rows) in
      let input_array := map (λ f, (f, encoded_movie_label)) all_film_ids in
      predicted_scores ← predict net input_array;
      let top_indices :=
        rev (Py.slice_from (- top_n) (argsort predicted_scores)) in
      recommended_film_encoded_ids ←
        Py.traverse (index all_film_ids) top_indices;
      let recommended_film_ids :=
        map (Py.get (film_encoded_to_film rows))
            recommended_film_encoded_ids in
      mret (String "010"%char
              ("Rekomendasi film berdasarkan: '" +:+ movie_label +:+ "'")
              :: map (describe rows) recommended_film_ids,
            tt)
  end.

End RecommenderNet.

Section specification_score.
Context {T : Type}.
Variables (zero : T) (add mul : T → T → T) (sigmoid : T → T).

(** [dot(u, v)] in the words of the specification: the sum of the products
    of the coordinates, [u_0 v_0 + ... + u_(n-1) v_(n-1)]. *)
Fixpoint spec_dot (n : nat) (u v : list T) : T :=
  match n with
  | 0 => zero
  | S k => add (spec_dot k u v) (mul (nth k u zero) (nth k v zero))
  end.

(** [dot(E_track[track_id], E_name[name_id]) + b_track[track_id]
    + b_name[name_id]] and its sigmoid, [score(track_id, name_id)], for
    embedding rows of [n] coordinates. *)
Definition spec_sum (E_track E_name : list (list T)) (b_track b_name : list T)
    (n : nat) (track_id name_id : nat) : T :=
  add (add (spec_dot n (nth track_id E_track []) (nth name_id E_name []))
         (nth track_id b_track zero))
    (nth name_id b_name zero).

Definition spec_score (E_track E_name : list (list T))
    (b_track b_name : list T) (n : nat) (track_id name_id : nat) : T :=
  sigmoid (spec_sum E_track E_name b_track b_name n track_id name_id).
End specification_score.

(** The logistic function and the scaling of [Dropout(0.3)], over the real
    numbers. *)
Definition logistic (x : R) : R := (1 / (1 + exp (- x)))%R.
Definition keep_scale (x : R) : R := (x / (1 - 3 / 10))%R.

(** ** Catalogs for the examples *)

(** Scenario A of the specification, with ratings. *)
Definition scenario_movies : list movie :=
  [Movie 1 "Toy Story (1995)" "Adventure|Animation";
   Movie 2 "Heat (1995)" "Action|Crime"].
Definition scenario_ratings : list rating_row :=
  [Rating 1 1 4 964982703; Rating 1 2 (7 # 2) 964982931; Rating 5 1 2 847434962].
Definition toy_story_row : filter_row :=
  {| fl_movieId := 1;
     fl_title := "Toy Story (1995)";
     fl_genres_split := ["Adventure"; "Animation"];
     fl_title_length := 16;
     fl_rating := 4;
     fl_genres_str := "Adventure Animation";
     fl_movie_label := "Toy Story (1995) (Adventure Animation)";
     fl_content_features := "Adventure Animation 16";
     fl_film_id := "TOY0" |}.
Definition heat_row : filter_row :=
  {| fl_movieId := 2;
     fl_title := "Heat (1995)";
     fl_genres_split := ["Action"; "Crime"];
     fl_title_length := 11;
     fl_rating := 7 # 2;
     fl_genres_str := "Action Crime";
     fl_movie_label := "Heat (1995) (Action Crime)";
     fl_content_features := "Action Crime 11";
     fl_film_id := "HEA1" |}.
Definition scenario_rows : list filter_row := [toy_story_row; heat_row].

(** Two catalog entries that share title and genres. *)
Definition emma_movies : list movie :=
  [Movie 838 "Emma (1996)" "Comedy|Drama|Romance";
   Movie 26958 "Emma (1996)" "Comedy|Drama|Romance"].
Definition emma_ratings : list rating_row :=
  [Rating 6 838 4 845553457; Rating 84 26958 3 857653289].
Definition emma_items : list item :=
  content_based_data (dataset_content emma_ratings emma_movies).
Definition emma_frame : frame Q :=
  DataFrame [[1; 1]; [1; 1]]%Q (map it_movie_label emma_items).

(** A catalog in which every rating is 4. *)
Definition all_fours : list filter_row :=
  [{| fl_movieId := 1;
      fl_title := "Toy Story (1995)";
      fl_genres_split := ["Adventure"; "Animation"];
      fl_title_length := 16;
      fl_rating := 4;
      fl_genres_str := "Adventure Animation";
      fl_movie_label := "Toy Story (1995) (Adventure Animation)";
      fl_content_features := "Adventure Animation 16";
      fl_film_id := "TOY0" |};
   {| fl_movieId := 2;
      fl_title := "Heat (1995)";
      fl_genres_split := ["Action"; "Crime"];
      fl_title_length := 11;
      fl_rating := 4;
      fl_genres_str := "Action Crime";
      fl_movie_label := "Heat (1995) (Action Crime)";
      fl_content_features := "Action Crime 11";
      fl_film_id := "HEA1" |}].

Definition tiny_net : RecommenderNet :=
  {| track_embedding := [[1; 2]; [3; 4]]%R;
     name_embedding := [[0; 1]; [1; 0]]%R;
     name_bias := [0; 0]%R;
     track_bias := [1; 1]%R |}.

Definition scenario_items : list item :=
  [{| it_title := "Toy Story (1995)";
      it_movie_label := "Toy Story (1995) (Adventure|Animation)";
      it_content_features := "Adventure Animation 16" |};
   {| it_title := "Heat (1995)";
      it_movie_label := "Heat (1995) (Action|Crime)";
      it_content_features := "Action Crime 11" |}].

Definition scenario_frame : frame Q :=
  DataFrame [[1; 0]; [0; 1]]%Q (map it_movie_label scenario_items).

Definition toy_story_item : item :=
  {| it_title := "Toy Story (1995)";
     it_movie_label := "Toy Story (1995) (Adventure|Animation|Children)";
     it_content_features := "Adventure Animation Children 16" |}.
Definition heat_item : item :=
  {| it_title := "Heat (1995)";
     it_movie_label := "Heat (1995) (Action|Crime)";
     it_content_features := "Action Crime 11" |}.
Definition balto_item : item :=
  {| it_title := "Balto (1995)";
     it_movie_label := "Balto (1995) (Adventure|Animation|Children)";
     it_content_features := "Adventure Animation Children 12" |}.
Definition three_items : list item := [toy_story_item; heat_item; balto_item].

Definition three_frame : frame Q :=
  DataFrame [[1; 0; 9 # 10]; [0; 1; 0]; [9 # 10; 0; 1]]%Q
    (map it_movie_label three_items).

Definition toy_story_2 : item :=
  {| it_title := "Toy Story 2 (1999)";
     it_movie_label :=
       "Toy Story 2 (1999) (Adventure|Animation|Children|Comedy|Fantasy)";
     it_content_features := "Adventure Animation Children Comedy Fantasy 18" |}.
Definition toy_story_3 : item :=
  {| it_title := "Toy Story 3 (2010)";
     it_movie_label :=
       "Toy Story 3 (2010) (Adventure|Animation|Children|Comedy|Fantasy)";
     it_content_features := "Adventure Animation Children Comedy Fantasy 18" |}.
Definition sequels_frame : frame Q :=
  DataFrame [[1; 1]; [1; 1]]%Q (map it_movie_label [toy_story_2; toy_story_3]).
Definition sequels_items : list item := [toy_story_2; toy_story_3].
Definition sequels_similarity : list (list R) :=
  let docs := map it_content_features sequels_items in
  let X := map (λ d, Sklearn.normalize_row (Sklearn.weights docs d)) docs in
  Sklearn.cosine_similarity X X.

(** A catalog with a movie whose feature string has no token: a one-digit
    title length and a genre field without a word. *)
Definition up_movies : list movie :=
  [Movie 6 "Heat (1995)" "Action|Crime|Thriller";
   Movie 68954 "Up (2009)" "-"].
Definition up_ratings : list rating_row :=
  [Rating 1 6 4 964982224; Rating 15 68954 4 1510571970].
Definition up_items : list item :=
  [{| it_title := "Heat (1995)";
      it_movie_label := "Heat (1995) (Action|Crime|Thriller)";
      it_content_features := "Action Crime Thriller 11" |};
   {| it_title := "Up (2009)";
      it_movie_label := "Up (2009) (-)";
      it_content_features := "- 9" |}].

Definition up_docs : list string := map it_content_features up_items.
Definition up_tfidf : list (list R) :=
  map (λ d, Sklearn.normalize_row (Sklearn.weights up_docs d)) up_docs.
Definition up_similarity : list (list R) :=
  Sklearn.cosine_similarity up_tfidf up_tfidf.

(** Eleven movies of which the first and the last get the same [film_id]:
    [11] followed by the index 0, and [1] followed by the index 10. *)
Definition eleven_movies : list movie :=
  [Movie 1 "11 Harrowhouse (1974)" "Crime"; Movie 2 "Heat (1995)" "Action";
   Movie 3 "Casino (1995)" "Crime"; Movie 4 "Nixon (1995)" "Drama";
   Movie 5 "Babe (1995)" "Children"; Movie 6 "Clueless (1995)" "Comedy";
   Movie 7 "Seven (1995)" "Mystery"; Movie 8 "Friday (1995)" "Comedy";
   Movie 9 "Bed of Roses (1996)" "Romance"; Movie 10 "Big Bully (1996)" "Comedy";
   Movie 11 "1 Night (2016)" "Drama"].
Definition eleven_ratings : list rating_row :=
  map (λ m, Rating 1 (mv_movieId m) 4 964982703) eleven_movies.

(** ** Further cells of the notebook *)

(** [s.replace(a, b)] for two characters. *)
Definition replace_char (a b : ascii) : string → string :=
  Py.map_chars (λ c, if Ascii.eqb a c then b else c).

(** A decimal digit, and a string that does not end in one. *)
Definition is_digit (c : ascii) : bool :=
  let n := nat_of_ascii c in (48 <=? n) && (n <=? 57).

Definition no_final_digit (s : string) : Prop :=
  ∀ c, last (chars s) = Some c → is_digit c = false.

(** A title without a word: empty, or white space only. *)
Definition blank (s : string) : bool := forallb Py.is_space (chars s).

(** [x]: the two code columns of [collaborative_based]. *)
Definition x
    (sample : list (option nat * option nat * Q)
              → list (option nat * option nat * Q))
    (rows : list filter_row) : list (option nat * option nat) :=
  map fst (collaborative_based sample rows).

(** [l[:hi]]. *)
Definition slice_to {A} (hi : Z) (l : list A) : list A :=
  take (Py.bound (length l) hi) l.

(** [int(0.8 * n)]: the integer part of eight tenths of [n].  (The
    floating-point product gives the same integer part for every table size
    below 2^53: the double next to 0.8 lies above it by less than one part
    in 2^54, so the product rounds to [8 n / 10] itself when that is an
    integer, and stays at least 1/5 off the next integer otherwise.) *)
Definition train_indices (n : nat) : Z := (8 * Z.of_nat n / 10)%Z.

(** [x_train, x_val, y_train, y_val]. *)
Definition train_val_split {A B} (x : list A) (y : list B)
  : list A * list A * list B * list B :=
  let t := train_indices (length x) in
  (slice_to t x, Py.slice_from t x, slice_to t y, Py.slice_from t y).

(** What the label query needs of [argsort]: the positions of the scores,
    rearranged so that the scores ascend. *)
Definition argsorts {T} (le : T → T → Prop) (argsort : list T → list nat)
  : Prop :=
  ∀ scores,
    argsort scores ≡ₚ seq 0 (length scores)
    ∧ StronglySorted
        (λ i j, ∀ a b, scores !! i = Some a → scores !! j = Some b → le a b)
        (argsort scores).

(** An [argsort] over the real numbers that keeps ties in input order. *)
Definition stable_argsort (scores : list R) : list nat :=
  sort_by (λ i j, if Rle_dec (nth i scores 0%R) (nth j scores 0%R)
                  then true else false)
    (seq 0 (length scores)).

(** [df.explode('genres_split')]: a row per element of the list, and one
    row with a missing value for an empty list. *)
Definition explode (rows : list mov_row) : list (mov_row * option string) :=
  flat_map (λ m, match mr_genres_split m with
                 | [] => [(m, None)]
                 | gs => map (λ g, (m, Some g)) gs
                 end) rows.

Definition genres_ex (movies : list movie) : list (mov_row * option string) :=
  explode (df_mov movies).

#[global] Instance Q_eq_dec : EqDecision Q.
Proof. solve_decision. Defined.

#[global] Instance Qeq_decision (a b : Q) : Decision (a == b)%Q := Qeq_dec a b.

(** [Series.value_counts()]: the distinct values that are not missing, each
    with the number of its occurrences, ordered by the sorting routine of
    the library. *)
Definition value_counts {K} `{EqDecision K}
    (sorter : list (K * nat) → list (K * nat)) (xs : list (option K))
  : list (K * nat) :=
  let vs := omap (λ x : option K, x) xs in
  sorter (map (λ v, (v, length (filter (λ y, y = v) vs)))
            (drop_duplicates (λ v : K, v) [] vs)).

(** What [value_counts] needs of the sorting routine: the most frequent
    value first. *)
Definition sorts_counts {K} (sorter : list (K * nat) → list (K * nat))
  : Prop :=
  ∀ s, sorter s ≡ₚ s ∧ StronglySorted (λ a b, b.2 ≤ a.2) (sorter s).

(** The order of the bars of the genre plot:
    [genres_ex['genres_split'].value_counts().index]. *)
Definition genre_order (sorter : list (string * nat) → list (string * nat))
    (movies : list movie) : list (string * nat) :=
  value_counts sorter (map snd (genres_ex movies)).

(** [df_rat['rating'].value_counts().sort_index()]; a rating stands for its
    value, whatever fraction writes it. *)
Definition rating_counts (sorter : list (Q * nat) → list (Q * nat))
    (ratings : list rating_row) : list (Q * nat) :=
  sort_by (λ a b, Qle_bool a.1 b.1)
    (value_counts sorter (map (λ r, Some (Qred (rt_rating r))) ratings)).

(** A sorting routine for the examples: insertion sort, the greatest count
    first. *)
Definition by_count_desc {K} (s : list (K * nat)) : list (K * nat) :=
  sort_by (λ a b, b.2 <=? a.2) s.

(** * Results *)

(** ** Catalog normalisation *)

Section drop_duplicates.
Context {A K : Type} `{EqDecision K} (key : A → K).

Lemma drop_duplicates_elem (seen : list K) (l : list A) (x : A) :
  x ∈ drop_duplicates key seen l → x ∈ l ∧ key x ∉ seen.
Proof.
  revert seen. induction l as [|a l IH]; intros seen; simpl.
  - intros H. inversion H.
  - destruct (decide (key a ∈ seen)) as [Hin|Hnin].
    + intros H. apply IH in H as [H1 H2]. split; [by right|done].
    + rewrite elem_of_cons. intros [->|H].
      * split; [by left|done].
      * apply IH in H as [H1 H2]. split; [by right|].
        intros Hs. apply H2. by right.
Qed.

Lemma drop_duplicates_keys (seen : list K) (l : list A) (k : K) :
  k ∈ map key l → k ∉ seen → k ∈ map key (drop_duplicates key seen l).
Proof.
  revert seen. induction l as [|a l IH]; intros seen; simpl.
  - intros H. inversion H.
  - rewrite elem_of_cons. intros [->|H] Hs.
    + destruct (decide (key a ∈ seen)); [done|]. simpl. by left.
    + destruct (decide (key a ∈ seen)) as [Hin|Hnin].
      * by apply IH.
      * simpl. destruct (decide (k = key a)) as [->|Hne]; [by left|].
        right. apply IH; [done|]. rewrite elem_of_cons. intros [?|?]; done.
Qed.

Lemma drop_duplicates_NoDup (seen : list K) (l : list A) :
  NoDup (map key (drop_duplicates key seen l)).
Proof.
  revert seen. induction l as [|a l IH]; intros seen; simpl.
  - constructor.
  - destruct (decide (key a ∈ seen)); [apply IH|].
    simpl. apply NoDup_cons. split; [|apply IH].
    intros H. apply list_elem_of_fmap in H as (x & Hx & Hin).
    apply drop_duplicates_elem in Hin as [_ Hn]. apply Hn. rewrite Hx. by left.
Qed.

(** The first row of a key is the one that is kept. *)
Lemma drop_duplicates_first (seen : list K) (l : list A) (x : A) :
  x ∈ drop_duplicates key seen l →
  ∃ l1 l2, l = l1 ++ x :: l2 ∧ key x ∉ map key l1.
Proof.
  revert seen. induction l as [|a l IH]; intros seen; simpl.
  - intros H. inversion H.
  - destruct (decide (key a ∈ seen)) as [Hin|Hnin].
    + intros H. pose proof (drop_duplicates_elem _ _ _ H) as [_ Hs].
      apply IH in H as (l1 & l2 & -> & Hk).
      exists (a :: l1), l2. split; [done|]. simpl.
      rewrite elem_of_cons. intros [Heq|?]; [|done]. apply Hs. by rewrite Heq.
    + rewrite elem_of_cons. intros [->|H].
      * exists [], l. split; [done|]. simpl. apply not_elem_of_nil.
      * pose proof (drop_duplicates_elem _ _ _ H) as [_ Hs].
        apply IH in H as (l1 & l2 & -> & Hk).
        exists (a :: l1), l2. split; [done|]. simpl.
        rewrite elem_of_cons. intros [Heq|?]; [|done].
        apply Hs. rewrite Heq. by left.
Qed.

Lemma drop_duplicates_seen_ext (s1 s2 : list K) (l : list A) :
  (∀ k, k ∈ s1 ↔ k ∈ s2) →
  drop_duplicates key s1 l = drop_duplicates key s2 l.
Proof.
  revert s1 s2. induction l as [|a l IH]; intros s1 s2 Hs; simpl; [done|].
  rewrite (decide_ext _ _ _ _ (Hs (key a))).
  destruct (decide (key a ∈ s2)); [by apply IH|]. f_equal. apply IH.
  intros k. rewrite !elem_of_cons, Hs. done.
Qed.

Lemma drop_duplicates_app (seen : list K) (l1 l2 : list A) :
  drop_duplicates key seen (l1 ++ l2)
  = drop_duplicates key seen l1
    ++ drop_duplicates key (map key l1 ++ seen) l2.
Proof.
  revert seen. induction l1 as [|a l1 IH]; intros seen; simpl; [done|].
  destruct (decide (key a ∈ seen)) as [Hin|Hnin].
  - rewrite IH. f_equal. apply drop_duplicates_seen_ext.
    intros k. rewrite elem_of_cons, !elem_of_app. split; [tauto|].
    intros [->|?]; tauto.
  - simpl. rewrite IH. do 2 f_equal. apply drop_duplicates_seen_ext.
    intros k. rewrite elem_of_cons, !elem_of_app, elem_of_cons. tauto.
Qed.
End drop_duplicates.

Lemma df_merged_elem (ratings : list rating_row) (movies : list movie)
    (g : merged_row) :
  g ∈ df_merged ratings movies ↔
  ∃ r m, r ∈ ratings ∧ m ∈ movies ∧ mv_movieId m = rt_movieId r
         ∧ g = join_row r (MovRow (mv_movieId m) (mv_title m) (mv_genres m)
                             (Py.split_on "|"%char (mv_genres m))
                             (String.length (mv_title m))).
Proof.
  unfold df_merged, df_mov. rewrite list_elem_of_In, in_flat_map. split.
  - intros (r & Hr & Hg). apply list_elem_of_In in Hr, Hg.
    apply list_elem_of_fmap in Hg as (m' & -> & Hm').
    apply list_elem_of_filter in Hm' as [Hid Hm'].
    apply list_elem_of_fmap in Hm' as (m & -> & Hm).
    exists r, m. simpl in Hid. done.
  - intros (r & m & Hr & Hm & Hid & ->). exists r. split; [by apply list_elem_of_In|].
    apply list_elem_of_In. apply list_elem_of_fmap. eexists. split; [done|].
    apply list_elem_of_filter. split; [done|].
    apply list_elem_of_fmap. exists m. done.
Qed.

(** C8, as amended: one record per movie id that has both a catalog row and
    a rating row, and nothing else; the record carries the title and genres
    of a catalog row of that id. *)
Theorem dataset_content_one_record_per_rated_movie
    (ratings : list rating_row) (movies : list movie) :
  NoDup (map dc_movieId (dataset_content ratings movies))
  ∧ (∀ id, id ∈ map dc_movieId (dataset_content ratings movies) ↔
           id ∈ map rt_movieId ratings ∧ id ∈ map mv_movieId movies)
  ∧ (∀ c, c ∈ dataset_content ratings movies →
          ∃ m, m ∈ movies ∧ mv_movieId m = dc_movieId c
               ∧ dc_title c = mv_title m ∧ dc_genres c = mv_genres m).
Proof.
  unfold dataset_content. split; [|split].
  - rewrite <- list_fmap_compose.
    apply (drop_duplicates_NoDup mg_movieId).
  - intros id. rewrite <- list_fmap_compose. split.
    + intros H. apply list_elem_of_fmap in H as (g & -> & Hg).
      apply drop_duplicates_elem in Hg as [Hg _].
      apply df_merged_elem in Hg as (r & m & Hr & Hm & Hid & ->). simpl. split.
      * apply list_elem_of_fmap. by exists r.
      * apply list_elem_of_fmap. exists m. by rewrite Hid.
    + intros [Hr Hm].
      apply list_elem_of_fmap in Hr as (r & -> & Hr).
      apply list_elem_of_fmap in Hm as (m & Hid & Hm).
      apply (drop_duplicates_keys mg_movieId); [|apply not_elem_of_nil].
      apply list_elem_of_fmap. eexists. split; [|apply df_merged_elem; eauto 10].
      done.
  - intros c H. apply list_elem_of_fmap in H as (g & -> & Hg).
    apply drop_duplicates_elem in Hg as [Hg _].
    apply df_merged_elem in Hg as (r & m & Hr & Hm & Hid & ->).
    exists m. simpl. done.
Qed.

(** C8, as stated, fails: with two ratings of movie 1 and none of movie 2,
    movie 2 gets no record (and no default rating), and the record of movie 1
    carries 4, the rating of its first row, while the mean is 3. *)
Lemma dataset_content_not_mean_no_default :
  let ratings := [Rating 7 1 4 100; Rating 8 1 2 101] in
  let movies := [Movie 1 "Toy Story (1995)" "Adventure|Animation";
                 Movie 2 "Heat (1995)" "Action|Crime"] in
  map (λ c, (dc_movieId c, dc_rating c)) (dataset_content ratings movies)
    = [(1%Z, 4%Q)]
  ∧ (mean (ratings_of 1 ratings) == 3)%Q
  ∧ ¬ (4 == mean (ratings_of 1 ratings))%Q
  ∧ 2%Z ∈ map mv_movieId movies
  ∧ 2%Z ∉ map dc_movieId (dataset_content ratings movies).
Proof.
  repeat split; try (vm_compute; congruence).
  - by apply (bool_decide_unpack _).
  - by apply (bool_decide_unpack _).
Qed.

(** X4: which rating row it is: the first one of the movie, in the order of the
    rating table, where the comment in the source announces the average. *)
Lemma dataset_content_rating_is_first_row
    (ratings : list rating_row) (movies : list movie) (c : content_row) :
  c ∈ dataset_content ratings movies →
  head (ratings_of (dc_movieId c) ratings) = Some (dc_rating c).
Proof.
  unfold dataset_content, df_merged. generalize (@nil Z) as seen.
  induction ratings as [|r rs IH]; intros seen Hc.
  - by apply elem_of_nil in Hc.
  - simpl flat_map in Hc. rewrite drop_duplicates_app in Hc.
    rewrite map_app in Hc. apply elem_of_app in Hc as [Hc|Hc].
    + apply list_elem_of_fmap in Hc as (g & -> & Hg).
      apply drop_duplicates_elem in Hg as [Hg _].
      apply list_elem_of_fmap in Hg as (m & -> & _). simpl.
      unfold ratings_of. by rewrite filter_cons_True.
    + pose proof Hc as Hc'. apply IH in Hc'.
      apply list_elem_of_fmap in Hc as (g & -> & Hg).
      apply drop_duplicates_elem in Hg as [Hg Hseen].
      apply list_elem_of_In, in_flat_map in Hg as (r' & _ & Hg).
      apply list_elem_of_In, list_elem_of_fmap in Hg as (m & -> & Hm).
      apply list_elem_of_filter in Hm as [Hid Hm].
      simpl in *. unfold ratings_of in *.
      rewrite filter_cons_False; [done|].
      intros Heq. apply Hseen. apply elem_of_app. left.
      apply list_elem_of_fmap. exists (join_row r m). split; [done|].
      apply list_elem_of_fmap. exists m. split; [done|].
      apply list_elem_of_filter. split; [congruence|done].
Qed.

(** ** The entity indices *)

Section dict.
Context {K V : Type} `{EqDecision K}.

Lemma setitem_fresh (k : K) (v : V) (d : Py.dict K V) :
  k ∉ Py.keys d → Py.setitem k v d = d ++ [(k, v)].
Proof.
  induction d as [|[k' v'] d IH]; simpl; [done|].
  rewrite not_elem_of_cons. intros [Hne Hd].
  destruct (decide (k' = k)); [congruence|]. by rewrite IH.
Qed.

Lemma get_app_fresh (d1 d2 : Py.dict K V) (k : K) :
  k ∉ Py.keys d1 → Py.get (d1 ++ d2) k = Py.get d2 k.
Proof.
  induction d1 as [|[k' v'] d IH]; simpl; [done|].
  rewrite not_elem_of_cons. intros [Hne Hd].
  destruct (decide (k' = k)); [congruence|]. by apply IH.
Qed.

Lemma get_None (d : Py.dict K V) (k : K) :
  Py.get d k = None ↔ k ∉ Py.keys d.
Proof.
  induction d as [|[k' v'] d IH]; simpl.
  - split; [intros _; apply not_elem_of_nil|done].
  - rewrite not_elem_of_cons. destruct (decide (k' = k)) as [->|Hne].
    + split; [done|]. intros [? _]. done.
    + rewrite IH. split; [intros ?; split; [congruence|done]|by intros [_ ?]].
Qed.
End dict.

(** The two comprehensions over a list without repetition. *)
Lemma encoding_acc (xs : list string) (j : nat) (acc : Py.dict string nat) :
  NoDup xs → (∀ x, x ∈ xs → x ∉ Py.keys acc) →
  foldl (λ d p, Py.setitem p.2 p.1 d) acc (imap (λ i x, (j + i, x)) xs)
  = acc ++ imap (λ i x, (x, j + i)) xs.
Proof.
  revert j acc. induction xs as [|x xs IH]; intros j acc Hnd Hacc; simpl.
  - by rewrite app_nil_r.
  - apply NoDup_cons in Hnd as [Hx Hnd].
    rewrite setitem_fresh by (apply Hacc; by left).
    rewrite (imap_ext _ (λ i y, (S j + i, y))) by (intros; simpl; f_equal; lia).
    rewrite IH; [| done |].
    + rewrite <- app_assoc. simpl. do 2 f_equal.
      apply imap_ext. intros. simpl. f_equal. lia.
    + intros y Hy. unfold Py.keys. rewrite map_app. simpl.
      rewrite elem_of_app, list_elem_of_singleton. intros [Hin| ->]; [|done].
      apply (Hacc y); [by right|done].
Qed.

Lemma decoding_acc (xs : list string) (j : nat) (acc : Py.dict nat string) :
  (∀ i, i ∈ Py.keys acc → i < j) →
  foldl (λ d p, Py.setitem p.1 p.2 d) acc (imap (λ i x, (j + i, x)) xs)
  = acc ++ imap (λ i x, (j + i, x)) xs.
Proof.
  revert j acc. induction xs as [|x xs IH]; intros j acc Hacc; simpl.
  - by rewrite app_nil_r.
  - rewrite setitem_fresh.
    2:{ intros Hin. apply Hacc in Hin. lia. }
    rewrite (imap_ext _ (λ i y, (S j + i, y))) by (intros; simpl; f_equal; lia).
    rewrite IH.
    + by rewrite <- app_assoc.
    + intros i. unfold Py.keys. rewrite map_app. simpl.
      rewrite elem_of_app, list_elem_of_singleton. intros [Hin| ->]; [|lia].
      apply Hacc in Hin. lia.
Qed.

Lemma encoding_NoDup (xs : list string) :
  NoDup xs → encoding xs = imap (λ i x, (x, i)) xs.
Proof.
  intros Hnd. unfold encoding, Py.enumerate.
  apply (encoding_acc xs 0 [] Hnd). intros. apply not_elem_of_nil.
Qed.

Lemma decoding_eq (xs : list string) : decoding xs = imap (λ i x, (i, x)) xs.
Proof.
  unfold decoding, Py.enumerate. apply (decoding_acc xs 0 []).
  intros i Hi. by apply not_elem_of_nil in Hi.
Qed.

Lemma get_encoding_acc (xs : list string) (j i : nat) (x : string) :
  NoDup xs →
  (Py.get (imap (λ i x, (x, j + i)) xs) x = Some (j + i) ↔ xs !! i = Some x).
Proof.
  revert j i. induction xs as [|a xs IH]; intros j i Hnd; simpl.
  - split; [done|]. by rewrite lookup_nil.
  - apply NoDup_cons in Hnd as [Ha Hnd].
    rewrite (imap_ext _ (λ i y, (y, S j + i))) by (intros; simpl; f_equal; lia).
    destruct (decide (a = x)) as [->|Hne].
    + destruct i as [|i]; simpl.
      * done.
      * split; [intros [=]; lia|].
        intros Hx. apply list_elem_of_lookup_2 in Hx. done.
    + destruct i as [|i]; simpl.
      * split; [|congruence]. intros Hget. exfalso.
        assert (∀ (l : list string) m n, Py.get (imap (λ i y, (y, m + i)) l) x = Some n → m ≤ n) as Hge.
        { clear. induction l as [|b l IHl]; intros m n; simpl; [done|].
          destruct (decide (b = x)); [intros [=]; lia|].
          rewrite (imap_ext _ (λ i y, (y, S m + i))) by (intros; simpl; f_equal; lia).
          intros H. apply IHl in H. lia. }
        apply (Hge xs (S j) (j + 0)) in Hget. lia.
      * rewrite <- (IH (S j) i Hnd). replace (S j + i) with (j + S i) by lia. done.
Qed.

Lemma get_encoding (xs : list string) (i : nat) (x : string) :
  NoDup xs → (Py.get (encoding xs) x = Some i ↔ xs !! i = Some x).
Proof.
  intros Hnd. rewrite (encoding_NoDup xs Hnd).
  apply (get_encoding_acc xs 0 i x Hnd).
Qed.

Lemma get_decoding_acc (xs : list string) (j i : nat) :
  Py.get (imap (λ i x, (j + i, x)) xs) (j + i) = xs !! i.
Proof.
  revert j i. induction xs as [|a xs IH]; intros j i; simpl; [done|].
  rewrite (imap_ext _ (λ i y, (S j + i, y))) by (intros; simpl; f_equal; lia).
  destruct i as [|i]; simpl.
  - destruct (decide (j + 0 = j + 0)); [done|lia].
  - destruct (decide (j + 0 = j + S i)); [lia|].
    replace (j + S i) with (S j + i) by lia. exact (IH (S j) i).
Qed.

Lemma get_decoding (xs : list string) (i : nat) :
  Py.get (decoding xs) i = xs !! i.
Proof. rewrite decoding_eq. apply (get_decoding_acc xs 0 i). Qed.

Lemma unique_NoDup (xs : list string) : NoDup (unique xs).
Proof.
  unfold unique. pose proof (drop_duplicates_NoDup (λ x : string, x) [] xs) as H.
  by rewrite map_id in H.
Qed.

Lemma unique_elem (xs : list string) (x : string) : x ∈ unique xs ↔ x ∈ xs.
Proof.
  unfold unique. split.
  - intros H. by apply drop_duplicates_elem in H as [H _].
  - intros H.
    pose proof (drop_duplicates_keys (λ x : string, x) [] xs x) as Hk.
    rewrite !map_id in Hk. apply Hk; [done|apply not_elem_of_nil].
Qed.

Example scenario_rows_from_tables :
  dataset_filter (dataset_content scenario_ratings scenario_movies)
  = Py.Ok scenario_rows.
Proof. reflexivity. Qed.

Lemma index_round_trip (xs : list string) (x : string) :
  x ∈ xs →
  ∃ i, Py.get (encoding (unique xs)) x = Some i
       ∧ Py.get (decoding (unique xs)) i = Some x.
Proof.
  intros Hx. apply unique_elem in Hx.
  apply list_elem_of_lookup_1 in Hx as [i Hi]. exists i. split.
  - by apply get_encoding; [apply unique_NoDup|].
  - by rewrite get_decoding.
Qed.

(** C9: for every row of the catalog, decoding the code of its [film_id]
    gives back the [film_id], and decoding the code of its [movie_label]
    gives back the [movie_label]. *)
Theorem entity_index_round_trip (rows : list filter_row) (r : filter_row) :
  r ∈ rows →
  (∃ i, Py.get (film_to_film_encoded rows) (fl_film_id r) = Some i
        ∧ Py.get (film_encoded_to_film rows) i = Some (fl_film_id r))
  ∧ (∃ i, Py.get (movie_to_encoded rows) (fl_movie_label r) = Some i
          ∧ Py.get (encoded_to_movie rows) i = Some (fl_movie_label r)).
Proof.
  intros Hr. split.
  - apply index_round_trip. by apply list_elem_of_fmap_2.
  - apply index_round_trip. by apply list_elem_of_fmap_2.
Qed.

Lemma entity_index_round_trip_witness :
  heat_row ∈ scenario_rows
  ∧ (∃ i, Py.get (film_to_film_encoded scenario_rows) (fl_film_id heat_row)
          = Some i
          ∧ Py.get (film_encoded_to_film scenario_rows) i
            = Some (fl_film_id heat_row))
  ∧ (∃ i, Py.get (movie_to_encoded scenario_rows) (fl_movie_label heat_row)
          = Some i
          ∧ Py.get (encoded_to_movie scenario_rows) i
            = Some (fl_movie_label heat_row)).
Proof.
  assert (heat_row ∈ scenario_rows) as H by (right; left).
  split; [exact H|]. exact (entity_index_round_trip scenario_rows heat_row H).
Defined.

Lemma drop_duplicates_snoc {A} `{EqDecision A} (seen xs : list A) (x : A) :
  drop_duplicates (λ a : A, a) seen (xs ++ [x])
  = drop_duplicates (λ a : A, a) seen xs
    ++ (if decide (x ∈ seen ++ xs) then [] else [x]).
Proof.
  revert seen. induction xs as [|a xs IH]; intros seen; simpl.
  - rewrite app_nil_r. by destruct (decide (x ∈ seen)).
  - destruct (decide (a ∈ seen)) as [Hin|Hnin].
    + rewrite IH. f_equal. apply decide_ext.
      rewrite !elem_of_app, elem_of_cons. split; [tauto|].
      intros [?|[->|?]]; tauto.
    + simpl. rewrite IH. do 2 f_equal. apply decide_ext.
      rewrite !elem_of_app, !elem_of_cons. tauto.
Qed.

(** First-seen order: reading the column from the top, a value joins the
    end of the list when it was not seen before. *)
Lemma unique_snoc (xs : list string) (x : string) :
  unique (xs ++ [x]) = if decide (x ∈ xs) then unique xs else unique xs ++ [x].
Proof.
  unfold unique. rewrite drop_duplicates_snoc. simpl.
  destruct (decide (x ∈ xs)); [by rewrite app_nil_r|done].
Qed.

Lemma unique_length (xs : list string) :
  length (unique xs) ≤ length xs
  ∧ (length (unique xs) = length xs ↔ NoDup xs).
Proof.
  induction xs as [|x xs IH] using rev_ind.
  - split; [done|]. split; [constructor|done].
  - destruct IH as [IH1 IH2]. rewrite unique_snoc, length_app. simpl.
    destruct (decide (x ∈ xs)) as [Hin|Hnin].
    + split; [lia|]. split; [lia|].
      intros Hnd. apply NoDup_app in Hnd as (_ & Hd & _).
      exfalso. apply (Hd x Hin). by left.
    + rewrite length_app. simpl. split; [lia|].
      rewrite NoDup_app. split.
      * intros Hl. split; [apply IH2; lia|]. split; [|apply NoDup_singleton].
        intros y Hy Hy'. apply list_elem_of_singleton in Hy' as ->. done.
      * intros (Hnd & _ & _). apply IH2 in Hnd. lia.
Qed.

Lemma len_encoding (xs : list string) :
  NoDup xs → Py.len (encoding xs) = length xs.
Proof. intros H. rewrite encoding_NoDup by done. apply length_imap. Qed.

Lemma len_decoding (xs : list string) : Py.len (decoding xs) = length xs.
Proof. rewrite decoding_eq. apply length_imap. Qed.

Lemma values_encoding (xs : list string) :
  NoDup xs → Py.values (encoding xs) = seq 0 (length xs).
Proof.
  intros H. rewrite encoding_NoDup by done. unfold Py.values.
  apply list_eq. intros i. rewrite list_lookup_fmap, list_lookup_imap.
  destruct (xs !! i) as [x|] eqn:Hx; simpl.
  - symmetry. apply lookup_seq. split; [done|]. by apply lookup_lt_Some in Hx.
  - symmetry. apply lookup_seq_ge. by apply lookup_ge_None in Hx.
Qed.



(** C10: the claim fails on the code.  Two movies with the same title and
    genres share one label, which the comments of the source call a unique
    identifier: [num_name] is 1 for a catalog of two movies, and differs
    from [num_track]. *)
Lemma num_name_below_movie_count :
  ∃ rows,
    dataset_filter (dataset_content emma_ratings emma_movies) = Py.Ok rows
    ∧ map fl_movieId rows = [838%Z; 26958%Z]
    ∧ num_track rows = 2 ∧ num_name rows = 1.
Proof. eexists. split; [reflexivity|]. by vm_compute. Qed.

(** ** Rating normalisation *)

Lemma min_Ok_nonempty (xs : list Q) (lo : Q) : Py.min xs = Py.Ok lo → xs ≠ [].
Proof. by destruct xs. Qed.

Lemma normalize_rating_degenerate (lo hi x : Q) :
  (lo == hi)%Q → normalize_rating lo hi x = Py.Raise Py.ZeroDivisionError.
Proof.
  intros Heq. unfold normalize_rating, Py.div.
  assert (Qeq_bool (hi - lo) 0 = true) as ->; [|done].
  apply Qeq_bool_iff. rewrite Heq. ring.
Qed.

Lemma traverse_raise_first {A B} (f : A → Py.outcome B) (l : list A) (e : Py.exn) :
  l ≠ [] → (∀ x, f x = Py.Raise e) → Py.traverse f l = Py.Raise e.
Proof. intros Hl Hf. destruct l as [|x l]; [done|]. simpl. by rewrite Hf. Qed.

(** C6, as amended: when the least and the greatest rating of a non-empty
    catalog are equal, computing the targets divides by zero without a guard
    and ends in the [ZeroDivisionError] of the runtime; it yields no value,
    and no [DegenerateInput] condition is raised. *)
Theorem degenerate_ratings_raise_ZeroDivisionError
    (sample : list (option nat * option nat * Q)
              → list (option nat * option nat * Q))
    (rows : list filter_row) (lo hi : Q) :
  (∀ l, sample l ≡ₚ l) →
  min_popularity rows = Py.Ok lo →
  max_popularity rows = Py.Ok hi →
  (lo == hi)%Q →
  y sample rows = Py.Raise Py.ZeroDivisionError.
Proof.
  intros Hperm Hmin Hmax Heq. unfold y. rewrite Hmin, Hmax.
  unfold_outcome.
  apply traverse_raise_first; [|intros; by apply normalize_rating_degenerate].
  apply min_Ok_nonempty in Hmin. unfold collaborative_based.
  intros Hnil. apply fmap_nil_inv in Hnil.
  pose proof (Permutation_length (Hperm (zip (zip (track rows) (name rows))
                                            (map fl_rating rows)))) as Hlen.
  rewrite Hnil in Hlen. simpl in Hlen.
  unfold track, name in Hlen.
  rewrite !length_zip_with, !length_map in Hlen.
  destruct rows; [done|]. simpl in Hlen. lia.
Qed.

Lemma degenerate_ratings_raise_ZeroDivisionError_witness :
  (∀ l : list (option nat * option nat * Q), reverse l ≡ₚ l)
  ∧ min_popularity all_fours = Py.Ok 4%Q
  ∧ max_popularity all_fours = Py.Ok 4%Q
  ∧ (4 == 4)%Q
  ∧ y reverse all_fours = Py.Raise Py.ZeroDivisionError.
Proof.
  assert (∀ l : list (option nat * option nat * Q), reverse l ≡ₚ l) as Hp
    by (intros l; apply reverse_Permutation).
  assert (min_popularity all_fours = Py.Ok 4%Q) as Hmin by reflexivity.
  assert (max_popularity all_fours = Py.Ok 4%Q) as Hmax by reflexivity.
  assert (4 == 4)%Q as Heq by reflexivity.
  split; [exact Hp|]. split; [exact Hmin|]. split; [exact Hmax|].
  split; [exact Heq|].
  exact (degenerate_ratings_raise_ZeroDivisionError reverse all_fours 4 4
           Hp Hmin Hmax Heq).
Defined.

(** C6, as stated, fails: with every rating equal to 4 the failure of the
    normalisation is the division by zero itself, not [DegenerateInput]. *)
Lemma single_rating_value_divides_by_zero :
  y (λ l, l) all_fours = Py.Raise Py.ZeroDivisionError
  ∧ y (λ l, l) all_fours ≠ Py.Raise Py.DegenerateInput.
Proof. split; [reflexivity|]. vm_compute. congruence. Qed.

(** ** The forward pass of the embedding model *)

Section forward.
Context {T : Type}.
Variables (zero : T) (add mul : T → T → T) (sigmoid rescale : T → T).

Lemma Dropout_inference (keep : bool) (x : T) :
  Dropout zero rescale false keep x = x.
Proof. done. Qed.

Lemma call_row_inference (net : RecommenderNet) (keep keep' : bool)
    (input : nat * nat) :
  call_row zero add mul sigmoid rescale net false keep input
  = call_row zero add mul sigmoid rescale net false keep' input.
Proof. done. Qed.

Lemma traverse_ext {A B} (f g : A → Py.outcome B) (l : list A) :
  (∀ x, f x = g x) → Py.traverse f l = Py.traverse g l.
Proof. intros H. induction l as [|x l IH]; simpl; [done|]. by rewrite H, IH. Qed.

Lemma call_inference_mask (net : RecommenderNet) (mask mask' : nat → bool)
    (inputs : list (nat * nat)) :
  call zero add mul sigmoid rescale net false mask inputs
  = call zero add mul sigmoid rescale net false mask' inputs.
Proof. unfold call. apply traverse_ext. intros. apply call_row_inference. Qed.

Lemma reduce_sum_snoc (v : list T) (x : T) :
  reduce_sum zero add (v ++ [x]) = add (reduce_sum zero add v) x.
Proof. unfold reduce_sum. by rewrite foldl_app. Qed.

Lemma spec_dot_take (n : nat) (u v : list T) :
  n ≤ length u → n ≤ length v →
  reduce_sum zero add (take n (zip_with mul u v)) = spec_dot zero add mul n u v.
Proof.
  induction n as [|n IH]; intros Hu Hv; [done|].
  destruct (lookup_lt_is_Some_2 u n) as [a Ha]; [lia|].
  destruct (lookup_lt_is_Some_2 v n) as [b Hb]; [lia|].
  rewrite (take_S_r _ _ (mul a b)).
  - rewrite reduce_sum_snoc, IH by lia. simpl.
    by rewrite (nth_lookup_Some _ _ _ _ Ha), (nth_lookup_Some _ _ _ _ Hb).
  - rewrite lookup_zip_with, Ha. simpl. by rewrite Hb.
Qed.

(** The sum that the layer computes is the dot product of the
    specification. *)
Lemma dot_track_name_spec (n : nat) (u v : list T) :
  length u = n → length v = n →
  dot_track_name zero add mul u v = spec_dot zero add mul n u v.
Proof.
  intros Hu Hv. rewrite <- (spec_dot_take n u v) by lia.
  unfold dot_track_name. by rewrite take_ge by (rewrite length_zip_with; lia).
Qed.

Lemma call_row_spec (net : RecommenderNet) (num_track num_name size : nat)
    (training keep : bool) (t n : nat) :
  built num_track num_name size net → t < num_track → n < num_name →
  call_row zero add mul sigmoid rescale net training keep (t, n)
  = Py.Ok (sigmoid (Dropout zero rescale training keep
                      (spec_sum zero add mul (track_embedding net)
                         (name_embedding net) (track_bias net) (name_bias net)
                         size t n))).
Proof.
  intros (Ht & Hbt & Hn & Hbn & Ft & Fn) Hlt Hln.
  destruct (lookup_lt_is_Some_2 (track_embedding net) t) as [et Het]; [lia|].
  destruct (lookup_lt_is_Some_2 (name_embedding net) n) as [en Hen]; [lia|].
  destruct (lookup_lt_is_Some_2 (track_bias net) t) as [bt Hb1]; [lia|].
  destruct (lookup_lt_is_Some_2 (name_bias net) n) as [bn Hb2]; [lia|].
  unfold call_row, Embedding, spec_sum. simpl.
  rewrite Het, Hen, Hb1, Hb2. unfold_outcome.
  rewrite (nth_lookup_Some _ _ _ _ Het), (nth_lookup_Some _ _ _ _ Hen),
    (nth_lookup_Some _ _ _ _ Hb1), (nth_lookup_Some _ _ _ _ Hb2).
  rewrite (dot_track_name_spec size); [done| |].
  - by apply (Forall_lookup_1 _ _ _ _ Ft Het).
  - by apply (Forall_lookup_1 _ _ _ _ Fn Hen).
Qed.

Lemma traverse_map_Ok {A B} (f : A → Py.outcome B) (g : A → B) (l : list A) :
  (∀ a, a ∈ l → f a = Py.Ok (g a)) → Py.traverse f l = Py.Ok (map g l).
Proof.
  induction l as [|a l IH]; intros H; [done|]. simpl.
  rewrite (H a) by by left. simpl. rewrite IH; [done|].
  intros b Hb. apply H. by right.
Qed.

(** The forward pass on a batch of valid pairs, in and outside training. *)
Lemma call_spec (net : RecommenderNet) (num_track num_name size : nat)
    (training : bool) (mask : nat → bool) (inputs : list (nat * nat)) :
  built num_track num_name size net →
  Forall (λ p, p.1 < num_track ∧ p.2 < num_name) inputs →
  call zero add mul sigmoid rescale net training mask inputs
  = Py.Ok (imap (λ i p, sigmoid (Dropout zero rescale training (mask i)
                                   (spec_sum zero add mul (track_embedding net)
                                      (name_embedding net) (track_bias net)
                                      (name_bias net) size p.1 p.2)))
             inputs).
Proof.
  intros Hb Hall. unfold call, Py.enumerate.
  rewrite (traverse_map_Ok _
             (λ ip : nat * (nat * nat),
                sigmoid (Dropout zero rescale training (mask ip.1)
                           (spec_sum zero add mul (track_embedding net)
                              (name_embedding net) (track_bias net)
                              (name_bias net) size ip.2.1 ip.2.2)))).
  - f_equal. apply list_eq. intros i.
    rewrite list_lookup_fmap, !list_lookup_imap. by destruct (inputs !! i).
  - intros [i [t n]] Hin.
    apply elem_of_lookup_imap in Hin as (j & p & [= -> <-] & Hp).
    rewrite Forall_forall in Hall.
    destruct (Hall (t, n)) as [H1 H2]; [by eapply list_elem_of_lookup_2|].
    simpl in *. by apply (call_row_spec net num_track num_name size).
Qed.

(** C5: outside training, the score of a pair of valid ids is the sigmoid
    of the dot product of the two embedding rows (the sum of the products of
    their coordinates) plus the two biases; a batch of valid pairs gets the
    scores of the specification, pair by pair, and the dropout mask has no
    influence on the scores of any batch. *)
Theorem inference_score_is_sigmoid_of_dot_plus_biases
    (net : RecommenderNet) (num_track num_name embedding_size : nat)
    (track_id name_id : nat) :
  built num_track num_name embedding_size net →
  track_id < num_track →
  name_id < num_name →
  (∃ e_track e_name b_track b_name,
      track_embedding net !! track_id = Some e_track
      ∧ name_embedding net !! name_id = Some e_name
      ∧ track_bias net !! track_id = Some b_track
      ∧ name_bias net !! name_id = Some b_name
      ∧ length e_track = embedding_size ∧ length e_name = embedding_size
      ∧ predict zero add mul sigmoid rescale net [(track_id, name_id)]
        = Py.Ok [sigmoid (add (add (spec_dot zero add mul embedding_size
                                      e_track e_name) b_track) b_name)])
  ∧ (∀ mask inputs,
        Forall (λ p, p.1 < num_track ∧ p.2 < num_name) inputs →
        call zero add mul sigmoid rescale net false mask inputs
        = Py.Ok (map (λ p, spec_score zero add mul sigmoid
                             (track_embedding net) (name_embedding net)
                             (track_bias net) (name_bias net)
                             embedding_size p.1 p.2) inputs))
  ∧ (∀ mask inputs,
        call zero add mul sigmoid rescale net false mask inputs
        = predict zero add mul sigmoid rescale net inputs).
Proof.
  intros Hb Htrack Hname. split; [|split].
  - destruct Hb as (Ht & Hbt & Hn & Hbn & Ft & Fn).
    destruct (lookup_lt_is_Some_2 (track_embedding net) track_id) as [et Het];
      [lia|].
    destruct (lookup_lt_is_Some_2 (name_embedding net) name_id) as [en Hen];
      [lia|].
    destruct (lookup_lt_is_Some_2 (track_bias net) track_id) as [bt Hb1];
      [lia|].
    destruct (lookup_lt_is_Some_2 (name_bias net) name_id) as [bn Hb2];
      [lia|].
    pose proof (Forall_lookup_1 _ _ _ _ Ft Het) as Hlt. simpl in Hlt.
    pose proof (Forall_lookup_1 _ _ _ _ Fn Hen) as Hln. simpl in Hln.
    exists et, en, bt, bn. repeat split; try done.
    unfold predict, call, call_row, Embedding. simpl.
    rewrite Het, Hen, Hb1, Hb2. unfold_outcome. simpl.
    by rewrite (dot_track_name_spec embedding_size).
  - intros mask inputs Hall.
    rewrite (call_spec net num_track num_name embedding_size) by done.
    f_equal. apply list_eq. intros i.
    rewrite list_lookup_imap, list_lookup_fmap. by destruct (inputs !! i).
  - intros mask inputs. apply call_inference_mask.
Qed.
End forward.

Example scenario_items_from_tables :
  content_based_data (dataset_content scenario_ratings scenario_movies)
  = scenario_items.
Proof. reflexivity. Qed.

Lemma inference_score_is_sigmoid_of_dot_plus_biases_witness :
  built 2 2 2 tiny_net ∧ 1 < 2 ∧ 0 < 2
  ∧ (∃ e_track e_name b_track b_name,
        track_embedding tiny_net !! 1 = Some e_track
        ∧ name_embedding tiny_net !! 0 = Some e_name
        ∧ track_bias tiny_net !! 1 = Some b_track
        ∧ name_bias tiny_net !! 0 = Some b_name
        ∧ length e_track = 2 ∧ length e_name = 2
        ∧ predict 0%R Rplus Rmult logistic keep_scale tiny_net [(1, 0)]
          = Py.Ok [logistic (spec_dot 0%R Rplus Rmult 2 e_track e_name
                             + b_track + b_name)%R])
  ∧ (∀ mask inputs,
        Forall (λ p : nat * nat, p.1 < 2 ∧ p.2 < 2) inputs →
        call 0%R Rplus Rmult logistic keep_scale tiny_net false mask inputs
        = Py.Ok (map (λ p, spec_score 0%R Rplus Rmult logistic
                             (track_embedding tiny_net)
                             (name_embedding tiny_net) (track_bias tiny_net)
                             (name_bias tiny_net) 2 p.1 p.2) inputs))
  ∧ (∀ mask inputs,
        call 0%R Rplus Rmult logistic keep_scale tiny_net false mask inputs
        = predict 0%R Rplus Rmult logistic keep_scale tiny_net inputs).
Proof.
  assert (built 2 2 2 tiny_net) as Hb.
  { repeat split; simpl; repeat constructor. }
  assert (1 < 2) as H1 by lia.
  assert (0 < 2) as H0 by lia.
  split; [exact Hb|]. split; [exact H1|]. split; [exact H0|].
  exact (inference_score_is_sigmoid_of_dot_plus_biases
           0%R Rplus Rmult logistic keep_scale tiny_net 2 2 2 1 0 Hb H1 H0).
Defined.

(** In training the mask does change the score: a dropped unit scores
    [sigmoid 0], whatever the weights. *)
Example training_score_depends_on_mask :
  call 0%R Rplus Rmult logistic keep_scale tiny_net true (λ _, false) [(1, 0)]
  = Py.Ok [logistic 0%R].
Proof. reflexivity. Qed.

(** ** Queries for a title or a label that the catalog does not have *)

Lemma filter_none {A} (P : A → Prop) `{∀ x, Decision (P x)} (l : list A) :
  (∀ x, x ∈ l → ¬ P x) → filter P l = [].
Proof.
  induction l as [|a l IH]; intros Hl; [done|].
  rewrite filter_cons_False by (apply Hl; by left).
  apply IH. intros x Hx. apply Hl. by right.
Qed.

Lemma keys_encoding (xs : list string) :
  NoDup xs → Py.keys (encoding xs) = xs.
Proof.
  intros Hnd. rewrite encoding_NoDup by done. unfold Py.keys.
  apply list_eq. intros i. rewrite list_lookup_fmap, list_lookup_imap.
  by destruct (xs !! i).
Qed.

Section not_found.
Context {V T : Type}.
Variables (zero : T) (add mul : T → T → T) (sigmoid rescale : T → T).
Variables (argsort : list T → list nat) (show_rating : Q → string).
Variable sorter : list (string * V) → list (string * V).

(** C7, as amended: a title without a case-insensitive match makes the
    content query return, as its ordinary result, the string
    [Judul '<title>' tidak ditemukan dalam dataset.]; a label that is not
    in the label index makes the label query print
    [Film dengan label '<label>' tidak ditemukan.] and return [None].
    Neither raises. *)
Theorem absent_title_or_label_yields_a_message
    (title : string) (similarity_data : frame V) (items : list item) (k : Z)
    (net : RecommenderNet) (rows : list filter_row) (movie_label : string)
    (top_n : Z) :
  (∀ it, it ∈ items → Py.lower (it_title it) ≠ Py.lower title) →
  movie_label ∉ map fl_movie_label rows →
  content_based_movie_recommendations sorter title similarity_data items k
  = Py.Ok (Message ("Judul '" +:+ title +:+ "' tidak ditemukan dalam dataset."))
  ∧ recommend_movies_based_on_title zero add mul sigmoid rescale argsort
      show_rating net rows movie_label top_n
    = Py.Ok (["Film dengan label '" +:+ movie_label +:+ "' tidak ditemukan."],
             tt).
Proof.
  intros Htitle Hlabel. split.
  - unfold content_based_movie_recommendations.
    by rewrite (filter_none _ items Htitle).
  - unfold recommend_movies_based_on_title.
    assert (Py.get (movie_to_encoded rows) movie_label = None) as ->; [|done].
    apply get_None. unfold movie_to_encoded, movie_labels.
    rewrite keys_encoding by apply unique_NoDup. by rewrite unique_elem.
Qed.
End not_found.

Lemma absent_title_or_label_yields_a_message_witness :
  (∀ it, it ∈ scenario_items →
         Py.lower (it_title it) ≠ Py.lower "Jumanji (1995)")
  ∧ ("Jumanji (1995) (Adventure Children Fantasy)"
       ∉ map fl_movie_label scenario_rows)
  ∧ content_based_movie_recommendations stable_desc "Jumanji (1995)"
      scenario_frame scenario_items 10
    = Py.Ok (Message "Judul 'Jumanji (1995)' tidak ditemukan dalam dataset.")
  ∧ recommend_movies_based_on_title 0%R Rplus Rmult logistic keep_scale
      (λ _, []) (λ _, "") tiny_net scenario_rows
      "Jumanji (1995) (Adventure Children Fantasy)" 10
    = Py.Ok (["Film dengan label 'Jumanji (1995) (Adventure Children Fantasy)' tidak ditemukan."],
             tt).
Proof.
  assert (∀ it, it ∈ scenario_items →
                Py.lower (it_title it) ≠ Py.lower "Jumanji (1995)") as Ht.
  { intros it Hit. unfold scenario_items in Hit.
    repeat (apply elem_of_cons in Hit as [->|Hit]); try (vm_compute; congruence).
    by apply not_elem_of_nil in Hit. }
  assert ("Jumanji (1995) (Adventure Children Fantasy)"
            ∉ map fl_movie_label scenario_rows) as Hl.
  { by apply (bool_decide_unpack _). }
  split; [exact Ht|]. split; [exact Hl|].
  exact (absent_title_or_label_yields_a_message 0%R Rplus Rmult logistic keep_scale
           (λ _, []) (λ _, "") stable_desc "Jumanji (1995)" scenario_frame
           scenario_items 10 tiny_net scenario_rows
           "Jumanji (1995) (Adventure Children Fantasy)" 10 Ht Hl).
Defined.

(** C7, as stated, fails: the content query answers an absent title with a
    message string as its return value, where a typed failure would be a
    raised [NotFound]; the label query prints its message and returns. *)
Lemma absent_title_returns_a_string :
  content_based_movie_recommendations stable_desc "Jumanji (1995)"
    scenario_frame scenario_items 10
  = Py.Ok (Message "Judul 'Jumanji (1995)' tidak ditemukan dalam dataset.")
  ∧ content_based_movie_recommendations stable_desc "Jumanji (1995)"
      scenario_frame scenario_items 10
    ≠ Py.Raise Py.NotFound
  ∧ recommend_movies_based_on_title 0%R Rplus Rmult logistic keep_scale
      (λ _, []) (λ _, "") tiny_net scenario_rows "Jumanji (1995) (Adventure)" 10
    = Py.Ok (["Film dengan label 'Jumanji (1995) (Adventure)' tidak ditemukan."],
             tt).
Proof. split; [reflexivity|]. split; [discriminate|reflexivity]. Qed.

(** ** Slices *)

Lemma slice_length {A} (lo hi : Z) (l : list A) :
  length (Py.slice lo hi l)
  = Py.bound (length l) hi - Py.bound (length l) lo.
Proof.
  unfold Py.slice. rewrite length_take, length_drop.
  unfold Py.bound. destruct (hi <? 0)%Z; destruct (lo <? 0)%Z; lia.
Qed.

Lemma slice_length_same {A B} (lo hi : Z) (l : list A) (l' : list B) :
  length l = length l' → length (Py.slice lo hi l) = length (Py.slice lo hi l').
Proof. intros H. by rewrite !slice_length, H. Qed.

Lemma slice_top {A} (k : Z) (l : list A) :
  (0 ≤ k)%Z → Py.slice 1 (k + 1) l = take (Z.to_nat k) (drop 1 l).
Proof.
  intros Hk. unfold Py.slice, Py.bound.
  destruct (Z.ltb_spec 1 0) as [?|_]; [lia|].
  destruct (Z.ltb_spec (k + 1) 0) as [?|_]; [lia|].
  destruct l as [|x l]; [by rewrite !drop_nil, !take_nil|].
  replace (Z.to_nat (Z.min (Z.max 1 0) (Z.of_nat (length (x :: l))))) with 1
    by (simpl length; lia).
  simpl drop. rewrite !drop_0.
  destruct (decide (Z.to_nat k ≤ length l)) as [Hle|Hgt].
  - f_equal. simpl length. lia.
  - rewrite (take_ge l (Z.to_nat k)) by lia.
    rewrite take_ge; [done|simpl length; lia].
Qed.

Lemma slice_sublist {A} (lo hi : Z) (l : list A) : Py.slice lo hi l `sublist_of` l.
Proof.
  unfold Py.slice. etrans; [apply sublist_take|apply sublist_drop].
Qed.

(** A slice that starts at 1 is a prefix of the tail. *)
Lemma slice_tail {A} (hi : Z) (x : A) (l : list A) :
  Py.slice 1 hi (x :: l) = take (Py.bound (S (length l)) hi - 1) l.
Proof.
  unfold Py.slice. simpl length.
  replace (Py.bound (S (length l)) 1) with 1
    by (unfold Py.bound; change (1 <? 0)%Z with false; cbv iota; lia).
  simpl drop. by rewrite drop_0.
Qed.

(** ** The title query *)

Lemma filter_key_unique {V} (cs : list (string * list V)) (l : string)
    (v : list V) :
  NoDup (map fst cs) → (l, v) ∈ cs → filter (λ c, c.1 = l) cs = [(l, v)].
Proof.
  induction cs as [|[l' v'] cs IH]; intros Hnd Hin; [by inversion Hin|].
  simpl in Hnd. apply NoDup_cons in Hnd as [Hl' Hnd].
  apply elem_of_cons in Hin as [[= <- <-]|Hin].
  - rewrite filter_cons_True by done. f_equal.
    apply filter_none. intros [l2 v2] H2 Heq. simpl in Heq. subst l2.
    apply Hl'. apply list_elem_of_fmap. by exists (l, v2).
  - rewrite filter_cons_False.
    + by apply IH.
    + simpl. intros ->. apply Hl'. apply list_elem_of_fmap. by exists (l, v).
Qed.

Lemma NoDup_fst_functional {V} (s : list (string * V)) (a : string) (v w : V) :
  NoDup (map fst s) → (a, v) ∈ s → (a, w) ∈ s → v = w.
Proof.
  induction s as [|[b u] s IH]; intros Hnd H1 H2; [by inversion H1|].
  simpl in Hnd. apply NoDup_cons in Hnd as [Hb Hnd].
  apply elem_of_cons in H1 as [H1|H1]; apply elem_of_cons in H2 as [H2|H2].
  - congruence.
  - exfalso. apply Hb. apply list_elem_of_fmap. exists (a, w).
    split; [|done]. simpl. congruence.
  - exfalso. apply Hb. apply list_elem_of_fmap. exists (a, v).
    split; [|done]. simpl. congruence.
  - by apply IH.
Qed.

Lemma length_filter_labels {A} (f : A → string) (items : list A)
    (top : list string) :
  NoDup (map f items) → NoDup top → (∀ x, x ∈ top → x ∈ map f items) →
  length (filter (λ it, f it ∈ top) items) = length top.
Proof.
  intros Hnd Htop Hsub.
  rewrite <- (length_map f). apply Permutation_length.
  apply NoDup_Permutation; [|done|].
  - apply (sublist_NoDup _ (map f items)); [exact Hnd|].
    apply (fmap_sublist f), sublist_filter.
  - intros x. rewrite list_elem_of_fmap. split.
    + intros (it & -> & Hit). by apply list_elem_of_filter in Hit as [? _].
    + intros Hx. pose proof (Hsub x Hx) as Hm.
      apply list_elem_of_fmap in Hm as (it & -> & Hit).
      exists it. split; [done|]. by apply list_elem_of_filter.
Qed.

Section title_query.
Context {V : Type} (le : V → V → Prop).
Variable sorter : list (string * V) → list (string * V).

(** The query, unfolded on a frame of the catalog's shape. *)
Lemma query_unfold (title : string) (sd : frame V) (items : list item)
    (k : Z) (q : item) :
  square_over sd items →
  NoDup (map it_movie_label items) →
  head (filter (λ it, Py.lower (it_title it) = Py.lower title) items)
  = Some q →
  ∃ vals,
    length vals = length items
    ∧ getitem sd (it_movie_label q)
      = Py.Ok (Series (zip (map it_movie_label items) vals))
    ∧ content_based_movie_recommendations sorter title sd items k
      = Py.Ok (Recommendations
                 (filter (λ it, it_movie_label it
                                ∈ map fst (Py.slice 1 (k + 1)
                                   (sorter (zip (map it_movie_label items)
                                                vals))))
                    items)).
Proof.
  intros (Hidx & Hcols & Hlen) Hnd Hq.
  assert (q ∈ items) as Hqin.
  { apply head_Some_elem_of in Hq. by apply list_elem_of_filter in Hq as [_ ?]. }
  assert (it_movie_label q ∈ map fst (fr_columns sd)) as Hc.
  { rewrite Hcols. by apply list_elem_of_fmap_2. }
  apply list_elem_of_fmap in Hc as ([l vals] & Hl & Hc). simpl in Hl. subst l.
  exists vals.
  assert (getitem sd (it_movie_label q)
          = Py.Ok (Series (zip (map it_movie_label items) vals))) as Hget.
  { unfold getitem.
    rewrite (filter_key_unique _ _ vals); [|by rewrite Hcols|done].
    by rewrite Hidx. }
  split; [|split; [done|]].
  - rewrite Forall_forall in Hlen. apply (Hlen _ Hc).
  - unfold content_based_movie_recommendations.
    destruct (filter _ items) as [|first rest] eqn:Hf; [done|].
    simpl in Hq. injection Hq as ->. by rewrite Hget.
Qed.

(** C1, as amended: for a matched title, the rows returned are the catalog
    rows whose label stands in the slice [1:k+1] of the matched movie's
    similarity column sorted in descending order, which is ranks 1 to [k]
    when [k ≥ 0]; so every row returned is at least as similar as every row
    left out (the row ranked first apart).  They come in catalog order, not
    in ranked order. *)
Theorem recommendations_are_top_ranked_in_catalog_order
    (title : string) (sd : frame V) (items : list item) (k : Z) (q : item) :
  sorts_descending le sorter →
  square_over sd items →
  NoDup (map it_movie_label items) →
  head (filter (λ it, Py.lower (it_title it) = Py.lower title) items)
  = Some q →
  ∃ col rows,
    getitem sd (it_movie_label q) = Py.Ok (Series col)
    ∧ map fst col = map it_movie_label items
    ∧ content_based_movie_recommendations sorter title sd items k
      = Py.Ok (Recommendations rows)
    ∧ rows = filter (λ it, it_movie_label it
                           ∈ map fst (Py.slice 1 (k + 1) (sorter col)))
               items
    ∧ ((0 ≤ k)%Z →
       Py.slice 1 (k + 1) (sorter col)
       = take (Z.to_nat k) (drop 1 (sorter col)))
    ∧ rows `sublist_of` items
    ∧ (∀ it it' v v',
          it ∈ rows → it' ∈ items → it' ∉ rows →
          (it_movie_label it, v) ∈ col → (it_movie_label it', v') ∈ col →
          head (sorter col) ≠ Some (it_movie_label it', v') →
          le v' v).
Proof.
  intros Hsort Hsq Hnd Hq.
  destruct (query_unfold title sd items k q Hsq Hnd Hq)
    as (vals & Hlen & Hget & Hres).
  set (col := zip (map it_movie_label items) vals) in *.
  assert (map fst col = map it_movie_label items) as Hfst.
  { apply fst_zip. rewrite length_map. lia. }
  exists col, (filter (λ it, it_movie_label it
                   ∈ map fst (Py.slice 1 (k + 1) (sorter col))) items).
  split; [done|]. split; [done|]. split; [done|]. split; [done|].
  split; [apply slice_top|]. split; [apply sublist_filter|].
  intros it it' v v' Hit Hit' Hnot Hv Hv' Hhead.
  destruct (Hsort col) as [Hperm Hsorted].
  assert (NoDup (map fst (sorter col))) as Hnd'.
  { rewrite Hperm, Hfst. done. }
  apply list_elem_of_filter in Hit as [Htop _].
  apply list_elem_of_fmap in Htop as ([l w] & Hl & Hw). simpl in Hl. subst l.
  assert ((it_movie_label it, w) ∈ sorter col) as Hw'.
  { eapply elem_of_sublist; [exact Hw|apply slice_sublist]. }
  assert (w = v) as ->.
  { rewrite <- Hperm in Hv. by apply (NoDup_fst_functional _ _ _ _ Hnd' Hw' Hv). }
  assert ((it_movie_label it', v') ∈ sorter col) as Hv'' by by rewrite Hperm.
  destruct (sorter col) as [|r0 rest] eqn:Hs; [by inversion Hv''|].
  simpl in Hhead. rewrite slice_tail in Hw, Hnot.
  set (m := Py.bound (S (length rest)) (k + 1) - 1) in *.
  apply elem_of_cons in Hv'' as [Heq|Hrest]; [congruence|].
  rewrite <- (take_drop m rest) in Hrest, Hsorted.
  apply elem_of_app in Hrest as [Hin|Hlater].
  - exfalso. apply Hnot. apply list_elem_of_filter. split; [|done].
    apply list_elem_of_fmap. by exists (it_movie_label it', v').
  - apply StronglySorted_cons in Hsorted as [_ Hsorted].
    apply (StronglySorted_app_1_elem_of _ _ _ _ _ Hsorted Hw Hlater).
Qed.
End title_query.

(** ** Insertion sort *)

Section sort_by.
Context {A : Type} (before : A → A → bool).

Lemma insert_by_Permutation (x : A) (l : list A) :
  insert_by before x l ≡ₚ x :: l.
Proof.
  induction l as [|y l IH]; simpl; [done|].
  destruct (before x y); [done|]. rewrite IH. apply Permutation_swap.
Qed.

Lemma sort_by_Permutation (l : list A) : sort_by before l ≡ₚ l.
Proof.
  induction l as [|x l IH]; simpl; [done|].
  unfold sort_by in *. simpl. by rewrite insert_by_Permutation, IH.
Qed.

Lemma insert_by_sorted (x : A) (l : list A) :
  (∀ a b, before a b = false → before b a = true) →
  (∀ a b c, before a b = true → before b c = true → before a c = true) →
  StronglySorted (λ a b, before a b = true) l →
  StronglySorted (λ a b, before a b = true) (insert_by before x l).
Proof.
  intros Htotal Htrans. induction l as [|y l IH]; intros Hs; simpl.
  - repeat constructor.
  - apply StronglySorted_cons in Hs as [Hy Hs].
    destruct (before x y) eqn:Hxy.
    + apply StronglySorted_cons. split; [|by apply StronglySorted_cons].
      constructor; [done|].
      eapply Forall_impl; [exact Hy|]. intros z Hz. by eapply Htrans.
    + apply StronglySorted_cons. split; [|by apply IH].
      rewrite (insert_by_Permutation x l). constructor; [|done].
      by apply Htotal.
Qed.

Lemma sort_by_sorted (l : list A) :
  (∀ a b, before a b = false → before b a = true) →
  (∀ a b c, before a b = true → before b c = true → before a c = true) →
  StronglySorted (λ a b, before a b = true) (sort_by before l).
Proof.
  intros Htotal Htrans. induction l as [|x l IH]; [constructor|].
  unfold sort_by in *. simpl. by apply insert_by_sorted.
Qed.
End sort_by.

Lemma StronglySorted_weaken {A} (R R' : A → A → Prop) (l : list A) :
  (∀ a b, R a b → R' a b) → StronglySorted R l → StronglySorted R' l.
Proof.
  intros HR. induction 1 as [|x l Hs IH Hall]; constructor; [done|].
  eapply Forall_impl; [exact Hall|]. intros y. apply HR.
Qed.

Lemma stable_desc_sorts_descending : sorts_descending Qle stable_desc.
Proof.
  intros s. split; [apply sort_by_Permutation|].
  eapply StronglySorted_weaken; [|apply sort_by_sorted].
  - intros a b H. simpl in H. by apply Qle_bool_iff in H.
  - intros a b H. simpl in *. apply Qle_bool_iff.
    destruct (Qlt_le_dec a.2 b.2) as [Hlt|Hle]; [by apply Qlt_le_weak|].
    apply Qle_bool_iff in Hle. congruence.
  - intros a b c H1 H2. simpl in *. apply Qle_bool_iff.
    apply Qle_bool_iff in H1, H2. by apply (Qle_trans _ b.2).
Qed.

Lemma square_over_three : square_over three_frame three_items.
Proof. repeat split. repeat constructor. Qed.

Lemma NoDup_three : NoDup (map it_movie_label three_items).
Proof. by apply (bool_decide_unpack _). Qed.

Lemma recommendations_are_top_ranked_in_catalog_order_witness :
  sorts_descending Qle stable_desc
  ∧ square_over three_frame three_items
  ∧ NoDup (map it_movie_label three_items)
  ∧ head (filter (λ it, Py.lower (it_title it) = Py.lower "toy story (1995)")
            three_items) = Some toy_story_item
  ∧ ∃ col rows,
      getitem three_frame (it_movie_label toy_story_item) = Py.Ok (Series col)
      ∧ map fst col = map it_movie_label three_items
      ∧ content_based_movie_recommendations stable_desc "toy story (1995)"
          three_frame three_items 1
        = Py.Ok (Recommendations rows)
      ∧ rows = filter (λ it, it_movie_label it
                             ∈ map fst (Py.slice 1 (1 + 1) (stable_desc col)))
                 three_items
      ∧ ((0 ≤ 1)%Z →
         Py.slice 1 (1 + 1) (stable_desc col)
         = take (Z.to_nat 1) (drop 1 (stable_desc col)))
      ∧ rows `sublist_of` three_items
      ∧ (∀ it it' v v',
            it ∈ rows → it' ∈ three_items → it' ∉ rows →
            (it_movie_label it, v) ∈ col → (it_movie_label it', v') ∈ col →
            head (stable_desc col) ≠ Some (it_movie_label it', v') →
            Qle v' v).
Proof.
  assert (head (filter (λ it, Py.lower (it_title it) = Py.lower "toy story (1995)")
            three_items) = Some toy_story_item) as Hq by reflexivity.
  split; [exact stable_desc_sorts_descending|].
  split; [exact square_over_three|]. split; [exact NoDup_three|].
  split; [exact Hq|].
  exact (recommendations_are_top_ranked_in_catalog_order Qle stable_desc
           "toy story (1995)" three_frame three_items 1 toy_story_item
           stable_desc_sorts_descending square_over_three NoDup_three Hq).
Defined.

(** C1, as stated, fails: Balto is more similar to Toy Story than Heat is,
    so the ranked order is Balto, Heat; the query returns Heat, Balto, the
    order of the catalog. *)
Lemma recommendations_not_in_ranked_order :
  getitem three_frame (it_movie_label toy_story_item)
  = Py.Ok (Series [(it_movie_label toy_story_item, 1%Q);
                   (it_movie_label heat_item, 0%Q);
                   (it_movie_label balto_item, (9 # 10)%Q)])
  ∧ (0 < 9 # 10)%Q
  ∧ content_based_movie_recommendations stable_desc "Toy Story (1995)"
      three_frame three_items 2
    = Py.Ok (Recommendations [heat_item; balto_item]).
Proof. split; [reflexivity|]. split; reflexivity. Qed.

Lemma slice_from_one {A} (hi : Z) (x : A) (l : list A) :
  Py.slice 1 hi (x :: l) `sublist_of` l.
Proof. rewrite slice_tail. apply sublist_take. Qed.

Section count.
Context {V : Type} (le : V → V → Prop).
Variable sorter : list (string * V) → list (string * V).

(** C2, as amended: on a catalog with pairwise distinct labels the query
    returns as many rows as the slice [1:k+1] of the catalog has, which is
    [k] when [0 ≤ k ≤ n - 1] and [n - 1] when [k ≥ n - 1]; the row ranked
    first by the sort is never among them, and it is the query movie
    whenever no other movie is as similar to it as it is to itself. *)
Theorem recommendation_count
    (title : string) (sd : frame V) (items : list item) (k : Z) (q : item) :
  sorts_descending le sorter →
  square_over sd items →
  NoDup (map it_movie_label items) →
  head (filter (λ it, Py.lower (it_title it) = Py.lower title) items)
  = Some q →
  ∃ col rows,
    getitem sd (it_movie_label q) = Py.Ok (Series col)
    ∧ content_based_movie_recommendations sorter title sd items k
      = Py.Ok (Recommendations rows)
    ∧ length rows = length (Py.slice 1 (k + 1) items)
    ∧ ((0 ≤ k ≤ Z.of_nat (length items) - 1)%Z → length rows = Z.to_nat k)
    ∧ ((Z.of_nat (length items) - 1 ≤ k)%Z
       → length rows = length items - 1)
    ∧ (∀ r0, head (sorter col) = Some r0 → r0.1 ∉ map it_movie_label rows)
    ∧ ((∀ l v vq, (l, v) ∈ col → (it_movie_label q, vq) ∈ col →
                  l ≠ it_movie_label q → ¬ le vq v)
       → q ∉ rows).
Proof.
  intros Hsort Hsq Hnd Hq.
  destruct (query_unfold sorter title sd items k q Hsq Hnd Hq)
    as (vals & Hlen & Hget & Hres).
  set (col := zip (map it_movie_label items) vals) in *.
  set (rows := filter _ items) in Hres.
  assert (map fst col = map it_movie_label items) as Hfst.
  { apply fst_zip. rewrite length_map. lia. }
  destruct (Hsort col) as [Hperm Hsorted].
  assert (NoDup (map fst (sorter col))) as Hnd' by by rewrite Hperm, Hfst.
  assert (length rows = length (Py.slice 1 (k + 1) items)) as Hcount.
  { unfold rows. rewrite length_filter_labels; [|done| |].
    - rewrite length_map. apply slice_length_same.
      rewrite (Permutation_length Hperm). unfold col.
      rewrite length_zip_with, length_map. lia.
    - apply (sublist_NoDup _ (map fst (sorter col))); [done|].
      apply (fmap_sublist fst), slice_sublist.
    - intros x Hx. rewrite <- Hfst, <- Hperm.
      eapply elem_of_sublist; [exact Hx|].
      apply (fmap_sublist fst), slice_sublist. }
  assert (∀ r0, head (sorter col) = Some r0 → r0.1 ∉ map it_movie_label rows)
    as Hfirst.
  { intros r0 Hr0 Hin. apply list_elem_of_fmap in Hin as (it & Heq & Hit).
    apply list_elem_of_filter in Hit as [Htop _]. rewrite <- Heq in Htop.
    destruct (sorter col) as [|r rest]; [done|]. injection Hr0 as ->.
    simpl in Hnd'. apply NoDup_cons in Hnd' as [Hr0 _]. apply Hr0.
    eapply elem_of_sublist; [exact Htop|].
    apply (fmap_sublist fst), slice_from_one. }
  exists col, rows. split; [done|]. split; [done|]. split; [done|].
  split; [|split; [|split; [done|]]].
  - intros Hk. rewrite Hcount, slice_length. unfold Py.bound.
    destruct (Z.ltb_spec (k + 1) 0); destruct (Z.ltb_spec 1 0); lia.
  - intros Hk. rewrite Hcount, slice_length. unfold Py.bound.
    destruct (Z.ltb_spec (k + 1) 0); destruct (Z.ltb_spec 1 0); lia.
  - intros Hstrict Hqin.
    assert (q ∈ items) as Hqi by by apply list_elem_of_filter in Hqin as [_ ?].
    assert (it_movie_label q ∈ map fst col) as Hqc.
    { rewrite Hfst. by apply list_elem_of_fmap_2. }
    apply list_elem_of_fmap in Hqc as ([lq vq] & Hlq & Hqc). simpl in Hlq.
    subst lq.
    destruct (sorter col) as [|[l0 v0] rest] eqn:Hs.
    { rewrite <- Hperm in Hqc. by inversion Hqc. }
    destruct (decide (l0 = it_movie_label q)) as [Heq|Hne].
    + apply (Hfirst (l0, v0) eq_refl).
      simpl. rewrite Heq. apply list_elem_of_fmap. by exists q.
    + apply (Hstrict l0 v0 vq); [|done|done|].
      * rewrite <- Hperm. by left.
      * apply StronglySorted_cons in Hsorted as [Hall _].
        rewrite Forall_forall in Hall.
        assert ((it_movie_label q, vq) ∈ (l0, v0) :: rest) as Hin
          by by rewrite Hperm.
        apply elem_of_cons in Hin as [[= ? ?]|Hin]; [congruence|].
        apply (Hall _ Hin).
Qed.
End count.

Lemma recommendation_count_witness :
  sorts_descending Qle stable_desc
  ∧ square_over three_frame three_items
  ∧ NoDup (map it_movie_label three_items)
  ∧ head (filter (λ it, Py.lower (it_title it) = Py.lower "Toy Story (1995)")
            three_items) = Some toy_story_item
  ∧ ∃ col rows,
      getitem three_frame (it_movie_label toy_story_item) = Py.Ok (Series col)
      ∧ content_based_movie_recommendations stable_desc "Toy Story (1995)"
          three_frame three_items 1
        = Py.Ok (Recommendations rows)
      ∧ length rows = length (Py.slice 1 (1 + 1) three_items)
      ∧ ((0 ≤ 1 ≤ Z.of_nat (length three_items) - 1)%Z
         → length rows = Z.to_nat 1)
      ∧ ((Z.of_nat (length three_items) - 1 ≤ 1)%Z
         → length rows = length three_items - 1)
      ∧ (∀ r0, head (stable_desc col) = Some r0
               → r0.1 ∉ map it_movie_label rows)
      ∧ ((∀ l v vq, (l, v) ∈ col → (it_movie_label toy_story_item, vq) ∈ col →
                    l ≠ it_movie_label toy_story_item → ¬ Qle vq v)
         → toy_story_item ∉ rows).
Proof.
  assert (head (filter (λ it, Py.lower (it_title it) = Py.lower "Toy Story (1995)")
            three_items) = Some toy_story_item) as Hq by reflexivity.
  split; [exact stable_desc_sorts_descending|].
  split; [exact square_over_three|]. split; [exact NoDup_three|].
  split; [exact Hq|].
  exact (recommendation_count Qle stable_desc "Toy Story (1995)" three_frame
           three_items 1 toy_story_item stable_desc_sorts_descending
           square_over_three NoDup_three Hq).
Defined.

(** C2, as stated, fails: with three movies and [k = 2], [k] is not below the
    catalog size minus one, yet the query returns exactly [k] rows, not
    fewer. *)
Lemma whole_catalog_query_returns_exactly_k :
  ∃ rows,
    content_based_movie_recommendations stable_desc "Toy Story (1995)"
      three_frame three_items 2
    = Py.Ok (Recommendations rows)
    ∧ length three_items = 3
    ∧ ¬ (2 < length three_items - 1)
    ∧ length rows = 2.
Proof. eexists. split; [reflexivity|]. simpl. repeat split; lia. Qed.

(** When another movie is as similar to the query movie as the query movie
    itself and stands before it in the catalog, a sort that keeps ties in
    input order ranks that movie first, and the query returns the query
    movie. *)
Example query_movie_returned_on_a_tie :
  content_based_movie_recommendations stable_desc "Toy Story 3 (2010)"
    sequels_frame [toy_story_2; toy_story_3] 1
  = Py.Ok (Recommendations [toy_story_3]).
Proof. reflexivity. Qed.

(** When two catalog rows carry the label of the matched movie, the frame
    has two columns of that label, the selection is a frame and not a
    [Series], and sorting it without [by] raises. *)
Example repeated_label_raises_TypeError :
  map it_movie_label emma_items
  = ["Emma (1996) (Comedy|Drama|Romance)"; "Emma (1996) (Comedy|Drama|Romance)"]
  ∧ content_based_movie_recommendations stable_desc "Emma (1996)"
      emma_frame emma_items 10
    = Py.Raise Py.TypeError.
Proof. split; reflexivity. Qed.

(** The frame that the notebook passes by default has the shape the
    results above ask for. *)
Lemma transpose_length {A} (n : nat) (rows : list (list A)) :
  length (transpose n rows) = n.
Proof.
  revert rows. induction n as [|n IH]; intros rows; simpl; [done|].
  by rewrite IH.
Qed.

Lemma transpose_columns {A} (n m : nat) (rows : list (list A)) :
  n ≤ m → Forall (λ r, length r = m) rows →
  Forall (λ c, length c = length rows) (transpose n rows).
Proof.
  revert m rows. induction n as [|n IH]; intros m rows Hn Hrows; simpl;
    [constructor|].
  constructor.
  - clear IH. induction Hrows as [|r rows Hr Hrows IHr]; [done|].
    destruct r as [|x r]; [simpl in Hr; lia|].
    change (S (length (omap head rows)) = S (length rows)). by f_equal.
  - rewrite <- (length_map tail rows). apply (IH (m - 1)); [lia|].
    apply Forall_fmap. eapply Forall_impl; [exact Hrows|].
    intros r Hr. simpl. destruct r; simpl in *; lia.
Qed.

Lemma DataFrame_square {V} (values : list (list V)) (items : list item) :
  length values = length items →
  Forall (λ r, length r = length items) values →
  square_over (DataFrame values (map it_movie_label items)) items.
Proof.
  intros Hlen Hrows. unfold square_over, DataFrame. simpl.
  split; [done|]. split.
  - apply fst_zip. by rewrite transpose_length.
  - apply Forall_forall. intros [l c] Hc. simpl.
    apply list_elem_of_fmap_2 with (f := snd) in Hc. simpl in Hc.
    rewrite snd_zip in Hc by by rewrite transpose_length.
    rewrite length_map in Hc.
    pose proof (transpose_columns (length items) (length items) values
                  (le_n _) Hrows) as Hcols.
    rewrite Forall_forall in Hcols. rewrite (Hcols c Hc). done.
Qed.

(** ** Vectors of real numbers *)

Section vectors.
Import Sklearn.
Local Open Scope R_scope.

Lemma sum_squares_nonneg (v : list R) : 0 <= sum_squares v.
Proof.
  induction v as [|x v IH]; simpl; [lra|]. pose proof (Rle_0_sqr x) as H.
  unfold Rsqr in H. lra.
Qed.

Lemma sum_squares_zero (v : list R) :
  sum_squares v = 0 → Forall (λ x, x = 0) v.
Proof.
  induction v as [|x v IH]; simpl; intros H; [constructor|].
  pose proof (sum_squares_nonneg v) as Hv.
  pose proof (Rle_0_sqr x) as Hx. unfold Rsqr in Hx.
  constructor; [|apply IH; lra].
  assert (x * x = 0) as H0 by lra. by apply Rsqr_0_uniq.
Qed.

Lemma sum_squares_positive (v : list R) (x : R) :
  x ∈ v → x ≠ 0 → 0 < sum_squares v.
Proof.
  intros Hin Hx. destruct (sum_squares_nonneg v) as [H|H]; [done|].
  symmetry in H. apply sum_squares_zero in H.
  rewrite Forall_forall in H. by apply H in Hin.
Qed.

Lemma sum_squares_scale (v : list R) (c : R) :
  c ≠ 0 → sum_squares (map (λ x, x / c) v) = sum_squares v / (c * c).
Proof.
  intros Hc. induction v as [|x v IH]; simpl; [field; done|].
  rewrite IH. field. done.
Qed.

Lemma normalize_row_unit (v : list R) :
  sqrt (sum_squares v) ≠ 0 → sum_squares (normalize_row v) = 1.
Proof.
  intros Hn. unfold normalize_row.
  destruct (Req_dec_T (sqrt (sum_squares v)) 0) as [?|_]; [done|].
  rewrite sum_squares_scale by done.
  rewrite sqrt_sqrt by apply sum_squares_nonneg.
  field. intros H0. apply Hn. rewrite H0. apply sqrt_0.
Qed.

Lemma normalize_row_null (v : list R) :
  sqrt (sum_squares v) = 0 → normalize_row v = v ∧ sum_squares v = 0.
Proof.
  intros Hn. unfold normalize_row.
  destruct (Req_dec_T (sqrt (sum_squares v)) 0) as [_|?]; [|done].
  split; [done|]. apply sqrt_eq_0; [apply sum_squares_nonneg|done].
Qed.

Lemma normalize_row_le_1 (v : list R) : sum_squares (normalize_row v) <= 1.
Proof.
  destruct (Req_dec_T (sqrt (sum_squares v)) 0) as [H|H].
  - apply normalize_row_null in H as [-> ->]. lra.
  - rewrite normalize_row_unit by done. lra.
Qed.

Lemma normalize_row_idempotent (v : list R) :
  normalize_row (normalize_row v) = normalize_row v.
Proof.
  destruct (Req_dec_T (sqrt (sum_squares v)) 0) as [H|H].
  - apply normalize_row_null in H as Hv. destruct Hv as [Hv _].
    by rewrite !Hv.
  - unfold normalize_row at 1. rewrite normalize_row_unit by done.
    rewrite sqrt_1. destruct (Req_dec_T 1 0) as [?|_]; [lra|].
    rewrite <- (map_id (normalize_row v)) at 2.
    apply map_ext. intros x. apply Rdiv_1_r.
Qed.

Lemma normalize_row_length (v : list R) :
  length (normalize_row v) = length v.
Proof.
  unfold normalize_row. destruct (Req_dec_T _ _); [done|apply length_map].
Qed.

Lemma normalize_row_nonneg (v : list R) :
  Forall (λ x, 0 <= x) v → Forall (λ x, 0 <= x) (normalize_row v).
Proof.
  intros Hv. unfold normalize_row.
  destruct (Req_dec_T (sqrt (sum_squares v)) 0) as [?|Hn]; [done|].
  apply Forall_fmap. eapply Forall_impl; [exact Hv|]. intros x Hx. simpl.
  pose proof (sqrt_pos (sum_squares v)) as Hs.
  apply Rmult_le_pos; [done|]. apply Rlt_le, Rinv_0_lt_compat. lra.
Qed.

Lemma dot_comm (u v : list R) : dot u v = dot v u.
Proof.
  unfold dot. revert v. induction u as [|x u IH]; intros [|y v]; simpl; try done.
  rewrite IH. ring.
Qed.

Lemma dot_self (u : list R) : dot u u = sum_squares u.
Proof. unfold dot. induction u as [|x u IH]; simpl; [done|]. by rewrite IH. Qed.

Lemma dot_nonneg (u v : list R) :
  Forall (λ x, 0 <= x) u → Forall (λ x, 0 <= x) v → 0 <= dot u v.
Proof.
  unfold dot. intros Hu. revert v.
  induction Hu as [|x u Hx Hu IH]; intros v Hv; simpl; [lra|].
  destruct Hv as [|y v Hy Hv]; simpl; [lra|].
  pose proof (IH v Hv). pose proof (Rmult_le_pos x y Hx Hy). lra.
Qed.

(** The inequality of Cauchy and Schwarz, in the form that unit vectors
    need. *)
Lemma dot_le_squares (u v : list R) :
  2 * dot u v <= sum_squares u + sum_squares v.
Proof.
  unfold dot. revert v. induction u as [|x u IH]; intros v; simpl.
  - pose proof (sum_squares_nonneg v). lra.
  - destruct v as [|y v]; simpl.
    + pose proof (sum_squares_nonneg u). pose proof (Rle_0_sqr x) as Hx.
      unfold Rsqr in Hx. lra.
    + pose proof (IH v). pose proof (Rle_0_sqr (x - y)) as Hxy.
      unfold Rsqr in Hxy. lra.
Qed.

Lemma dot_null_l (u v : list R) : Forall (λ x, x = 0) u → dot u v = 0.
Proof.
  unfold dot. intros Hu. revert v.
  induction Hu as [|x u Hx Hu IH]; intros v; simpl; [done|].
  destruct v as [|y v]; simpl; [done|]. rewrite IH, Hx. ring.
Qed.

(** The cosine of two rows with entries that are not negative. *)
Lemma cosine_bounds (x y : list R) :
  Forall (λ w, 0 <= w) x → Forall (λ w, 0 <= w) y →
  0 <= dot (normalize_row x) (normalize_row y) <= 1.
Proof.
  intros Hx Hy. split.
  - by apply dot_nonneg; apply normalize_row_nonneg.
  - pose proof (dot_le_squares (normalize_row x) (normalize_row y)).
    pose proof (normalize_row_le_1 x). pose proof (normalize_row_le_1 y). lra.
Qed.

Lemma cosine_self (x : list R) :
  dot (normalize_row x) (normalize_row x)
  = if Req_dec_T (sum_squares x) 0 then 0 else 1.
Proof.
  rewrite dot_self. destruct (Req_dec_T (sum_squares x) 0) as [H0|H0].
  - assert (sqrt (sum_squares x) = 0) as Hs by (rewrite H0; apply sqrt_0).
    by apply normalize_row_null in Hs as [-> ?].
  - apply normalize_row_unit. intros Hs.
    apply sqrt_eq_0 in Hs; [done|apply sum_squares_nonneg].
Qed.

(** ** Inverse document frequency and weights *)

Lemma ln_nonneg (x : R) : 1 <= x → 0 <= ln x.
Proof.
  intros [H|<-]; [|rewrite ln_1; lra].
  rewrite <- ln_1. apply Rlt_le, ln_increasing; lra.
Qed.

Lemma df_le (docs : list string) (t : string) : (df docs t ≤ length docs)%nat.
Proof. apply length_filter. Qed.

Lemma idf_ge_1 (docs : list string) (t : string) : 1 <= idf docs t.
Proof.
  unfold idf. pose proof (df_le docs t) as Hdf. apply le_INR in Hdf.
  pose proof (pos_INR (df docs t)) as H0.
  assert (0 <= ln ((1 + INR (length docs)) / (1 + INR (df docs t)))); [|lra].
  apply ln_nonneg.
  set (a := 1 + INR (length docs)) in *. set (b := 1 + INR (df docs t)) in *.
  assert (0 < b) as Hb by (unfold b; lra).
  replace (a / b) with (1 + (a - b) * / b) by (field; lra).
  pose proof (Rinv_0_lt_compat b Hb).
  assert (0 <= (a - b) * / b); [|lra].
  apply Rmult_le_pos; [unfold a, b; lra|lra].
Qed.

Lemma weights_nonneg (docs : list string) (d : string) :
  Forall (λ w, 0 <= w) (weights docs d).
Proof.
  unfold weights. apply Forall_fmap, Forall_forall. intros t _. simpl.
  pose proof (idf_ge_1 docs t). pose proof (pos_INR (tf t d)).
  apply Rmult_le_pos; lra.
Qed.

Lemma weights_length (docs : list string) (d : string) :
  length (weights docs d) = length (vocabulary docs).
Proof. apply length_map. Qed.
End vectors.

Example up_items_from_tables :
  content_based_data (dataset_content up_ratings up_movies) = up_items.
Proof. reflexivity. Qed.

(** ** The vocabulary and the weights *)

Section encoder.
Import Sklearn.
Local Open Scope R_scope.

Lemma vocabulary_elem (docs : list string) (t : string) :
  t ∈ vocabulary docs ↔ ∃ d, d ∈ docs ∧ t ∈ analyze d.
Proof.
  unfold vocabulary. rewrite (sort_by_Permutation String.leb).
  change (drop_duplicates (λ w : string, w) [] ?l) with (unique l).
  rewrite unique_elem, list_elem_of_In, in_concat. split.
  - intros (ws & Hws & Ht). apply in_map_iff in Hws as (d & <- & Hd).
    exists d. by rewrite !list_elem_of_In.
  - intros (d & Hd & Ht). exists (analyze d).
    rewrite <- !list_elem_of_In. split; [by apply list_elem_of_fmap_2|done].
Qed.

Lemma tf_positive (t d : string) : t ∈ analyze d → (0 < tf t d)%nat.
Proof.
  intros Ht. unfold tf.
  destruct (filter (λ w, w = t) (analyze d)) as [|w ws] eqn:Hf; simpl; [|lia].
  exfalso. by apply (filter_nil_not_elem_of _ _ t Hf).
Qed.

Lemma tf_none (t d : string) : analyze d = [] → tf t d = 0%nat.
Proof. intros H. unfold tf. by rewrite H. Qed.

(** A document has weight exactly when it has a token. *)
Lemma weights_null (docs : list string) (d : string) :
  analyze d = [] → sum_squares (weights docs d) = 0.
Proof.
  intros Hd. unfold weights.
  induction (vocabulary docs) as [|t ts IH]; simpl; [done|].
  rewrite IH, (tf_none t d Hd). simpl. ring.
Qed.

Lemma weights_positive (docs : list string) (d : string) :
  d ∈ docs → analyze d ≠ [] → 0 < sum_squares (weights docs d).
Proof.
  intros Hd Hne. destruct (analyze d) as [|t ts] eqn:Ha; [done|].
  assert (t ∈ analyze d) as Ht by (rewrite Ha; by left).
  apply (sum_squares_positive _ (INR (tf t d) * idf docs t)).
  - unfold weights. apply (list_elem_of_fmap_2 (λ t, INR (tf t d) * idf docs t)).
    apply vocabulary_elem. by exists d.
  - pose proof (idf_ge_1 docs t). apply tf_positive, lt_INR in Ht.
    simpl in Ht. apply Rgt_not_eq, Rmult_lt_0_compat; lra.
Qed.

Lemma fit_transform_Ok (docs : list string) (X : list (list R)) :
  fit_transform docs = Py.Ok X →
  X = map (λ d, normalize_row (weights docs d)) docs.
Proof. unfold fit_transform. destruct (vocabulary docs); congruence. Qed.

Lemma tfidf_row_norm (docs : list string) (d : string) :
  d ∈ docs →
  sum_squares (normalize_row (weights docs d))
  = if decide (analyze d = []) then 0 else 1.
Proof.
  intros Hd. destruct (decide (analyze d = [])) as [He|Hne].
  - pose proof (weights_null docs d He) as H0.
    assert (sqrt (sum_squares (weights docs d)) = 0) as Hs
      by (rewrite H0; apply sqrt_0).
    by apply normalize_row_null in Hs as [-> ?].
  - apply normalize_row_unit. pose proof (weights_positive docs d Hd Hne).
    apply Rgt_not_eq, sqrt_lt_R0. done.
Qed.
End encoder.

(** ** The similarity matrix *)

Section similarity.
Import Sklearn.
Local Open Scope R_scope.

Lemma cosine_sim_Ok (items : list item) (S : list (list R)) :
  cosine_sim items = Py.Ok S →
  S = let docs := map it_content_features items in
      let X := map (λ d, normalize_row (weights docs d)) docs in
      cosine_similarity X X.
Proof.
  unfold cosine_sim, tfidf_matrix. unfold_outcome.
  destruct (fit_transform _) as [X|e] eqn:HX; simpl; [|done].
  apply fit_transform_Ok in HX. congruence.
Qed.

Lemma cosine_sim_entry (items : list item) (S : list (list R)) (a b : nat)
    (ia ib : item) :
  cosine_sim items = Py.Ok S →
  items !! a = Some ia → items !! b = Some ib →
  entry S a b
  = Some (let docs := map it_content_features items in
          dot (normalize_row (weights docs (it_content_features ia)))
              (normalize_row (weights docs (it_content_features ib)))).
Proof.
  intros HS Ha Hb. rewrite (cosine_sim_Ok items S HS). simpl.
  unfold entry, cosine_similarity.
  rewrite !list_lookup_fmap, Ha. simpl.
  rewrite !list_lookup_fmap, Hb. simpl.
  by rewrite !normalize_row_idempotent.
Qed.

Lemma cosine_sim_diagonal (items : list item) (S : list (list R)) (a : nat)
    (it : item) :
  cosine_sim items = Py.Ok S →
  items !! a = Some it →
  entry S a a
  = Some (if decide (analyze (it_content_features it) = []) then 0 else 1).
Proof.
  intros HS Ha. rewrite (cosine_sim_entry items S a a it it HS Ha Ha). simpl.
  f_equal. rewrite dot_self. apply tfidf_row_norm.
  apply list_elem_of_fmap_2. by apply list_elem_of_lookup_2 in Ha.
Qed.

Lemma cosine_sim_up_items :
  cosine_sim up_items
  = Py.Ok (let docs := map it_content_features up_items in
           let X := map (λ d, normalize_row (weights docs d)) docs in
           cosine_similarity X X).
Proof.
  unfold cosine_sim, tfidf_matrix, fit_transform.
  assert (vocabulary (map it_content_features up_items)
          = ["11"; "action"; "crime"; "thriller"]%string) as ->
    by (vm_compute; reflexivity).
  reflexivity.
Qed.
End similarity.

Lemma cosine_sim_up : cosine_sim up_items = Py.Ok up_similarity.
Proof. apply cosine_sim_up_items. Qed.

(** C3: the claim fails on the code.  The feature string of Up, [- 9], has
    no token, its row of weights is null, and its similarity with itself is
    0, where the claim, and the comment of the source on [cosine_sim[0][0]],
    say 1. *)
Lemma token_less_movie_has_diagonal_zero :
  content_based_data (dataset_content up_ratings up_movies) = up_items
  ∧ cosine_sim up_items = Py.Ok up_similarity
  ∧ entry up_similarity 1 1 = Some 0%R
  ∧ (0 ≠ 1)%R.
Proof.
  split; [reflexivity|]. split; [exact cosine_sim_up|]. split; [|lra].
  by rewrite (cosine_sim_diagonal up_items up_similarity 1 _ cosine_sim_up eq_refl).
Qed.

(** ** Tokens *)

Section tokens.
Import Sklearn.

Lemma fields_chars (P : ascii → bool) (s w : string) (c : ascii) :
  w ∈ Py.fields P s → c ∈ chars w → P c = false ∧ c ∈ chars s.
Proof.
  revert w. induction s as [|a r IH]; intros w; simpl.
  - intros ->%list_elem_of_singleton Hc. by inversion Hc.
  - destruct (P a) eqn:Ha.
    + intros [->|Hw]%elem_of_cons Hc; [by inversion Hc|].
      destruct (IH w Hw Hc) as [? ?]. split; [done|by right].
    + destruct (Py.fields P r) as [|w0 ws] eqn:Hf.
      * intros ->%list_elem_of_singleton. simpl.
        intros [->|Hc]%elem_of_cons; [split; [done|by left]|by inversion Hc].
      * intros [->|Hw]%elem_of_cons Hc.
        -- simpl in Hc. apply elem_of_cons in Hc as [->|Hc].
           ++ split; [done|by left].
           ++ destruct (IH w0 (list_elem_of_here _ _) Hc) as [? ?].
              split; [done|by right].
        -- destruct (IH w (list_elem_of_further _ _ _ Hw) Hc) as [? ?].
           split; [done|by right].
Qed.

Lemma fields_ext (P Q : ascii → bool) (s : string) :
  (∀ c, c ∈ chars s → P c = Q c) → Py.fields P s = Py.fields Q s.
Proof.
  induction s as [|a r IH]; intros H; simpl; [done|].
  rewrite <- (H a) by by left.
  rewrite <- IH by (intros c Hc; apply H; by right). done.
Qed.

Lemma fields_map_chars (f : ascii → ascii) (P : ascii → bool) (s : string) :
  (∀ c, P (f c) = P c) →
  Py.fields P (Py.map_chars f s) = map (Py.map_chars f) (Py.fields P s).
Proof.
  intros Hf. induction s as [|a r IH]; simpl; [done|].
  rewrite Hf, IH. destruct (P a); [done|]. by destruct (Py.fields P r).
Qed.

Lemma length_map_chars (f : ascii → ascii) (s : string) :
  String.length (Py.map_chars f s) = String.length s.
Proof. induction s as [|a r IH]; simpl; [done|]. by rewrite IH. Qed.

Lemma is_word_char_lower (c : ascii) :
  is_word_char (Py.lower_char c) = is_word_char c.
Proof. by destruct c as [[] [] [] [] [] [] [] []]. Qed.

Lemma word_char_not_space (c : ascii) :
  is_word_char c = true → Py.is_space c = false.
Proof. by destruct c as [[] [] [] [] [] [] [] []]. Qed.

Lemma filter_length_fmap (f : string → string) (l : list string) :
  (∀ w, String.length (f w) = String.length w) →
  filter (λ w, 2 ≤ String.length w) (map f l)
  = map f (filter (λ w, 2 ≤ String.length w) l).
Proof.
  intros Hf. induction l as [|w l IH]; [done|]. simpl map.
  rewrite !filter_cons, Hf, IH. by destruct (decide (2 ≤ String.length w)).
Qed.

(** Every token is a run of at least two word characters. *)
Lemma analyze_tokens (d t : string) :
  t ∈ analyze d →
  2 ≤ String.length t ∧ Forall (λ c, is_word_char c = true) (chars t).
Proof.
  unfold analyze, tokenize. intros [Hlen Ht]%list_elem_of_filter.
  split; [done|]. apply Forall_forall. intros c Hc.
  destruct (fields_chars _ _ _ _ Ht Hc) as [Hw _].
  by apply negb_false_iff in Hw.
Qed.

(** On a text of word characters and white space, the tokens are the
    words that white space separates, lowercased, those of one character
    left out. *)
Lemma analyze_split (d : string) :
  (∀ c, c ∈ chars d → Py.is_space c || is_word_char c = true) →
  analyze d
  = map Py.lower (filter (λ w, 2 ≤ String.length w) (Py.split d)).
Proof.
  intros Hd. unfold analyze, tokenize, Py.lower, Py.split.
  rewrite fields_map_chars
    by (intros c; by rewrite is_word_char_lower).
  rewrite filter_length_fmap by apply length_map_chars. f_equal.
  rewrite (fields_ext _ Py.is_space).
  - rewrite list_filter_filter. apply list_filter_iff.
    intros w. split; [|by intros [? _]].
    intros Hw. split; [done|]. destruct w; [simpl in Hw; lia|done].
  - intros c Hc. specialize (Hd c Hc).
    destruct (is_word_char c) eqn:Hw; simpl.
    + symmetry. by apply word_char_not_space.
    + by rewrite orb_false_r in Hd.
Qed.
End tokens.

Lemma fit_transform_up : Sklearn.fit_transform up_docs = Py.Ok up_tfidf.
Proof.
  unfold Sklearn.fit_transform.
  assert (Sklearn.vocabulary up_docs
          = ["11"; "action"; "crime"; "thriller"]) as -> by (vm_compute; reflexivity).
  reflexivity.
Qed.

(** C4, as stated, fails on the tokens: the feature string of Pi (1998)
    gives four tokens, [Sci-Fi] being cut at the hyphen and the title length
    9 being dropped, where splitting at white space gives four other
    words. *)
Lemma tokens_are_not_white_space_fields :
  map dc_content_features
    (dataset_content [Rating 1 1921 4 964981710]
       [Movie 1921 "Pi (1998)" "Drama|Sci-Fi|Thriller"])
  = ["Drama Sci-Fi Thriller 9"]
  ∧ Sklearn.analyze "Drama Sci-Fi Thriller 9"
    = ["drama"; "sci"; "fi"; "thriller"]
  ∧ Py.split "Drama Sci-Fi Thriller 9" = ["Drama"; "Sci-Fi"; "Thriller"; "9"].
Proof. split; [reflexivity|]. split; reflexivity. Qed.

(** The frame that the notebook passes by default is square over the
    catalog. *)
Lemma cosine_sim_shape (items : list item) (S : list (list R)) :
  cosine_sim items = Py.Ok S →
  length S = length items ∧ Forall (λ row, length row = length items) S.
Proof.
  intros HS. rewrite (cosine_sim_Ok items S HS). simpl.
  unfold Sklearn.cosine_similarity. split.
  - by rewrite !length_map.
  - apply Forall_fmap, Forall_forall. intros x _. simpl. by rewrite !length_map.
Qed.

Lemma cosine_sim_df_square (items : list item) (sd : frame R) :
  cosine_sim_df items = Py.Ok sd → square_over sd items.
Proof.
  unfold cosine_sim_df. unfold_outcome.
  destruct (cosine_sim items) as [S|e] eqn:HS; simpl; [|done].
  intros [= <-]. destruct (cosine_sim_shape items S HS) as [Hlen Hrows].
  by apply DataFrame_square.
Qed.

(** C10, the other column: two rows of one catalog can get the same
    [film_id], which the comments of the source call unique for each film;
    then [num_track] is below the number of movies. *)
Example film_id_collision :
  ∃ rows,
    dataset_filter (dataset_content eleven_ratings eleven_movies) = Py.Ok rows
    ∧ NoDup (map fl_movieId rows)
    ∧ map fl_film_id rows !! 0 = Some "110"
    ∧ map fl_film_id rows !! 10 = Some "110"
    ∧ length rows = 11 ∧ num_track rows = 10.
Proof.
  eexists. split; [reflexivity|]. split; [by apply (bool_decide_unpack _)|].
  by vm_compute.
Qed.

(** * Properties of the other cells *)

(** ** Strings *)

Lemma chars_app (s t : string) : chars (s +:+ t) = chars s ++ chars t.
Proof. induction s as [|c s IH]; simpl; [done|]. by rewrite <- IH. Qed.

Lemma chars_inj (s t : string) : chars s = chars t → s = t.
Proof.
  revert t. induction s as [|c s IH]; intros [|d t]; simpl; try done.
  intros [= -> H]. f_equal. by apply IH.
Qed.

Lemma fields_not_nil (P : ascii → bool) (s : string) : Py.fields P s ≠ [].
Proof.
  destruct s as [|c s]; simpl; [done|].
  destruct (P c); [done|]. by destruct (Py.fields P s).
Qed.

Lemma join_cons (sep w : string) (ws : list string) :
  ws ≠ [] → Py.join sep (w :: ws) = w +:+ sep +:+ Py.join sep ws.
Proof. by destruct ws. Qed.

Lemma join_fields (P : ascii → bool) (b : ascii) (g : string) :
  Py.join (String b "") (Py.fields P g)
  = Py.map_chars (λ c, if P c then b else c) g.
Proof.
  induction g as [|c g IH]; [done|]. simpl Py.fields. simpl Py.map_chars.
  pose proof (fields_not_nil P g) as Hne.
  destruct (P c); cbv iota.
  - rewrite (join_cons _ _ _ Hne). by rewrite IH.
  - rewrite <- IH. destruct (Py.fields P g) as [|w ws]; [done|].
    by destruct ws.
Qed.


(** Joining with a space what was cut at the bars puts a space for every
    bar. *)
Lemma join_split_on (g : string) :
  Py.join " " (Py.split_on "|" g) = replace_char "|" " " g.
Proof. apply join_fields. Qed.


Lemma replace_char_id (a b : ascii) (s : string) :
  replace_char a b s = s ↔ (a = b ∨ a ∉ chars s).
Proof.
  unfold replace_char. induction s as [|c s IH]; simpl.
  - split; [|done]. intros _. right. apply not_elem_of_nil.
  - destruct (Ascii.eqb_spec a c) as [<-|Hne].
    + split.
      * intros [= -> _]. by left.
      * intros [->|Hn]; [|exfalso; apply Hn; by left].
        f_equal. apply IH. by left.
    + split.
      * intros [= H]. apply IH in H as [?|Hn]; [by left|right].
        rewrite not_elem_of_cons. done.
      * intros H. f_equal. apply IH. destruct H as [?|Hn]; [by left|].
        right. apply not_elem_of_cons in Hn as [_ ?]. done.
Qed.

Lemma replace_char_removes (a b : ascii) (s : string) :
  a ≠ b → a ∉ chars (replace_char a b s).
Proof.
  intros Hab. unfold replace_char. induction s as [|c s IH]; simpl.
  - apply not_elem_of_nil.
  - rewrite not_elem_of_cons. split; [|done].
    destruct (Ascii.eqb_spec a c); congruence.
Qed.

(** ** The records of the catalog *)

Lemma dataset_content_row (ratings : list rating_row) (movies : list movie)
    (c : content_row) :
  c ∈ dataset_content ratings movies →
  ∃ r m, r ∈ ratings ∧ m ∈ movies ∧ mv_movieId m = rt_movieId r
         ∧ c = content_of
                 (join_row r (MovRow (mv_movieId m) (mv_title m) (mv_genres m)
                                (Py.split_on "|"%char (mv_genres m))
                                (String.length (mv_title m)))).
Proof.
  unfold dataset_content. intros H.
  apply list_elem_of_fmap in H as (g & -> & Hg).
  apply drop_duplicates_elem in Hg as [Hg _].
  apply df_merged_elem in Hg as (r & m & Hr & Hm & Hid & ->). by exists r, m.
Qed.



(** ** Calls that can raise, in sequence *)

Lemma traverse_Ok {A B} (f : A → Py.outcome B) (l : list A) (ys : list B) :
  Py.traverse f l = Py.Ok ys ↔ Forall2 (λ x y, f x = Py.Ok y) l ys.
Proof.
  revert ys. induction l as [|x l IH]; intros ys; simpl.
  - split; [intros [= <-]; constructor|]. intros H. by inversion H.
  - destruct (f x) as [y|e] eqn:Hx; simpl.
    + destruct (Py.traverse f l) as [zs|e] eqn:Hl; simpl.
      * split.
        -- intros [= <-]. constructor; [done|]. by apply IH.
        -- intros H. inversion H as [|? y' ? zs' Hy Hzs]; subst.
           apply IH in Hzs. congruence.
      * split; [done|]. intros H. inversion H as [|? y' ? zs' Hy Hzs]; subst.
        apply IH in Hzs. done.
    + split; [done|]. intros H. inversion H; subst. congruence.
Qed.

Lemma traverse_Raise {A B} (f : A → Py.outcome B) (l : list A) (e : Py.exn) :
  Py.traverse f l = Py.Raise e →
  ∃ i x, l !! i = Some x ∧ f x = Py.Raise e.
Proof.
  induction l as [|x l IH]; simpl; [done|].
  destruct (f x) as [y|e'] eqn:Hx; simpl.
  - destruct (Py.traverse f l) as [zs|e'] eqn:Hl; simpl; [done|].
    intros [= ->]. destruct (IH eq_refl) as (i & z & Hi & Hz).
    by exists (S i), z.
  - intros [= ->]. by exists 0, x.
Qed.

Lemma traverse_total {A B} (f : A → Py.outcome B) (l : list A) :
  (∀ x, x ∈ l → ∃ y, f x = Py.Ok y) → ∃ ys, Py.traverse f l = Py.Ok ys.
Proof.
  intros Hl. destruct (Py.traverse f l) as [ys|e] eqn:H; [by exists ys|].
  apply traverse_Raise in H as (i & x & Hi & Hx).
  apply list_elem_of_lookup_2, Hl in Hi as [y Hy]. congruence.
Qed.

Lemma traverse_length {A B} (f : A → Py.outcome B) (l : list A) (ys : list B) :
  Py.traverse f l = Py.Ok ys → length ys = length l.
Proof. intros H%traverse_Ok. symmetry. by eapply Forall2_length. Qed.

Lemma enumerate_lookup {A} (l : list A) (i : nat) :
  Py.enumerate l !! i = (λ x, (i, x)) <$> l !! i.
Proof. unfold Py.enumerate. by rewrite list_lookup_imap. Qed.

Lemma enumerate_length {A} (l : list A) : length (Py.enumerate l) = length l.
Proof. apply length_imap. Qed.

(** ** The rows of [dataset_filter] *)

Lemma split_nil (s : string) : Py.split s = [] ↔ blank s = true.
Proof.
  unfold Py.split, blank. induction s as [|c s IH]; simpl; [done|].
  destruct (Py.is_space c) eqn:Hc; simpl.
  - by rewrite filter_cons_False.
  - split; [|done]. destruct (Py.fields Py.is_space s) as [|w ws];
      by rewrite filter_cons_True.
Qed.

Lemma film_code_Ok (title : string) :
  blank title = false →
  ∃ w, head (Py.split title) = Some w
       ∧ film_code title = Py.Ok (Py.upper (Py.prefix 3 w)).
Proof.
  intros Hb. unfold film_code. destruct (Py.split title) as [|w ws] eqn:Hs.
  - apply split_nil in Hs. congruence.
  - by exists w.
Qed.

Lemma film_code_Raise (title : string) :
  blank title = true → film_code title = Py.Raise Py.IndexError.
Proof. intros Hb%split_nil. unfold film_code. by rewrite Hb. Qed.

Lemma filter_of_Raise (i : nat) (c : content_row) (e : Py.exn) :
  filter_of i c = Py.Raise e → e = Py.IndexError ∧ blank (dc_title c) = true.
Proof.
  unfold filter_of. unfold_outcome.
  destruct (blank (dc_title c)) eqn:Hb.
  - rewrite (film_code_Raise _ Hb). by intros [= <-].
  - destruct (film_code_Ok _ Hb) as (w & _ & ->). done.
Qed.

(** The rows, one per record and in the same order. *)
Lemma dataset_filter_rows (dc : list content_row) (rows : list filter_row) :
  dataset_filter dc = Py.Ok rows →
  length rows = length dc
  ∧ ∀ i c, dc !! i = Some c →
      ∃ w, head (Py.split (dc_title c)) = Some w
        ∧ rows !! i
          = Some {| fl_movieId := dc_movieId c;
                    fl_title := dc_title c;
                    fl_genres_split := dc_genres_split c;
                    fl_title_length := dc_title_length c;
                    fl_rating := dc_rating c;
                    fl_genres_str := Py.join " " (dc_genres_split c);
                    fl_movie_label :=
                      dc_title c +:+ " (" +:+ Py.join " " (dc_genres_split c)
                        +:+ ")";
                    fl_content_features :=
                      Py.join " " (dc_genres_split c) +:+ " "
                        +:+ Py.str_of_nat (dc_title_length c);
                    fl_film_id :=
                      Py.upper (Py.prefix 3 w) +:+ Py.str_of_nat i |}.
Proof.
  unfold dataset_filter. intros H. split.
  - by rewrite (traverse_length _ _ _ H), enumerate_length.
  - intros i c Hc. apply traverse_Ok in H.
    destruct (Forall2_lookup_l _ _ _ i (i, c) H) as (r & Hr & Hf).
    { by rewrite enumerate_lookup, Hc. }
    simpl in Hf. unfold filter_of, film_code in Hf. unfold_outcome.
    destruct (Py.split (dc_title c)) as [|w ws]; [done|].
    exists w. split; [done|]. by injection Hf as <-.
Qed.

(** X7: [dataset_filter] fails exactly when a title has no word, and then with
    the [IndexError] of [x.split()[0]]; it keeps one row per record. *)
Theorem dataset_filter_raises_on_blank_title (dc : list content_row) :
  (dataset_filter dc = Py.Raise Py.IndexError
   ↔ Exists (λ c, blank (dc_title c) = true) dc)
  ∧ ((∃ rows, dataset_filter dc = Py.Ok rows)
     ↔ Forall (λ c, blank (dc_title c) = false) dc)
  ∧ (∀ e, dataset_filter dc = Py.Raise e → e = Py.IndexError)
  ∧ (∀ rows, dataset_filter dc = Py.Ok rows →
       map fl_movieId rows = map dc_movieId dc
       ∧ map fl_title rows = map dc_title dc
       ∧ map fl_rating rows = map dc_rating dc).
Proof.
  assert (∀ e, dataset_filter dc = Py.Raise e →
               e = Py.IndexError ∧ Exists (λ c, blank (dc_title c) = true) dc)
    as Hraise.
  { intros e H. unfold dataset_filter in H.
    apply traverse_Raise in H as (i & [j c] & Hi & Hf).
    apply filter_of_Raise in Hf as [-> Hb]. split; [done|].
    apply Exists_exists. exists c. split; [|done].
    rewrite enumerate_lookup in Hi.
    destruct (dc !! i) as [c'|] eqn:Hc; simpl in Hi; [|done].
    injection Hi as <- <-. by eapply list_elem_of_lookup_2. }
  assert ((∃ rows, dataset_filter dc = Py.Ok rows)
          ↔ Forall (λ c, blank (dc_title c) = false) dc) as Hok.
  { split.
    - intros [rows H]. apply Forall_lookup. intros i c Hc.
      destruct (dataset_filter_rows dc rows H) as [_ Hrows].
      destruct (Hrows i c Hc) as (w & Hw & _).
      destruct (blank (dc_title c)) eqn:Hb; [|done].
      apply split_nil in Hb. by rewrite Hb in Hw.
    - intros Hall. unfold dataset_filter. apply traverse_total.
      intros [i c] Hin. simpl. unfold Py.enumerate in Hin.
      apply elem_of_lookup_imap in Hin as (j & c' & [= -> ->] & Hc).
      rewrite Forall_forall in Hall.
      destruct (film_code_Ok (dc_title c')) as (w & _ & Hw).
      { apply Hall. by eapply list_elem_of_lookup_2. }
      unfold filter_of. rewrite Hw. unfold_outcome. by eexists. }
  split; [|split; [done|split]].
  - split; [by intros [_ ?]%Hraise|].
    intros Hex. destruct (dataset_filter dc) as [rows|e] eqn:H.
    + assert (Forall (λ c, blank (dc_title c) = false) dc) as Hall
        by (apply Hok; by exists rows).
      apply Exists_exists in Hex as (c & Hc & Hb).
      rewrite Forall_forall in Hall. apply Hall in Hc. congruence.
    + by destruct (Hraise e eq_refl) as [-> _].
  - intros e H. by apply Hraise in H as [? _].
  - intros rows H. destruct (dataset_filter_rows dc rows H) as [Hlen Hrows].
    repeat split; apply list_eq; intros i; rewrite !list_lookup_fmap;
      (destruct (dc !! i) as [c|] eqn:Hc;
       [destruct (Hrows i c Hc) as (w & _ & ->); done
       |apply lookup_ge_None in Hc;
        rewrite (proj2 (lookup_ge_None rows i)) by lia; done]).
Qed.

(** ** The labels of the two engines *)

Lemma append_inj_r (s a b : string) : s +:+ a = s +:+ b → a = b.
Proof. induction s as [|c s IH]; simpl; [done|]. intros [= H]. by apply IH. Qed.

Lemma append_inj_l (s a b : string) : a +:+ s = b +:+ s → a = b.
Proof.
  intros H. apply chars_inj. apply (f_equal chars) in H.
  rewrite !chars_app in H. by apply app_inv_tail in H.
Qed.

Lemma label_inj (title g1 g2 : string) :
  title +:+ " (" +:+ g1 +:+ ")" = title +:+ " (" +:+ g2 +:+ ")" → g1 = g2.
Proof. intros H. do 2 apply append_inj_r in H. by apply append_inj_l in H. Qed.

(** X10: the content engine and the embedding engine read one feature string per
    movie, the same for both; they label the movie differently as soon as
    its genre field has a bar, which the first keeps and the second turns
    into a space. *)
Theorem engines_share_features_but_not_labels
    (ratings : list rating_row) (movies : list movie)
    (rows : list filter_row) (i : nat) (c : content_row) (r : filter_row) :
  dataset_filter (dataset_content ratings movies) = Py.Ok rows →
  dataset_content ratings movies !! i = Some c →
  rows !! i = Some r →
  fl_movieId r = dc_movieId c
  ∧ fl_content_features r = dc_content_features c
  ∧ fl_genres_str r = replace_char "|" " " (dc_genres c)
  ∧ fl_movie_label r
    = dc_title c +:+ " (" +:+ replace_char "|" " " (dc_genres c) +:+ ")"
  ∧ (fl_movie_label r = dc_movie_label c ↔ "|"%char ∉ chars (dc_genres c)).
Proof.
  intros Hrows Hc Hr.
  destruct (dataset_filter_rows _ rows Hrows) as [_ Hall].
  destruct (Hall i c Hc) as (w & _ & Hr'). rewrite Hr in Hr'.
  injection Hr' as ->. simpl.
  destruct (dataset_content_row ratings movies c) as (r & m & _ & _ & _ & ->).
  { by eapply list_elem_of_lookup_2. }
  simpl. rewrite join_split_on.
  repeat split; try done.
  - intros H%label_inj. apply replace_char_id in H as [?|?]; done.
  - intros H. do 3 f_equal. apply replace_char_id. by right.
Qed.

Lemma engines_share_features_but_not_labels_witness :
  let c := {| dc_movieId := 2; dc_title := "Heat (1995)";
              dc_genres := "Action|Crime"; dc_rating := 7 # 2;
              dc_genres_split := ["Action"; "Crime"]; dc_title_length := 11;
              dc_movie_label := "Heat (1995) (Action|Crime)";
              dc_content_features := "Action Crime 11" |} in
  dataset_filter (dataset_content scenario_ratings scenario_movies)
  = Py.Ok scenario_rows
  ∧ dataset_content scenario_ratings scenario_movies !! 1 = Some c
  ∧ scenario_rows !! 1 = Some heat_row
  ∧ fl_movieId heat_row = dc_movieId c
  ∧ fl_content_features heat_row = dc_content_features c
  ∧ fl_genres_str heat_row = replace_char "|" " " (dc_genres c)
  ∧ fl_movie_label heat_row
    = dc_title c +:+ " (" +:+ replace_char "|" " " (dc_genres c) +:+ ")"
  ∧ (fl_movie_label heat_row = dc_movie_label c
     ↔ "|"%char ∉ chars (dc_genres c)).
Proof.
  intros c.
  assert (dataset_filter (dataset_content scenario_ratings scenario_movies)
          = Py.Ok scenario_rows) as H1 by reflexivity.
  assert (dataset_content scenario_ratings scenario_movies !! 1 = Some c)
    as H2 by reflexivity.
  assert (scenario_rows !! 1 = Some heat_row) as H3 by reflexivity.
  split; [exact H1|]. split; [exact H2|]. split; [exact H3|].
  exact (engines_share_features_but_not_labels scenario_ratings
           scenario_movies scenario_rows 1 c heat_row H1 H2 H3).
Defined.

(** ** Film ids *)

Lemma string_of_uint_digits (d : Decimal.uint) :
  Forall (λ c, is_digit c = true) (chars (NilEmpty.string_of_uint d)).
Proof. induction d; simpl; by constructor. Qed.

Lemma str_of_nat_digits (n : nat) :
  Forall (λ c, is_digit c = true) (chars (Py.str_of_nat n)).
Proof. apply string_of_uint_digits. Qed.

Lemma str_of_nat_inj (i j : nat) : Py.str_of_nat i = Py.str_of_nat j → i = j.
Proof.
  unfold Py.str_of_nat. intros H.
  apply (f_equal NilEmpty.uint_of_string) in H. rewrite !NilEmpty.usu in H.
  injection H as H. apply (f_equal Nat.of_uint) in H.
  by rewrite !Unsigned.of_to in H.
Qed.

Lemma last_app_cons {A} (l1 l2 : list A) (x : A) :
  last (l1 ++ x :: l2) = last (x :: l2).
Proof.
  induction l1 as [|a l1 IH]; [done|].
  simpl. destruct (l1 ++ x :: l2) eqn:H; [by destruct l1|]. by rewrite <- IH.
Qed.

(** A text that does not end in a digit, followed by digits, reads in one
    way only. *)
Lemma digits_suffix_unique (l1 l2 d1 d2 : list ascii) :
  (∀ c, last l1 = Some c → is_digit c = false) →
  (∀ c, last l2 = Some c → is_digit c = false) →
  Forall (λ c, is_digit c = true) d1 →
  Forall (λ c, is_digit c = true) d2 →
  l1 ++ d1 = l2 ++ d2 → l1 = l2 ∧ d1 = d2.
Proof.
  assert (∀ (l d d' : list ascii) a,
            (∀ c, last (a :: l) = Some c → is_digit c = false) →
            Forall (λ c, is_digit c = true) d' →
            (a :: l) ++ d ≠ d') as Hno.
  { intros l d d' a Hl Hd' Heq.
    destruct (last (a :: l)) as [c|] eqn:Hc.
    2:{ by apply last_None in Hc. }
    pose proof (Hl c eq_refl) as Hnd.
    apply last_Some in Hc as [l' Hc]. rewrite Hc, <- app_assoc in Heq.
    rewrite Forall_forall in Hd'.
    assert (is_digit c = true) as Hdig; [|congruence].
    apply Hd'. rewrite <- Heq. apply elem_of_app. right. by left. }
  revert l2. induction l1 as [|a l1 IH]; intros l2 H1 H2 Hd1 Hd2 Heq.
  - destruct l2 as [|b l2]; [done|]. exfalso.
    by apply (Hno l2 d2 d1 b H2 Hd1).
  - destruct l2 as [|b l2].
    + exfalso. by apply (Hno l1 d1 d2 a H1 Hd2).
    + simpl in Heq. injection Heq as -> Heq.
      destruct (IH l2) as [-> ->]; try done.
      * intros c Hc. apply H1. simpl. destruct l1; [done|exact Hc].
      * intros c Hc. apply H2. simpl. destruct l2; [done|exact Hc].
Qed.

Lemma film_id_inj (code1 code2 : string) (i j : nat) :
  no_final_digit code1 → no_final_digit code2 →
  code1 +:+ Py.str_of_nat i = code2 +:+ Py.str_of_nat j → i = j.
Proof.
  intros H1 H2 Heq. apply (f_equal chars) in Heq. rewrite !chars_app in Heq.
  apply digits_suffix_unique in Heq as [_ Heq];
    [|done|done|apply str_of_nat_digits..].
  by apply str_of_nat_inj, chars_inj.
Qed.

Lemma unique_NoDup_id (xs : list string) : NoDup xs → unique xs = xs.
Proof.
  induction xs as [|x xs IH] using rev_ind; [done|].
  intros Hnd. apply NoDup_app in Hnd as (Hxs & Hx & _).
  rewrite unique_snoc. destruct (decide (x ∈ xs)) as [Hin|_].
  - exfalso. apply (Hx x Hin). by left.
  - by rewrite IH.
Qed.

(** X9: when no film code ends in a digit (the codes are the first three
    characters of the first word of the titles, in upper case), the film ids
    of the rows are pairwise distinct: [num_track] is the number of rows and
    the code of a row in the column [track] is its position. *)
Theorem film_ids_distinct_without_final_digit
    (dc : list content_row) (rows : list filter_row) :
  dataset_filter dc = Py.Ok rows →
  (∀ c code, c ∈ dc → film_code (dc_title c) = Py.Ok code →
             no_final_digit code) →
  NoDup (map fl_film_id rows)
  ∧ film_ids rows = map fl_film_id rows
  ∧ num_track rows = length dc
  ∧ track rows = map Some (seq 0 (length dc)).
Proof.
  intros Hrows Hcodes.
  destruct (dataset_filter_rows dc rows Hrows) as [Hlen Hall].
  assert (NoDup (map fl_film_id rows)) as Hnd.
  { apply NoDup_alt. intros i j x Hi Hj.
    rewrite list_lookup_fmap in Hi, Hj.
    destruct (lookup_lt_is_Some_2 dc i) as [ci Hci].
    { rewrite <- Hlen. apply lookup_lt_is_Some.
      destruct (rows !! i); [by eexists|done]. }
    destruct (lookup_lt_is_Some_2 dc j) as [cj Hcj].
    { rewrite <- Hlen. apply lookup_lt_is_Some.
      destruct (rows !! j); [by eexists|done]. }
    destruct (Hall i ci Hci) as (wi & Hwi & Hri).
    destruct (Hall j cj Hcj) as (wj & Hwj & Hrj).
    rewrite Hri in Hi. rewrite Hrj in Hj. simpl in Hi, Hj.
    injection Hi as Hi. injection Hj as Hj. rewrite <- Hj in Hi.
    apply film_id_inj in Hi; [done| |].
    - apply (Hcodes ci); [by eapply list_elem_of_lookup_2|].
      unfold film_code. by destruct (Py.split (dc_title ci)); simplify_eq/=.
    - apply (Hcodes cj); [by eapply list_elem_of_lookup_2|].
      unfold film_code. by destruct (Py.split (dc_title cj)); simplify_eq/=. }
  assert (film_ids rows = map fl_film_id rows) as Hids
    by by apply unique_NoDup_id.
  split; [done|]. split; [done|]. split.
  - unfold num_track, film_to_film_encoded.
    rewrite len_encoding by apply unique_NoDup.
    by rewrite Hids, length_map.
  - unfold track, film_to_film_encoded. rewrite Hids.
    apply list_eq. intros i. rewrite !list_lookup_fmap.
    destruct (rows !! i) as [r|] eqn:Hr; simpl.
    + rewrite lookup_seq_lt by (rewrite <- Hlen; by eapply lookup_lt_Some).
      simpl. do 2 f_equal. apply get_encoding; [done|].
      by rewrite list_lookup_fmap, Hr.
    + rewrite lookup_seq_ge; [done|]. rewrite <- Hlen. by apply lookup_ge_None.
Qed.

Lemma scenario_codes_without_final_digit (c : content_row) (code : string) :
  c ∈ dataset_content scenario_ratings scenario_movies →
  film_code (dc_title c) = Py.Ok code → no_final_digit code.
Proof.
  intros Hc.
  let v := eval vm_compute in (dataset_content scenario_ratings scenario_movies)
  in change (dataset_content scenario_ratings scenario_movies) with v in Hc.
  repeat (apply elem_of_cons in Hc as [->|Hc]);
    [| |by apply not_elem_of_nil in Hc];
    intros [= <-] ch; vm_compute; by intros [= <-].
Qed.

Lemma film_ids_distinct_without_final_digit_witness :
  dataset_filter (dataset_content scenario_ratings scenario_movies)
  = Py.Ok scenario_rows
  ∧ (∀ c code, c ∈ dataset_content scenario_ratings scenario_movies →
               film_code (dc_title c) = Py.Ok code → no_final_digit code)
  ∧ NoDup (map fl_film_id scenario_rows)
  ∧ film_ids scenario_rows = map fl_film_id scenario_rows
  ∧ num_track scenario_rows
    = length (dataset_content scenario_ratings scenario_movies)
  ∧ track scenario_rows
    = map Some (seq 0 (length (dataset_content scenario_ratings
                                 scenario_movies))).
Proof.
  assert (dataset_filter (dataset_content scenario_ratings scenario_movies)
          = Py.Ok scenario_rows) as H1 by reflexivity.
  split; [exact H1|]. split; [exact scenario_codes_without_final_digit|].
  exact (film_ids_distinct_without_final_digit _ scenario_rows H1
           scenario_codes_without_final_digit).
Defined.

(** ** The columns [track] and [name] *)

Lemma unique_app (xs ys : list string) :
  ∃ zs, unique (xs ++ ys) = unique xs ++ zs.
Proof.
  unfold unique. rewrite drop_duplicates_app. by eexists.
Qed.

(** The code of a value is at most the position of the row that carries
    it. *)
Lemma encoding_code_le (xs : list string) (i t : nat) (x : string) :
  xs !! i = Some x → Py.get (encoding (unique xs)) x = Some t → t ≤ i.
Proof.
  intros Hi Ht. apply get_encoding in Ht; [|apply unique_NoDup].
  destruct (unique_app (take (S i) xs) (drop (S i) xs)) as [zs Hzs].
  rewrite take_drop in Hzs.
  assert (x ∈ unique (take (S i) xs)) as Hx.
  { apply unique_elem. apply list_elem_of_lookup. exists i.
    rewrite lookup_take_lt by lia. done. }
  apply list_elem_of_lookup in Hx as [t' Ht'].
  assert (t' < S i) as Hlt.
  { apply lookup_lt_Some in Ht'.
    pose proof (proj1 (unique_length (take (S i) xs))) as Hle.
    rewrite length_take in Hle. lia. }
  assert (unique xs !! t' = Some x) as Ht''.
  { rewrite Hzs. by apply lookup_app_l_Some. }
  pose proof (unique_NoDup xs) as Hnd.
  rewrite (NoDup_alt (unique xs)) in Hnd.
  rewrite (Hnd t t' x Ht Ht''). lia.
Qed.

Lemma column_code (xs : list string) (i : nat) (x : string) :
  xs !! i = Some x →
  ∃ t, Py.get (encoding (unique xs)) x = Some t
       ∧ t < Py.len (encoding (unique xs)) ∧ t ≤ i
       ∧ unique xs !! t = Some x.
Proof.
  intros Hi.
  assert (x ∈ unique xs) as Hx.
  { apply unique_elem. by eapply list_elem_of_lookup_2. }
  apply list_elem_of_lookup in Hx as [t Ht].
  assert (Py.get (encoding (unique xs)) x = Some t) as Hget
    by (apply get_encoding; [apply unique_NoDup|done]).
  exists t. split; [done|]. split; [|split; [|done]].
  - rewrite len_encoding by apply unique_NoDup. by eapply lookup_lt_Some.
  - by eapply encoding_code_le.
Qed.

(** X11: the columns [track] and [name] have a code on every row (mapping through
    the dictionaries leaves no missing value); the code is below
    [num_track], respectively [num_name], it is at most the position of the
    row, and two rows have the same code exactly when they have the same
    film id, respectively the same label. *)
Theorem track_and_name_are_codes_in_range
    (rows : list filter_row) (i : nat) (r : filter_row) :
  rows !! i = Some r →
  ∃ t n,
    track rows !! i = Some (Some t) ∧ name rows !! i = Some (Some n)
    ∧ t < num_track rows ∧ n < num_name rows ∧ t ≤ i ∧ n ≤ i
    ∧ film_ids rows !! t = Some (fl_film_id r)
    ∧ movie_labels rows !! n = Some (fl_movie_label r)
    ∧ (∀ j r', rows !! j = Some r' →
         (track rows !! j = Some (Some t) ↔ fl_film_id r' = fl_film_id r)
         ∧ (name rows !! j = Some (Some n)
            ↔ fl_movie_label r' = fl_movie_label r)).
Proof.
  intros Hr.
  destruct (column_code (map fl_film_id rows) i (fl_film_id r))
    as (t & Hgt & Hlt & Hle & Hut); [by rewrite list_lookup_fmap, Hr|].
  destruct (column_code (map fl_movie_label rows) i (fl_movie_label r))
    as (n & Hgn & Hln & Hlen & Hun); [by rewrite list_lookup_fmap, Hr|].
  exists t, n. unfold track, name. rewrite !list_lookup_fmap, Hr. simpl.
  split; [by rewrite <- Hgt|]. split; [by rewrite <- Hgn|].
  split; [done|]. split.
  { unfold num_name, encoded_to_movie. rewrite len_decoding.
    unfold movie_to_encoded, movie_labels in Hln.
    by rewrite len_encoding in Hln by apply unique_NoDup. }
  split; [done|]. split; [done|]. split; [done|]. split; [done|].
  intros j r' Hr'. rewrite !list_lookup_fmap, Hr'. simpl.
  unfold film_to_film_encoded, movie_to_encoded, film_ids, movie_labels.
  pose proof (unique_NoDup (map fl_film_id rows)) as Hnd1.
  pose proof (unique_NoDup (map fl_movie_label rows)) as Hnd2.
  split.
  - split.
    + intros [= H]. apply get_encoding in H; [|done].
      unfold film_ids in Hut. congruence.
    + intros ->. by rewrite Hgt.
  - split.
    + intros [= H]. apply get_encoding in H; [|done].
      unfold movie_labels in Hun. congruence.
    + intros ->. by rewrite Hgn.
Qed.

Lemma track_and_name_are_codes_in_range_witness :
  scenario_rows !! 1 = Some heat_row
  ∧ ∃ t n,
      track scenario_rows !! 1 = Some (Some t)
      ∧ name scenario_rows !! 1 = Some (Some n)
      ∧ t < num_track scenario_rows ∧ n < num_name scenario_rows
      ∧ t ≤ 1 ∧ n ≤ 1
      ∧ film_ids scenario_rows !! t = Some (fl_film_id heat_row)
      ∧ movie_labels scenario_rows !! n = Some (fl_movie_label heat_row)
      ∧ (∀ j r', scenario_rows !! j = Some r' →
           (track scenario_rows !! j = Some (Some t)
            ↔ fl_film_id r' = fl_film_id heat_row)
           ∧ (name scenario_rows !! j = Some (Some n)
              ↔ fl_movie_label r' = fl_movie_label heat_row)).
Proof.
  assert (scenario_rows !! 1 = Some heat_row) as H by reflexivity.
  split; [exact H|].
  exact (track_and_name_are_codes_in_range scenario_rows 1 heat_row H).
Defined.

(** ** The extreme ratings *)

Lemma fold_min_spec (r : list Q) (x : Q) :
  let lo := fold_left (λ m y, if Qlt_le_dec y m then y else m) r x in
  lo ∈ x :: r ∧ ∀ v, v ∈ x :: r → (lo <= v)%Q.
Proof.
  revert x. induction r as [|y r IH]; intros x; simpl.
  - split; [by left|]. intros v ->%list_elem_of_singleton. apply Qle_refl.
  - destruct (Qlt_le_dec y x) as [Hlt|Hle].
    + destruct (IH y) as [Hin Hall]. split.
      * right. exact Hin.
      * intros v [->|Hv]%elem_of_cons; [|by apply Hall].
        apply Qle_trans with y; [apply Hall; by left|by apply Qlt_le_weak].
    + destruct (IH x) as [Hin Hall]. split.
      * apply elem_of_cons in Hin as [->|Hin]; [by left|right; by right].
      * intros v [->|[->|Hv]%elem_of_cons]%elem_of_cons.
        -- apply Hall. by left.
        -- apply Qle_trans with x; [apply Hall; by left|done].
        -- apply Hall. by right.
Qed.

Lemma fold_max_spec (r : list Q) (x : Q) :
  let hi := fold_left (λ m y, if Qlt_le_dec m y then y else m) r x in
  hi ∈ x :: r ∧ ∀ v, v ∈ x :: r → (v <= hi)%Q.
Proof.
  revert x. induction r as [|y r IH]; intros x; simpl.
  - split; [by left|]. intros v ->%list_elem_of_singleton. apply Qle_refl.
  - destruct (Qlt_le_dec x y) as [Hlt|Hle].
    + destruct (IH y) as [Hin Hall]. split.
      * right. exact Hin.
      * intros v [->|Hv]%elem_of_cons; [|by apply Hall].
        apply Qle_trans with y; [by apply Qlt_le_weak|apply Hall; by left].
    + destruct (IH x) as [Hin Hall]. split.
      * apply elem_of_cons in Hin as [->|Hin]; [by left|right; by right].
      * intros v [->|[->|Hv]%elem_of_cons]%elem_of_cons.
        -- apply Hall. by left.
        -- apply Qle_trans with x; [done|apply Hall; by left].
        -- apply Hall. by right.
Qed.

Lemma min_spec (xs : list Q) (lo : Q) :
  Py.min xs = Py.Ok lo → lo ∈ xs ∧ ∀ v, v ∈ xs → (lo <= v)%Q.
Proof.
  destruct xs as [|x r]; [done|]. intros [= <-]. apply fold_min_spec.
Qed.

Lemma max_spec (xs : list Q) (hi : Q) :
  Py.max xs = Py.Ok hi → hi ∈ xs ∧ ∀ v, v ∈ xs → (v <= hi)%Q.
Proof.
  destruct xs as [|x r]; [done|]. intros [= <-]. apply fold_max_spec.
Qed.

(** X12: [min_popularity] and [max_popularity] are ratings of the catalog that
    bound every rating of it; on a catalog without rows both calls end in
    [ValueError], and in no other case. *)
Theorem popularity_bounds (rows : list filter_row) :
  (rows = [] →
   min_popularity rows = Py.Raise Py.ValueError
   ∧ max_popularity rows = Py.Raise Py.ValueError)
  ∧ (rows ≠ [] →
     ∃ lo hi,
       min_popularity rows = Py.Ok lo ∧ max_popularity rows = Py.Ok hi
       ∧ lo ∈ map fl_rating rows ∧ hi ∈ map fl_rating rows
       ∧ ∀ r, r ∈ rows → (lo <= fl_rating r)%Q ∧ (fl_rating r <= hi)%Q).
Proof.
  split; [by intros ->|]. intros Hne. unfold min_popularity, max_popularity.
  destruct (Py.min (map fl_rating rows)) as [lo|e] eqn:Hmin.
  2:{ destruct rows; [done|]. discriminate. }
  destruct (Py.max (map fl_rating rows)) as [hi|e] eqn:Hmax.
  2:{ destruct rows; [done|]. discriminate. }
  apply min_spec in Hmin as [Hlo Hmin]. apply max_spec in Hmax as [Hhi Hmax].
  exists lo, hi. repeat split; try done.
  - apply Hmin. by apply list_elem_of_fmap_2.
  - apply Hmax. by apply list_elem_of_fmap_2.
Qed.

(** ** The targets *)

Lemma collaborative_based_ratings
    (sample : list (option nat * option nat * Q)
              → list (option nat * option nat * Q))
    (rows : list filter_row) :
  (∀ l, sample l ≡ₚ l) →
  map snd (collaborative_based sample rows) ≡ₚ map fl_rating rows.
Proof.
  intros Hperm. unfold collaborative_based. rewrite Hperm.
  rewrite snd_zip; [done|].
  unfold track, name. rewrite length_zip_with, !length_map. lia.
Qed.

Lemma normalize_rating_Ok (lo hi v : Q) :
  ¬ (lo == hi)%Q → normalize_rating lo hi v = Py.Ok ((v - lo) / (hi - lo))%Q.
Proof.
  intros Hne. unfold normalize_rating, Py.div.
  destruct (Qeq_bool (hi - lo) 0) eqn:Hz; [|done].
  apply Qeq_bool_iff in Hz. exfalso. apply Hne. Lqa.lra.
Qed.

Lemma normalize_rating_range (lo hi v : Q) :
  (lo <= v)%Q → (v <= hi)%Q → ¬ (lo == hi)%Q →
  (0 <= (v - lo) / (hi - lo))%Q ∧ ((v - lo) / (hi - lo) <= 1)%Q.
Proof.
  intros H1 H2 Hne.
  assert (0 < hi - lo)%Q as Hpos.
  { destruct (Qlt_le_dec lo hi) as [?|Hle]; [Lqa.lra|].
    exfalso. apply Hne. Lqa.lra. }
  split.
  - apply Qle_shift_div_l; [done|]. Lqa.lra.
  - apply Qle_shift_div_r; [done|]. Lqa.lra.
Qed.

(** X13: when the least and the greatest rating differ, the targets are computed
    without an error, one per row: each is [(rating - min) / (max - min)]
    and lies between 0 and 1, some row gets 0 and some row gets 1. *)
Theorem targets_lie_between_0_and_1
    (sample : list (option nat * option nat * Q)
              → list (option nat * option nat * Q))
    (rows : list filter_row) (lo hi : Q) :
  (∀ l, sample l ≡ₚ l) →
  min_popularity rows = Py.Ok lo →
  max_popularity rows = Py.Ok hi →
  ¬ (lo == hi)%Q →
  ∃ ys,
    y sample rows = Py.Ok ys
    ∧ ys = map (λ p, ((p.2 - lo) / (hi - lo))%Q)
             (collaborative_based sample rows)
    ∧ length ys = length rows
    ∧ Forall (λ v, (0 <= v)%Q ∧ (v <= 1)%Q) ys
    ∧ Exists (λ v, (v == 0)%Q) ys ∧ Exists (λ v, (v == 1)%Q) ys.
Proof.
  intros Hperm Hmin Hmax Hne.
  pose proof (collaborative_based_ratings sample rows Hperm) as Hrat.
  set (cb := collaborative_based sample rows) in *.
  assert (y sample rows
          = Py.Ok (map (λ p, ((p.2 - lo) / (hi - lo))%Q) cb)) as Hy.
  { unfold y. rewrite Hmin, Hmax. unfold_outcome. fold cb.
    apply traverse_Ok.
    apply Forall2_fmap, Forall_Forall2_diag, Forall_forall.
    intros p _. simpl. by apply normalize_rating_Ok. }
  unfold min_popularity, max_popularity in Hmin, Hmax.
  apply min_spec in Hmin as [Hlo Hmin]. apply max_spec in Hmax as [Hhi Hmax].
  eexists. split; [exact Hy|]. split; [done|]. split; [|split; [|split]].
  - rewrite length_map, <- (length_map snd cb), Hrat. by rewrite length_map.
  - apply Forall_fmap, Forall_forall. intros p Hp. simpl.
    assert (p.2 ∈ map fl_rating rows) as Hin.
    { rewrite <- Hrat. by apply list_elem_of_fmap_2. }
    apply normalize_rating_range; [by apply Hmin|by apply Hmax|done].
  - rewrite <- Hrat in Hlo. apply list_elem_of_fmap in Hlo as (p & Hp & Hin).
    apply Exists_exists. exists ((p.2 - lo) / (hi - lo))%Q. split.
    + by apply (list_elem_of_fmap_2 (λ p, ((p.2 - lo) / (hi - lo))%Q)).
    + rewrite <- Hp. unfold Qminus. rewrite Qplus_opp_r. reflexivity.
  - rewrite <- Hrat in Hhi. apply list_elem_of_fmap in Hhi as (p & Hp & Hin).
    apply Exists_exists. exists ((p.2 - lo) / (hi - lo))%Q. split.
    + by apply (list_elem_of_fmap_2 (λ p, ((p.2 - lo) / (hi - lo))%Q)).
    + rewrite <- Hp. apply Qmult_inv_r. intros H0. apply Hne. Lqa.lra.
Qed.

Lemma targets_lie_between_0_and_1_witness :
  (∀ l : list (option nat * option nat * Q), reverse l ≡ₚ l)
  ∧ min_popularity scenario_rows = Py.Ok (7 # 2)
  ∧ max_popularity scenario_rows = Py.Ok 4%Q
  ∧ ¬ (7 # 2 == 4)%Q
  ∧ ∃ ys,
      y reverse scenario_rows = Py.Ok ys
      ∧ ys = map (λ p, ((p.2 - (7 # 2)) / (4 - (7 # 2)))%Q)
               (collaborative_based reverse scenario_rows)
      ∧ length ys = length scenario_rows
      ∧ Forall (λ v, (0 <= v)%Q ∧ (v <= 1)%Q) ys
      ∧ Exists (λ v, (v == 0)%Q) ys ∧ Exists (λ v, (v == 1)%Q) ys.
Proof.
  assert (∀ l : list (option nat * option nat * Q), reverse l ≡ₚ l) as Hp
    by (intros l; apply reverse_Permutation).
  assert (min_popularity scenario_rows = Py.Ok (7 # 2)) as Hmin by reflexivity.
  assert (max_popularity scenario_rows = Py.Ok 4%Q) as Hmax by reflexivity.
  assert (¬ (7 # 2 == 4)%Q) as Hne by (vm_compute; congruence).
  split; [exact Hp|]. split; [exact Hmin|]. split; [exact Hmax|].
  split; [exact Hne|].
  exact (targets_lie_between_0_and_1 reverse scenario_rows (7 # 2) 4
           Hp Hmin Hmax Hne).
Defined.

(** ** Training and validation samples *)

Lemma slice_to_from {A} (t : Z) (l : list A) :
  slice_to t l ++ Py.slice_from t l = l.
Proof. unfold slice_to, Py.slice_from. apply take_drop. Qed.

Lemma slice_to_length {A} (t : Z) (l : list A) :
  length (slice_to t l) = Py.bound (length l) t.
Proof.
  unfold slice_to. rewrite length_take. unfold Py.bound.
  destruct (t <? 0)%Z; lia.
Qed.

Lemma train_indices_bound (n : nat) :
  Py.bound n (train_indices n) = Z.to_nat (train_indices n)
  ∧ (0 ≤ train_indices n)%Z
  ∧ (10 * train_indices n ≤ 8 * Z.of_nat n < 10 * (train_indices n + 1))%Z.
Proof.
  unfold train_indices, Py.bound.
  pose proof (Z.mul_div_le (8 * Z.of_nat n) 10 ltac:(lia)).
  pose proof (Z.mul_succ_div_gt (8 * Z.of_nat n) 10 ltac:(lia)).
  assert (0 ≤ 8 * Z.of_nat n / 10)%Z by (apply Z.div_pos; lia).
  destruct (Z.ltb_spec (8 * Z.of_nat n / 10) 0); lia.
Qed.

(** X14: the cut at [int(0.8 * n)] shares the samples between training and
    validation without loss, overlap or reordering, cuts the pairs and the
    targets at the same place, and gives training the integer part of eight
    tenths of the samples; what is left for validation is never empty, so
    with a single sample training gets nothing. *)
Theorem train_val_split_partitions {A B} (xs : list A) (ys : list B) :
  length xs = length ys →
  ∃ x_train x_val y_train y_val,
    train_val_split xs ys = (x_train, x_val, y_train, y_val)
    ∧ x_train ++ x_val = xs ∧ y_train ++ y_val = ys
    ∧ length x_train = length y_train ∧ length x_val = length y_val
    ∧ Z.of_nat (length x_train) = train_indices (length xs)
    ∧ 10 * length x_train ≤ 8 * length xs < 10 * (length x_train + 1)
    ∧ (xs ≠ [] → x_val ≠ [])
    ∧ (length xs = 1 → x_train = []).
Proof.
  intros Hlen. unfold train_val_split.
  set (t := train_indices (length xs)).
  destruct (train_indices_bound (length xs)) as (Hb & H0 & Ht). fold t in Hb, H0, Ht.
  assert (length (slice_to t xs) = Z.to_nat t) as Hx
    by by rewrite slice_to_length.
  assert (length (slice_to t ys) = Z.to_nat t) as Hy
    by by rewrite slice_to_length, <- Hlen.
  pose proof (slice_to_from t xs) as Hpx.
  pose proof (slice_to_from t ys) as Hpy.
  do 4 eexists. split; [done|]. split; [done|]. split; [done|].
  split; [lia|].
  assert (length (Py.slice_from t xs) = length xs - Z.to_nat t) as Hvx.
  { apply (f_equal length) in Hpx. rewrite length_app in Hpx. lia. }
  assert (length (Py.slice_from t ys) = length xs - Z.to_nat t) as Hvy.
  { apply (f_equal length) in Hpy. rewrite length_app in Hpy. lia. }
  split; [lia|]. split; [lia|]. split; [lia|]. split.
  - intros Hne Hnil. rewrite Hnil in Hvx. simpl in Hvx.
    destruct xs; [done|]. simpl length in *. lia.
  - intros H1. apply length_zero_iff_nil. rewrite H1 in *. lia.
Qed.

Lemma train_val_split_partitions_witness :
  length (x reverse scenario_rows) = length [1%Q; 0%Q]
  ∧ ∃ x_train x_val y_train y_val,
      train_val_split (x reverse scenario_rows) [1%Q; 0%Q]
      = (x_train, x_val, y_train, y_val)
      ∧ x_train ++ x_val = x reverse scenario_rows
      ∧ y_train ++ y_val = [1%Q; 0%Q]
      ∧ length x_train = length y_train ∧ length x_val = length y_val
      ∧ Z.of_nat (length x_train)
        = train_indices (length (x reverse scenario_rows))
      ∧ 10 * length x_train ≤ 8 * length (x reverse scenario_rows)
          < 10 * (length x_train + 1)
      ∧ (x reverse scenario_rows ≠ [] → x_val ≠ [])
      ∧ (length (x reverse scenario_rows) = 1 → x_train = []).
Proof.
  assert (length (x reverse scenario_rows) = length [1%Q; 0%Q]) as H
    by reflexivity.
  split; [exact H|].
  exact (train_val_split_partitions (x reverse scenario_rows) [1%Q; 0%Q] H).
Defined.

(** ** The tokens of a feature string *)

Section features.
Import Sklearn.

Lemma fields_app (P : ascii → bool) (s t : string) (c : ascii) :
  P c = true →
  Py.fields P (s +:+ String c t) = Py.fields P s ++ Py.fields P t.
Proof.
  intros Hc. induction s as [|a s IH]; simpl.
  - by rewrite Hc.
  - rewrite IH. destruct (P a); [done|].
    pose proof (fields_not_nil P s) as Hne.
    by destruct (Py.fields P s).
Qed.

Lemma fields_whole (P : ascii → bool) (s : string) :
  Forall (λ c, P c = false) (chars s) → Py.fields P s = [s].
Proof.
  induction s as [|a s IH]; simpl; [done|].
  intros [Ha Hs]%Forall_cons. rewrite Ha, IH by done. done.
Qed.

Lemma map_chars_app (f : ascii → ascii) (s t : string) :
  Py.map_chars f (s +:+ t) = Py.map_chars f s +:+ Py.map_chars f t.
Proof. induction s as [|a s IH]; simpl; [done|]. by rewrite IH. Qed.

Lemma map_chars_fixed (f : ascii → ascii) (s : string) :
  Forall (λ c, f c = c) (chars s) → Py.map_chars f s = s.
Proof.
  induction s as [|a s IH]; simpl; [done|].
  intros [Ha Hs]%Forall_cons. by rewrite Ha, IH.
Qed.

(** A space ends a token. *)
Lemma analyze_app (s t : string) :
  analyze (s +:+ " " +:+ t) = analyze s ++ analyze t.
Proof.
  unfold analyze, tokenize, Py.lower.
  rewrite map_chars_app. simpl Py.map_chars.
  change (Py.lower_char " ") with " "%char.
  change (String " " "" +:+ ?u) with (String " " u).
  rewrite fields_app by done. by rewrite filter_app.
Qed.

Lemma analyze_join (ws : list string) :
  analyze (Py.join " " ws) = concat (map analyze ws).
Proof.
  induction ws as [|w ws IH]; [done|].
  destruct ws as [|w' ws].
  - simpl. by rewrite app_nil_r.
  - rewrite join_cons by done. rewrite analyze_app, IH. done.
Qed.

Lemma digit_is_word_char (c : ascii) :
  is_digit c = true → is_word_char c = true ∧ Py.lower_char c = c.
Proof. by destruct c as [[] [] [] [] [] [] [] []]. Qed.

(** A decimal numeral is one token when it has two digits or more. *)
Lemma analyze_str_of_nat (n : nat) :
  analyze (Py.str_of_nat n)
  = filter (λ w, 2 ≤ String.length w) [Py.str_of_nat n].
Proof.
  unfold analyze, tokenize, Py.lower.
  pose proof (str_of_nat_digits n) as Hd.
  rewrite map_chars_fixed.
  - rewrite fields_whole; [done|].
    eapply Forall_impl; [exact Hd|]. intros c Hc. simpl.
    apply digit_is_word_char in Hc as [-> _]. done.
  - eapply Forall_impl; [exact Hd|]. intros c Hc.
    by apply digit_is_word_char in Hc as [_ ?].
Qed.

Lemma str_of_nat_not_empty (n : nat) : Py.str_of_nat n ≠ "".
Proof.
  unfold Py.str_of_nat. intros H.
  assert (Nat.to_uint n = Decimal.Nil) as Hnil.
  { destruct (Nat.to_uint n); simpl in H; done. }
  pose proof (Unsigned.to_of (Nat.to_uint n)) as Hto.
  rewrite Unsigned.of_to, Hnil in Hto. done.
Qed.

(** Two digits or more: ten or more. *)
Lemma str_of_nat_length (n : nat) :
  2 ≤ String.length (Py.str_of_nat n) ↔ 10 ≤ n.
Proof.
  split.
  - intros Hlen. destruct (decide (10 ≤ n)) as [|Hlt]; [done|]. exfalso.
    assert (n < 10) as Hn by lia. clear Hlt.
    do 10 (destruct n as [|n]; [vm_compute in Hlen; lia|]). lia.
  - intros Hn.
    destruct (Py.str_of_nat n) as [|c [|c' s]] eqn:Hs; simpl; [| |lia].
    + by apply str_of_nat_not_empty in Hs.
    + exfalso. pose proof (str_of_nat_digits n) as Hd. rewrite Hs in Hd.
      apply Forall_cons in Hd as [Hc _].
      assert (∃ k, k < 10 ∧ Py.str_of_nat k = String c "") as (k & Hk & Hsk).
      { destruct c as [[] [] [] [] [] [] [] []]; try done;
          first [exists 0; split; [lia|reflexivity]
                |exists 1; split; [lia|reflexivity]
                |exists 2; split; [lia|reflexivity]
                |exists 3; split; [lia|reflexivity]
                |exists 4; split; [lia|reflexivity]
                |exists 5; split; [lia|reflexivity]
                |exists 6; split; [lia|reflexivity]
                |exists 7; split; [lia|reflexivity]
                |exists 8; split; [lia|reflexivity]
                |exists 9; split; [lia|reflexivity]]. }
      rewrite <- Hs in Hsk. apply str_of_nat_inj in Hsk. lia.
Qed.

Lemma analyze_features (ws : list string) (n : nat) :
  analyze (Py.join " " ws +:+ " " +:+ Py.str_of_nat n)
  = concat (map analyze ws)
    ++ (if decide (10 ≤ n) then [Py.str_of_nat n] else []).
Proof.
  rewrite analyze_app, analyze_join, analyze_str_of_nat. f_equal.
  rewrite filter_cons, filter_nil.
  destruct (decide (10 ≤ n)) as [H|H];
    destruct (decide (2 ≤ String.length (Py.str_of_nat n))) as [H'|H'];
    try done.
  - by apply str_of_nat_length in H.
  - by apply str_of_nat_length in H'.
Qed.

(** X6: the tokens of the feature string of a record whose title and genre
    field are ASCII text: those of its genres, in order, then the number of
    characters of its title, which is a token when the title has ten
    characters or more and is dropped otherwise. *)
Theorem feature_tokens
    (ratings : list rating_row) (movies : list movie) (c : content_row) :
  c ∈ dataset_content ratings movies →
  is_ascii (dc_title c) = true →
  is_ascii (dc_genres c) = true →
  analyze (dc_content_features c)
  = concat (map analyze (Py.split_on "|" (dc_genres c)))
    ++ (if decide (10 ≤ String.length (dc_title c))
        then [Py.str_of_nat (String.length (dc_title c))] else []).
Proof.
  intros (r & m & _ & _ & _ & ->)%dataset_content_row _ _. simpl.
  apply analyze_features.
Qed.
End features.

Lemma feature_tokens_witness :
  let c := {| dc_movieId := 2; dc_title := "Heat (1995)";
              dc_genres := "Action|Crime"; dc_rating := 7 # 2;
              dc_genres_split := ["Action"; "Crime"]; dc_title_length := 11;
              dc_movie_label := "Heat (1995) (Action|Crime)";
              dc_content_features := "Action Crime 11" |} in
  c ∈ dataset_content scenario_ratings scenario_movies
  ∧ is_ascii (dc_title c) = true
  ∧ is_ascii (dc_genres c) = true
  ∧ Sklearn.analyze (dc_content_features c)
    = concat (map Sklearn.analyze (Py.split_on "|" (dc_genres c)))
      ++ (if decide (10 ≤ String.length (dc_title c))
          then [Py.str_of_nat (String.length (dc_title c))] else []).
Proof.
  intros c.
  assert (c ∈ dataset_content scenario_ratings scenario_movies) as H
    by (right; left).
  assert (is_ascii (dc_title c) = true) as Ht by reflexivity.
  assert (is_ascii (dc_genres c) = true) as Hg by reflexivity.
  split; [exact H|]. split; [exact Ht|]. split; [exact Hg|].
  exact (feature_tokens scenario_ratings scenario_movies c H Ht Hg).
Defined.

(** ** When the encoder fails *)

Section encoder_errors.
Import Sklearn.

Lemma vocabulary_nil (docs : list string) :
  vocabulary docs = [] ↔ Forall (λ d, analyze d = []) docs.
Proof.
  split.
  - intros Hv. apply Forall_forall. intros d Hd.
    destruct (analyze d) as [|t ts] eqn:Ha; [done|].
    assert (t ∈ vocabulary docs) as Ht.
    { apply vocabulary_elem. exists d. split; [done|]. rewrite Ha. by left. }
    rewrite Hv in Ht. by apply not_elem_of_nil in Ht.
  - intros Hall. destruct (vocabulary docs) as [|t ts] eqn:Hv; [done|].
    assert (t ∈ vocabulary docs) as Ht by (rewrite Hv; by left).
    apply vocabulary_elem in Ht as (d & Hd & Ht).
    rewrite Forall_forall in Hall. rewrite (Hall d Hd) in Ht.
    by apply not_elem_of_nil in Ht.
Qed.

Lemma fit_transform_Raise (docs : list string) (e : Py.exn) :
  fit_transform docs = Py.Raise e →
  e = Py.ValueError ∧ vocabulary docs = [].
Proof.
  unfold fit_transform. destruct (vocabulary docs); [|done]. by intros [= <-].
Qed.

Lemma cosine_sim_df_Raise (items : list item) (e : Py.exn) :
  cosine_sim_df items = Py.Raise e →
  e = Py.ValueError ∧ vocabulary (map it_content_features items) = [].
Proof.
  unfold cosine_sim_df, cosine_sim, tfidf_matrix. unfold_outcome.
  destruct (fit_transform _) as [X|e'] eqn:HX; [done|].
  intros [= <-]. by apply fit_transform_Raise in HX.
Qed.

Lemma cosine_sim_df_Ok (items : list item) :
  vocabulary (map it_content_features items) ≠ [] ↔
  ∃ sd, cosine_sim_df items = Py.Ok sd.
Proof.
  unfold cosine_sim_df, cosine_sim, tfidf_matrix, fit_transform.
  destruct (vocabulary _); unfold_outcome.
  - split; [done|]. by intros [sd ?].
  - split; [by eexists|done].
Qed.

Lemma vocabulary_items_nil (items : list item) :
  vocabulary (map it_content_features items) = []
  ↔ Forall (λ it, analyze (it_content_features it) = []) items.
Proof. rewrite vocabulary_nil. by rewrite Forall_fmap. Qed.

(** X17: the similarity frame cannot be built exactly when no feature string of
    the catalog has a token, which includes the empty catalog; the failure is
    the [ValueError] of the vectorizer.  In every other case the frame has
    one row and one column per catalog row, labelled alike. *)
Theorem similarity_frame_needs_a_token (items : list item) :
  (cosine_sim_df items = Py.Raise Py.ValueError
   ↔ Forall (λ it, analyze (it_content_features it) = []) items)
  ∧ (∀ e, cosine_sim_df items = Py.Raise e → e = Py.ValueError)
  ∧ (Exists (λ it, analyze (it_content_features it) ≠ []) items
     ↔ ∃ sd, cosine_sim_df items = Py.Ok sd)
  ∧ (∀ sd, cosine_sim_df items = Py.Ok sd → square_over sd items).
Proof.
  pose proof (vocabulary_items_nil items) as Hv.
  split; [|split; [|split]].
  - split.
    + intros H. apply Hv. by apply cosine_sim_df_Raise in H as [_ ?].
    + intros Hall. apply Hv in Hall.
      destruct (cosine_sim_df items) as [sd|e] eqn:H.
      * exfalso. by apply (proj2 (cosine_sim_df_Ok items)); [exists sd|].
      * by apply cosine_sim_df_Raise in H as [-> _].
  - intros e H. by apply cosine_sim_df_Raise in H as [? _].
  - rewrite <- cosine_sim_df_Ok. split.
    + intros Hex Hnil. apply Hv in Hnil.
      apply Exists_exists in Hex as (it & Hit & Hne).
      rewrite Forall_forall in Hnil. by apply Hne, Hnil.
    + intros Hne. apply not_Forall_Exists; [intros it; apply _|].
      intros Hall. by apply Hne, Hv.
  - apply cosine_sim_df_square.
Qed.

(** X18: a catalog that has a title of ten characters or more gets its
    similarity frame. *)
Theorem long_title_gives_a_similarity_frame
    (ratings : list rating_row) (movies : list movie) (c : content_row) :
  c ∈ dataset_content ratings movies →
  10 ≤ String.length (dc_title c) →
  ∃ sd,
    cosine_sim_df (content_based_data (dataset_content ratings movies))
    = Py.Ok sd
    ∧ square_over sd (content_based_data (dataset_content ratings movies)).
Proof.
  intros Hc Hlen.
  set (items := content_based_data (dataset_content ratings movies)).
  destruct (proj1 (cosine_sim_df_Ok items)) as [sd Hsd];
    [|exists sd; split; [done|by apply cosine_sim_df_square]].
  intros Hnil. apply vocabulary_items_nil in Hnil.
  rewrite Forall_forall in Hnil.
  specialize (Hnil {| it_title := dc_title c;
                      it_movie_label := dc_movie_label c;
                      it_content_features := dc_content_features c |}).
  simpl in Hnil.
  destruct (dataset_content_row ratings movies c Hc)
    as (r & m & _ & _ & _ & ->).
  simpl in Hnil, Hlen. rewrite analyze_features in Hnil.
  destruct (decide (10 ≤ String.length (mv_title m))); [|done].
  assert (concat (map analyze (Py.split_on "|" (mv_genres m)))
            ++ [Py.str_of_nat (String.length (mv_title m))] = []) as H.
  { apply Hnil. unfold items, content_based_data.
    apply list_elem_of_fmap. eexists. split; [|exact Hc]. done. }
  by apply app_eq_nil in H as [_ ?].
Qed.
End encoder_errors.

Lemma long_title_gives_a_similarity_frame_witness :
  let c := {| dc_movieId := 1; dc_title := "Toy Story (1995)";
              dc_genres := "Adventure|Animation"; dc_rating := 4;
              dc_genres_split := ["Adventure"; "Animation"];
              dc_title_length := 16;
              dc_movie_label := "Toy Story (1995) (Adventure|Animation)";
              dc_content_features := "Adventure Animation 16" |} in
  c ∈ dataset_content scenario_ratings scenario_movies
  ∧ 10 ≤ String.length (dc_title c)
  ∧ ∃ sd,
      cosine_sim_df
        (content_based_data (dataset_content scenario_ratings scenario_movies))
      = Py.Ok sd
      ∧ square_over sd
          (content_based_data
             (dataset_content scenario_ratings scenario_movies)).
Proof.
  intros c.
  assert (c ∈ dataset_content scenario_ratings scenario_movies) as H1 by left.
  assert (10 ≤ String.length (dc_title c)) as H2 by (simpl; lia).
  split; [exact H1|]. split; [exact H2|].
  exact (long_title_gives_a_similarity_frame scenario_ratings scenario_movies
           c H1 H2).
Defined.

(** ** Similarity and shared tokens *)

Section shared_tokens.
Import Sklearn.
Local Open Scope R_scope.

Lemma tf_zero (t d : string) : tf t d = 0%nat ↔ t ∉ analyze d.
Proof.
  split.
  - intros H0 Hin. apply tf_positive in Hin. lia.
  - intros Hn. unfold tf. rewrite filter_none; [done|].
    intros w Hw ->. done.
Qed.

Lemma dot_scale_l (u v : list R) (c : R) :
  dot (map (λ x, x / c) u) v = dot u v / c.
Proof.
  unfold dot. revert v. induction u as [|x u IH]; intros [|y v]; simpl;
    try (unfold Rdiv; ring).
  rewrite IH. unfold Rdiv. ring.
Qed.

Lemma dot_normalize_l (u v : list R) :
  dot (normalize_row u) v = 0 ↔ dot u v = 0.
Proof.
  unfold normalize_row.
  destruct (Req_dec_T (sqrt (sum_squares u)) 0) as [?|Hn]; [done|].
  rewrite dot_scale_l. split.
  - intros H. apply (f_equal (λ z, z * sqrt (sum_squares u))) in H.
    unfold Rdiv in H. rewrite Rmult_assoc, Rinv_l in H by done. lra.
  - intros ->. unfold Rdiv. ring.
Qed.

Lemma dot_normalize (u v : list R) :
  dot (normalize_row u) (normalize_row v) = 0 ↔ dot u v = 0.
Proof.
  rewrite dot_normalize_l, dot_comm, dot_normalize_l, dot_comm. done.
Qed.

Lemma dot_map_zero (f g : string → R) (V : list string) :
  (∀ t, 0 <= f t) → (∀ t, 0 <= g t) →
  dot (map f V) (map g V) = 0 ↔ ∀ t, t ∈ V → f t * g t = 0.
Proof.
  intros Hf Hg. unfold dot. induction V as [|t V IH]; simpl.
  - split; [|done]. intros _ t Ht. by apply not_elem_of_nil in Ht.
  - assert (0 <= dot (map f V) (map g V)) as Hrest.
    { apply dot_nonneg; apply Forall_fmap, Forall_forall; intros; simpl;
        [apply Hf|apply Hg]. }
    unfold dot in Hrest.
    pose proof (Rmult_le_pos _ _ (Hf t) (Hg t)) as Hhead.
    split.
    + intros H u [->|Hu]%elem_of_cons; [lra|]. apply IH; [lra|done].
    + intros H. rewrite (H t) by by left.
      rewrite (proj2 IH); [lra|]. intros u Hu. apply H. by right.
Qed.

Lemma weights_dot_zero (docs : list string) (da db : string) :
  da ∈ docs →
  dot (weights docs da) (weights docs db) = 0
  ↔ ∀ t, t ∈ analyze da → t ∉ analyze db.
Proof.
  intros Hda. unfold weights. rewrite dot_map_zero.
  - split.
    + intros H t Ha Hb.
      assert (t ∈ vocabulary docs) as Hv
        by (apply vocabulary_elem; by exists da).
      specialize (H t Hv). pose proof (idf_ge_1 docs t) as Hidf.
      apply tf_positive, lt_INR in Ha, Hb. simpl in Ha, Hb.
      assert (0 < INR (tf t da) * idf docs t * (INR (tf t db) * idf docs t));
        [|lra].
      apply Rmult_lt_0_compat; apply Rmult_lt_0_compat; lra.
    + intros H t _. destruct (decide (t ∈ analyze da)) as [Ha|Ha].
      * rewrite (proj2 (tf_zero t db)) by by apply H. simpl. ring.
      * rewrite (proj2 (tf_zero t da)) by done. simpl. ring.
  - intros t. pose proof (idf_ge_1 docs t). pose proof (pos_INR (tf t da)).
    apply Rmult_le_pos; lra.
  - intros t. pose proof (idf_ge_1 docs t). pose proof (pos_INR (tf t db)).
    apply Rmult_le_pos; lra.
Qed.

(** X19: the similarity of two movies is 0 exactly when their feature
    strings have no token in common, and positive otherwise; two movies with
    the same feature string (the same genres and the same title length) are
    as similar to each other as each is to itself. *)
Theorem similarity_and_shared_tokens
    (items : list item) (S : list (list R)) (a b : nat) (ia ib : item) :
  cosine_sim items = Py.Ok S →
  items !! a = Some ia → items !! b = Some ib →
  ∃ s,
    entry S a b = Some s
    ∧ (s = 0 ↔ ∀ t, t ∈ analyze (it_content_features ia)
                     → t ∉ analyze (it_content_features ib))
    ∧ (0 < s ↔ ∃ t, t ∈ analyze (it_content_features ia)
                    ∧ t ∈ analyze (it_content_features ib))
    ∧ (it_content_features ia = it_content_features ib →
       entry S a a = Some s ∧ entry S b b = Some s ∧ entry S b a = Some s).
Proof.
  intros HS Ha Hb.
  pose proof (cosine_sim_entry items S a b ia ib HS Ha Hb) as He.
  simpl in He. set (docs := map it_content_features items) in *.
  assert (it_content_features ia ∈ docs) as Hda.
  { apply list_elem_of_fmap_2. by eapply list_elem_of_lookup_2. }
  assert (dot (normalize_row (weights docs (it_content_features ia)))
              (normalize_row (weights docs (it_content_features ib))) = 0
          ↔ ∀ t, t ∈ analyze (it_content_features ia)
                 → t ∉ analyze (it_content_features ib)) as Hzero.
  { rewrite dot_normalize. by apply weights_dot_zero. }
  eexists. split; [exact He|]. split; [exact Hzero|]. split.
  - pose proof (cosine_bounds (weights docs (it_content_features ia))
                  (weights docs (it_content_features ib))
                  (weights_nonneg _ _) (weights_nonneg _ _)) as [H0 _].
    split.
    + intros Hpos.
      destruct (decide (Exists (λ t, t ∈ analyze (it_content_features ib))
                          (analyze (it_content_features ia)))) as [Hex|Hno].
      * apply Exists_exists in Hex as (t & ? & ?). by exists t.
      * exfalso. assert (dot (normalize_row (weights docs (it_content_features ia)))
                     (normalize_row (weights docs (it_content_features ib))) = 0);
          [|lra].
        apply Hzero. intros t Hta Htb. apply Hno. apply Exists_exists.
        by exists t.
    + intros (t & Hta & Htb).
      destruct H0 as [H0|H0]; [done|]. exfalso. symmetry in H0.
      by apply (proj1 Hzero H0 t).
  - intros Heq.
    rewrite (cosine_sim_entry items S a a ia ia HS Ha Ha),
      (cosine_sim_entry items S b b ib ib HS Hb Hb),
      (cosine_sim_entry items S b a ib ia HS Hb Ha).
    simpl. fold docs. by rewrite Heq.
Qed.
End shared_tokens.

Lemma cosine_sim_sequels : cosine_sim sequels_items = Py.Ok sequels_similarity.
Proof.
  unfold cosine_sim, tfidf_matrix, Sklearn.fit_transform.
  assert (Sklearn.vocabulary (map it_content_features sequels_items)
          = ["18"; "adventure"; "animation"; "children"; "comedy"; "fantasy"])
    as -> by (vm_compute; reflexivity).
  reflexivity.
Qed.

Lemma similarity_and_shared_tokens_witness :
  cosine_sim sequels_items = Py.Ok sequels_similarity
  ∧ sequels_items !! 0%nat = Some toy_story_2
  ∧ sequels_items !! 1%nat = Some toy_story_3
  ∧ ∃ s,
      entry sequels_similarity 0 1 = Some s
      ∧ (s = 0%R ↔ ∀ t, t ∈ Sklearn.analyze (it_content_features toy_story_2)
                        → t ∉ Sklearn.analyze (it_content_features toy_story_3))
      ∧ ((0 < s)%R
         ↔ ∃ t, t ∈ Sklearn.analyze (it_content_features toy_story_2)
                ∧ t ∈ Sklearn.analyze (it_content_features toy_story_3))
      ∧ (it_content_features toy_story_2 = it_content_features toy_story_3 →
         entry sequels_similarity 0 0 = Some s
         ∧ entry sequels_similarity 1 1 = Some s
         ∧ entry sequels_similarity 1 0 = Some s).
Proof.
  split; [exact cosine_sim_sequels|]. split; [reflexivity|].
  split; [reflexivity|].
  exact (similarity_and_shared_tokens sequels_items sequels_similarity 0 1
           toy_story_2 toy_story_3 cosine_sim_sequels eq_refl eq_refl).
Defined.

(** ** The weights of the TF-IDF matrix *)

Section weights_sign.
Import Sklearn.
Local Open Scope R_scope.

Lemma normalize_row_lookup (v : list R) (j : nat) (w : R) :
  v !! j = Some w →
  ∃ w', normalize_row v !! j = Some w' ∧ (0 < w → 0 < w') ∧ (w = 0 → w' = 0).
Proof.
  intros Hj. unfold normalize_row.
  destruct (Req_dec_T (sqrt (sum_squares v)) 0) as [?|Hn].
  - exists w. done.
  - exists (w / sqrt (sum_squares v)). rewrite list_lookup_fmap, Hj.
    split; [done|].
    pose proof (sqrt_pos (sum_squares v)) as Hs.
    assert (0 < sqrt (sum_squares v)) as Hpos by lra.
    split.
    + intros Hw. by apply Rdiv_lt_0_compat.
    + intros ->. unfold Rdiv. ring.
Qed.

(** X16: the row of a movie in the TF-IDF matrix has one weight per term of the
    vocabulary, between 0 and 1, and the weight of a term is positive
    exactly when the term is a token of the feature string of the movie; the
    vocabulary has every token of the corpus once. *)
Theorem tfidf_weight_positive_iff_term_occurs
    (docs : list string) (X : list (list R)) (i j : nat) (d t : string) :
  fit_transform docs = Py.Ok X →
  docs !! i = Some d → vocabulary docs !! j = Some t →
  NoDup (vocabulary docs)
  ∧ ∃ row w,
      X !! i = Some row ∧ length row = length (vocabulary docs)
      ∧ row !! j = Some w ∧ 0 <= w <= 1
      ∧ (0 < w ↔ t ∈ analyze d) ∧ (w = 0 ↔ t ∉ analyze d).
Proof.
  intros HX Hd Ht. apply fit_transform_Ok in HX. subst X.
  split.
  { unfold vocabulary. rewrite (sort_by_Permutation String.leb).
    apply (unique_NoDup (concat (map analyze docs))). }
  set (w0 := INR (tf t d) * idf docs t).
  assert (weights docs d !! j = Some w0) as Hw0.
  { unfold weights. by rewrite list_lookup_fmap, Ht. }
  destruct (normalize_row_lookup _ j w0 Hw0) as (w & Hw & Hpos & Hzero).
  exists (normalize_row (weights docs d)), w.
  split; [by rewrite list_lookup_fmap, Hd|].
  split; [by rewrite normalize_row_length, weights_length|].
  split; [done|].
  assert (0 <= w) as Hge.
  { pose proof (normalize_row_nonneg _ (weights_nonneg docs d)) as Hall.
    rewrite Forall_forall in Hall. apply Hall.
    by eapply list_elem_of_lookup_2. }
  assert (w <= 1) as Hle.
  { pose proof (normalize_row_le_1 (weights docs d)) as Hsum.
    apply list_elem_of_lookup_2 in Hw.
    apply list_elem_of_split in Hw as (l1 & l2 & Heq).
    rewrite Heq in Hsum.
    assert (∀ l1 l2 : list R, sum_squares (l1 ++ w :: l2)
              = sum_squares l1 + (w * w + sum_squares l2)) as Happ.
    { clear. intros l1 l2. induction l1 as [|x l1 IH]; simpl; [lra|].
      rewrite IH. lra. }
    rewrite Happ in Hsum.
    pose proof (sum_squares_nonneg l1). pose proof (sum_squares_nonneg l2).
    destruct (Rle_dec w 1) as [?|Hgt]; [done|]. exfalso.
    assert (1 < w) as H1 by lra.
    assert (1 * 1 < w * w) by (apply Rmult_le_0_lt_compat; lra). lra. }
  split; [done|].
  pose proof (idf_ge_1 docs t) as Hidf.
  assert (t ∈ analyze d → 0 < w) as Hin.
  { intros Hin. apply Hpos. unfold w0.
    apply tf_positive, lt_INR in Hin. simpl in Hin.
    apply Rmult_lt_0_compat; lra. }
  assert (t ∉ analyze d → w = 0) as Hout.
  { intros Hn. apply Hzero. unfold w0.
    rewrite (proj2 (tf_zero t d) Hn). simpl. ring. }
  split; split.
  - intros Hw'. destruct (decide (t ∈ analyze d)) as [|Hn]; [done|].
    apply Hout in Hn. lra.
  - done.
  - intros Hw' Hin'. apply Hin in Hin'. lra.
  - done.
Qed.
End weights_sign.

Lemma tfidf_weight_positive_iff_term_occurs_witness :
  Sklearn.fit_transform up_docs = Py.Ok up_tfidf
  ∧ up_docs !! 0%nat = Some "Action Crime Thriller 11"
  ∧ Sklearn.vocabulary up_docs !! 1%nat = Some "action"
  ∧ NoDup (Sklearn.vocabulary up_docs)
  ∧ ∃ row w,
      up_tfidf !! 0%nat = Some row
      ∧ length row = length (Sklearn.vocabulary up_docs)
      ∧ row !! 1%nat = Some w ∧ (0 <= w <= 1)%R
      ∧ ((0 < w)%R ↔ "action" ∈ Sklearn.analyze "Action Crime Thriller 11")
      ∧ (w = 0%R ↔ "action" ∉ Sklearn.analyze "Action Crime Thriller 11").
Proof.
  assert (Sklearn.vocabulary up_docs !! 1%nat = Some "action") as Hv
    by (vm_compute; reflexivity).
  split; [exact fit_transform_up|]. split; [reflexivity|]. split; [exact Hv|].
  exact (tfidf_weight_positive_iff_term_occurs up_docs up_tfidf 0 1 _ _
           fit_transform_up eq_refl Hv).
Defined.

(** ** The title query: letter case *)

Lemma lower_upper_char (c : ascii) :
  Py.lower_char (Py.upper_char c) = Py.lower_char c.
Proof. by destruct c as [[] [] [] [] [] [] [] []]. Qed.

Lemma lower_lower_char (c : ascii) :
  Py.lower_char (Py.lower_char c) = Py.lower_char c.
Proof. by destruct c as [[] [] [] [] [] [] [] []]. Qed.

Lemma map_chars_compose (f g : ascii → ascii) (s : string) :
  Py.map_chars f (Py.map_chars g s) = Py.map_chars (λ c, f (g c)) s.
Proof. induction s as [|c s IH]; simpl; [done|]. by rewrite IH. Qed.

Lemma map_chars_ext (f g : ascii → ascii) (s : string) :
  (∀ c, f c = g c) → Py.map_chars f s = Py.map_chars g s.
Proof. intros H. induction s as [|c s IH]; simpl; [done|]. by rewrite H, IH. Qed.

Lemma lower_upper (s : string) : Py.lower (Py.upper s) = Py.lower s.
Proof.
  unfold Py.lower, Py.upper. rewrite map_chars_compose.
  apply map_chars_ext, lower_upper_char.
Qed.

Lemma lower_lower (s : string) : Py.lower (Py.lower s) = Py.lower s.
Proof.
  unfold Py.lower. rewrite map_chars_compose.
  apply map_chars_ext, lower_lower_char.
Qed.

Section letter_case.
Context {V : Type}.
Variable sorter : list (string * V) → list (string * V).

(** X20: on ASCII text (the titles of the catalog and the two titles asked
    for), the title query reads the title through its lower-case form only:
    two spellings that differ in letter case get the same answer when a
    movie matches, so the title in capitals or in small letters finds what
    the title finds; when no movie matches, the message quotes the title as
    it was typed. *)
Theorem query_ignores_letter_case
    (title title' : string) (sd : frame V) (items : list item) (k : Z) :
  is_ascii title = true → is_ascii title' = true →
  Forall (λ it, is_ascii (it_title it) = true) items →
  Py.lower title' = Py.lower title →
  (filter (λ it, Py.lower (it_title it) = Py.lower title) items ≠ [] →
   content_based_movie_recommendations sorter title' sd items k
   = content_based_movie_recommendations sorter title sd items k
   ∧ content_based_movie_recommendations sorter (Py.upper title) sd items k
     = content_based_movie_recommendations sorter title sd items k
   ∧ content_based_movie_recommendations sorter (Py.lower title) sd items k
     = content_based_movie_recommendations sorter title sd items k)
  ∧ (filter (λ it, Py.lower (it_title it) = Py.lower title) items = [] →
     content_based_movie_recommendations sorter title' sd items k
     = Py.Ok (Message ("Judul '" +:+ title'
                         +:+ "' tidak ditemukan dalam dataset."))).
Proof.
  intros _ _ _ Heq.
  assert (∀ t, Py.lower t = Py.lower title →
               filter (λ it, Py.lower (it_title it) = Py.lower title) items ≠ [] →
               content_based_movie_recommendations sorter t sd items k
               = content_based_movie_recommendations sorter title sd items k)
    as Hsame.
  { intros t Ht Hne. unfold content_based_movie_recommendations. rewrite Ht.
    by destruct (filter _ items). }
  split.
  - intros Hne. split; [by apply Hsame|].
    split; apply Hsame; try done; [apply lower_upper|apply lower_lower].
  - intros Hnil. unfold content_based_movie_recommendations.
    by rewrite Heq, Hnil.
Qed.
End letter_case.

Lemma query_ignores_letter_case_witness :
  is_ascii "Toy Story (1995)" = true ∧ is_ascii "TOY story (1995)" = true
  ∧ Forall (λ it, is_ascii (it_title it) = true) three_items
  ∧ Py.lower "TOY story (1995)" = Py.lower "Toy Story (1995)"
  ∧ (filter (λ it, Py.lower (it_title it) = Py.lower "Toy Story (1995)")
       three_items ≠ [] →
     content_based_movie_recommendations stable_desc "TOY story (1995)"
       three_frame three_items 2
     = content_based_movie_recommendations stable_desc "Toy Story (1995)"
         three_frame three_items 2
     ∧ content_based_movie_recommendations stable_desc
         (Py.upper "Toy Story (1995)") three_frame three_items 2
       = content_based_movie_recommendations stable_desc "Toy Story (1995)"
           three_frame three_items 2
     ∧ content_based_movie_recommendations stable_desc
         (Py.lower "Toy Story (1995)") three_frame three_items 2
       = content_based_movie_recommendations stable_desc "Toy Story (1995)"
           three_frame three_items 2)
  ∧ (filter (λ it, Py.lower (it_title it) = Py.lower "Toy Story (1995)")
       three_items = [] →
     content_based_movie_recommendations stable_desc "TOY story (1995)"
       three_frame three_items 2
     = Py.Ok (Message ("Judul '" +:+ "TOY story (1995)"
                         +:+ "' tidak ditemukan dalam dataset."))).
Proof.
  assert (Py.lower "TOY story (1995)" = Py.lower "Toy Story (1995)") as H
    by reflexivity.
  assert (is_ascii "Toy Story (1995)" = true) as H1 by reflexivity.
  assert (is_ascii "TOY story (1995)" = true) as H2 by reflexivity.
  assert (Forall (λ it, is_ascii (it_title it) = true) three_items) as H3
    by (by repeat constructor).
  split; [exact H1|]. split; [exact H2|]. split; [exact H3|].
  split; [exact H|].
  exact (query_ignores_letter_case stable_desc "Toy Story (1995)"
           "TOY story (1995)" three_frame three_items 2 H1 H2 H3 H).
Defined.

(** ** The title query: the column of the matched movie *)

Section columns.
Context {V : Type}.
Variable sorter : list (string * V) → list (string * V).

Lemma filter_fst_length (cs : list (string * list V)) (l : string) :
  length (filter (λ c, c.1 = l) cs) = length (filter (λ x, x = l) (map fst cs)).
Proof.
  induction cs as [|c cs IH]; [done|]. simpl map.
  rewrite !filter_cons. destruct (decide (c.1 = l)); simpl; by rewrite IH.
Qed.

Lemma getitem_by_count (sd : frame V) (l : string) :
  match length (filter (λ x, x = l) (map fst (fr_columns sd))) with
  | 0 => getitem sd l = Py.Raise Py.KeyError
  | 1 => ∃ col, getitem sd l = Py.Ok (Series col)
  | _ => ∃ cols, getitem sd l = Py.Ok (SubFrame cols)
  end.
Proof.
  rewrite <- filter_fst_length. unfold getitem.
  destruct (filter (λ c, c.1 = l) (fr_columns sd)) as [|c1 [|c2 cs]]; simpl;
    [done|by eexists|by eexists].
Qed.

Lemma query_by_count (title : string) (sd : frame V) (items : list item)
    (k : Z) (q : item) :
  head (filter (λ it, Py.lower (it_title it) = Py.lower title) items)
  = Some q →
  match length (filter (λ x, x = it_movie_label q)
                  (map fst (fr_columns sd))) with
  | 0 => content_based_movie_recommendations sorter title sd items k
         = Py.Raise Py.KeyError
  | 1 => ∃ rows, content_based_movie_recommendations sorter title sd items k
                 = Py.Ok (Recommendations rows)
  | _ => content_based_movie_recommendations sorter title sd items k
         = Py.Raise Py.TypeError
  end.
Proof.
  intros Hq. unfold content_based_movie_recommendations.
  destruct (filter _ items) as [|first rest]; [done|].
  simpl in Hq. injection Hq as ->.
  pose proof (getitem_by_count sd (it_movie_label q)) as Hg.
  destruct (length _) as [|[|n]].
  - by rewrite Hg.
  - destruct Hg as [col ->]. unfold_outcome. simpl. by eexists.
  - by destruct Hg as [cols ->].
Qed.

(** X21: with a frame of the caller's own, the title query ends in [KeyError]
    when the label of the matched movie is not a column of the frame, and
    in [TypeError] when several columns carry it; with one such column it
    returns rows. *)
Theorem query_raises_on_missing_or_repeated_column
    (title : string) (sd : frame V) (items : list item) (k : Z) (q : item) :
  head (filter (λ it, Py.lower (it_title it) = Py.lower title) items)
  = Some q →
  let n := length (filter (λ x, x = it_movie_label q)
                     (map fst (fr_columns sd))) in
  (content_based_movie_recommendations sorter title sd items k
   = Py.Raise Py.KeyError ↔ n = 0)
  ∧ (content_based_movie_recommendations sorter title sd items k
     = Py.Raise Py.TypeError ↔ 2 ≤ n)
  ∧ ((∃ rows, content_based_movie_recommendations sorter title sd items k
              = Py.Ok (Recommendations rows)) ↔ n = 1)
  ∧ (n = 0 ↔ it_movie_label q ∉ map fst (fr_columns sd)).
Proof.
  intros Hq n. pose proof (query_by_count title sd items k q Hq) as H.
  fold n in H.
  assert (n = 0 ↔ it_movie_label q ∉ map fst (fr_columns sd)) as H0.
  { unfold n. rewrite length_zero_iff_nil. split.
    - intros Hnil Hin.
      assert (it_movie_label q
                ∈ filter (λ x, x = it_movie_label q) (map fst (fr_columns sd)))
        as Hf by by apply list_elem_of_filter.
      rewrite Hnil in Hf. by apply not_elem_of_nil in Hf.
    - intros Hn. apply filter_none. by intros x Hx ->. }
  split; [|split; [|split; [|done]]].
  - destruct n as [|[|n]]; [done| |].
    + destruct H as [rows ->]. done.
    + rewrite H. done.
  - destruct n as [|[|n]].
    + rewrite H. split; [done|lia].
    + destruct H as [rows ->]. split; [done|lia].
    + split; [lia|done].
  - destruct n as [|[|n]].
    + rewrite H. split; [by intros [? ?]|done].
    + split; [done|]. intros _. exact H.
    + rewrite H. split; [by intros [? ?]|done].
Qed.

(** X22: with the frame that the notebook builds from the catalog itself, the
    title query never ends in [KeyError]; it ends in [TypeError] exactly when
    another catalog row has the label of the matched movie, and returns rows
    otherwise. *)
Theorem query_on_own_frame_fails_on_shared_label
    (title : string) (sd : frame V) (items : list item) (k : Z) (q : item) :
  square_over sd items →
  head (filter (λ it, Py.lower (it_title it) = Py.lower title) items)
  = Some q →
  let n := length (filter (λ it, it_movie_label it = it_movie_label q) items) in
  1 ≤ n
  ∧ (content_based_movie_recommendations sorter title sd items k
     = Py.Raise Py.TypeError ↔ 2 ≤ n)
  ∧ ((∃ rows, content_based_movie_recommendations sorter title sd items k
              = Py.Ok (Recommendations rows)) ↔ n = 1)
  ∧ (∀ e, content_based_movie_recommendations sorter title sd items k
          = Py.Raise e → e = Py.TypeError).
Proof.
  intros (_ & Hcols & _) Hq n.
  pose proof (query_by_count title sd items k q Hq) as H.
  rewrite Hcols in H.
  assert (length (filter (λ x, x = it_movie_label q) (map it_movie_label items))
          = n) as Hn.
  { unfold n. clear. induction items as [|it items IH]; [done|]. simpl map.
    rewrite !filter_cons.
    destruct (decide (it_movie_label it = it_movie_label q)); simpl;
      by rewrite IH. }
  rewrite Hn in H.
  assert (1 ≤ n) as H1.
  { unfold n.
    assert (q ∈ filter (λ it, it_movie_label it = it_movie_label q) items) as Hin.
    { apply list_elem_of_filter. split; [done|].
      apply head_Some_elem_of in Hq. by apply list_elem_of_filter in Hq as [_ ?]. }
    destruct (filter (λ it, it_movie_label it = it_movie_label q) items);
      [by apply not_elem_of_nil in Hin|simpl; lia]. }
  split; [done|]. destruct n as [|[|n]]; [lia| |].
  - destruct H as [rows Hrows]. rewrite Hrows.
    split; [split; [done|lia]|]. split; [split; [done|by eexists]|done].
  - rewrite H. split; [split; [lia|done]|].
    split; [split; [by intros [? ?]|lia]|]. by intros e [= <-].
Qed.
End columns.

Lemma query_raises_on_missing_or_repeated_column_witness :
  head (filter (λ it, Py.lower (it_title it) = Py.lower "Emma (1996)")
          emma_items)
  = Some (Item "Emma (1996)" "Emma (1996) (Comedy|Drama|Romance)"
            "Comedy Drama Romance 11")
  ∧ let n := length (filter (λ x, x = "Emma (1996) (Comedy|Drama|Romance)")
                       (map fst (fr_columns emma_frame))) in
    (content_based_movie_recommendations stable_desc "Emma (1996)" emma_frame
       emma_items 10 = Py.Raise Py.KeyError ↔ n = 0)
    ∧ (content_based_movie_recommendations stable_desc "Emma (1996)"
         emma_frame emma_items 10 = Py.Raise Py.TypeError ↔ 2 ≤ n)
    ∧ ((∃ rows, content_based_movie_recommendations stable_desc "Emma (1996)"
                  emma_frame emma_items 10
                = Py.Ok (Recommendations rows)) ↔ n = 1)
    ∧ (n = 0 ↔ "Emma (1996) (Comedy|Drama|Romance)"
               ∉ map fst (fr_columns emma_frame)).
Proof.
  split; [reflexivity|].
  exact (query_raises_on_missing_or_repeated_column stable_desc "Emma (1996)"
           emma_frame emma_items 10 _ eq_refl).
Defined.

Lemma square_over_emma : square_over emma_frame emma_items.
Proof. repeat split. repeat constructor. Qed.

Lemma query_on_own_frame_fails_on_shared_label_witness :
  square_over emma_frame emma_items
  ∧ head (filter (λ it, Py.lower (it_title it) = Py.lower "Emma (1996)")
            emma_items)
    = Some (Item "Emma (1996)" "Emma (1996) (Comedy|Drama|Romance)"
              "Comedy Drama Romance 11")
  ∧ let n := length (filter (λ it, it_movie_label it
                                   = "Emma (1996) (Comedy|Drama|Romance)")
                       emma_items) in
    1 ≤ n
    ∧ (content_based_movie_recommendations stable_desc "Emma (1996)"
         emma_frame emma_items 10 = Py.Raise Py.TypeError ↔ 2 ≤ n)
    ∧ ((∃ rows, content_based_movie_recommendations stable_desc "Emma (1996)"
                  emma_frame emma_items 10
                = Py.Ok (Recommendations rows)) ↔ n = 1)
    ∧ (∀ e, content_based_movie_recommendations stable_desc "Emma (1996)"
              emma_frame emma_items 10 = Py.Raise e → e = Py.TypeError).
Proof.
  split; [exact square_over_emma|]. split; [reflexivity|].
  exact (query_on_own_frame_fails_on_shared_label stable_desc "Emma (1996)"
           emma_frame emma_items 10 _ square_over_emma eq_refl).
Defined.

(** ** The forward pass on a batch *)

Section batch.
Context {T : Type}.
Variables (zero : T) (add mul : T → T → T) (sigmoid rescale : T → T).


Lemma call_row_Ok (net : RecommenderNet) (num_track num_name size : nat)
    (training keep : bool) (t n : nat) :
  built num_track num_name size net → t < num_track → n < num_name →
  ∃ s, call_row zero add mul sigmoid rescale net training keep (t, n)
       = Py.Ok s.
Proof.
  intros (Ht & Hbt & Hn & Hbn & _ & _) Hlt Hln.
  destruct (lookup_lt_is_Some_2 (track_embedding net) t) as [et Het]; [lia|].
  destruct (lookup_lt_is_Some_2 (name_embedding net) n) as [en Hen]; [lia|].
  destruct (lookup_lt_is_Some_2 (track_bias net) t) as [bt Hb1]; [lia|].
  destruct (lookup_lt_is_Some_2 (name_bias net) n) as [bn Hb2]; [lia|].
  unfold call_row, Embedding. simpl.
  rewrite Het, Hen, Hb1, Hb2. unfold_outcome. by eexists.
Qed.

Lemma call_row_Raise (net : RecommenderNet) (training keep : bool)
    (p : nat * nat) (e : Py.exn) :
  call_row zero add mul sigmoid rescale net training keep p = Py.Raise e →
  e = Py.InvalidArgumentError.
Proof.
  unfold call_row, Embedding. unfold_outcome.
  destruct (track_embedding net !! p.1); [|by intros [= <-]].
  destruct (track_bias net !! p.1); [|by intros [= <-]].
  destruct (name_embedding net !! p.2); [|by intros [= <-]].
  destruct (name_bias net !! p.2); [|by intros [= <-]]. done.
Qed.

Lemma predict_single (net : RecommenderNet) (p : nat * nat) :
  predict zero add mul sigmoid rescale net [p]
  = (s ← call_row zero add mul sigmoid rescale net false true p; mret [s]).
Proof.
  unfold predict, call. simpl. unfold_outcome.
  by destruct (call_row zero add mul sigmoid rescale net false true p).
Qed.

Lemma predict_lookup (net : RecommenderNet) (inputs : list (nat * nat))
    (scores : list T) :
  predict zero add mul sigmoid rescale net inputs = Py.Ok scores →
  length scores = length inputs
  ∧ ∀ i p, inputs !! i = Some p →
      ∃ s, scores !! i = Some s
           ∧ call_row zero add mul sigmoid rescale net false true p = Py.Ok s.
Proof.
  unfold predict, call. intros H. split.
  - by rewrite (traverse_length _ _ _ H), enumerate_length.
  - intros i p Hp. apply traverse_Ok in H.
    destruct (Forall2_lookup_l _ _ _ i (i, p) H) as (s & Hs & Hf).
    { by rewrite enumerate_lookup, Hp. }
    by exists s.
Qed.

(** X15: every pair of codes of the training table indexes inside the embedding
    tables of a model that was built with [num_track] and [num_name]: the
    columns [track] and [name] have no missing value, and the forward pass
    gives the pair a score, in training as well as outside. *)
Theorem training_pairs_index_the_tables
    (sample : list (option nat * option nat * Q)
              → list (option nat * option nat * Q))
    (rows : list filter_row) (net : RecommenderNet) (size : nat)
    (p : option nat * option nat) :
  (∀ l, sample l ≡ₚ l) →
  built (num_track rows) (num_name rows) size net →
  p ∈ x sample rows →
  ∃ t n,
    p = (Some t, Some n) ∧ t < num_track rows ∧ n < num_name rows
    ∧ ∀ training keep,
        ∃ s, call_row zero add mul sigmoid rescale net training keep (t, n)
             = Py.Ok s.
Proof.
  intros Hperm Hbuilt Hp. unfold x, collaborative_based in Hp.
  rewrite Hperm in Hp.
  rewrite fst_zip in Hp
    by (unfold track, name; rewrite length_zip_with, !length_map; lia).
  apply list_elem_of_lookup in Hp as [i Hi].
  apply lookup_zip_with_Some in Hi as (ot & on & -> & Ht & Hn).
  unfold track in Ht. unfold name in Hn.
  rewrite list_lookup_fmap in Ht, Hn.
  destruct (rows !! i) as [r|] eqn:Hr; simpl in Ht, Hn; [|done].
  injection Ht as <-. injection Hn as <-.
  destruct (column_code (map fl_film_id rows) i (fl_film_id r))
    as (t & Hgt & Hlt & _ & _); [by rewrite list_lookup_fmap, Hr|].
  destruct (column_code (map fl_movie_label rows) i (fl_movie_label r))
    as (n & Hgn & Hln & _ & _); [by rewrite list_lookup_fmap, Hr|].
  assert (n < num_name rows) as Hln'.
  { unfold num_name, encoded_to_movie. rewrite len_decoding.
    by rewrite len_encoding in Hln by apply unique_NoDup. }
  exists t, n. unfold film_to_film_encoded, movie_to_encoded, film_ids,
    movie_labels. rewrite Hgt, Hgn.
  split; [done|]. split; [done|]. split; [done|].
  intros training keep.
  by apply (call_row_Ok net (num_track rows) (num_name rows) size).
Qed.
End batch.

Lemma built_tiny_net : built 2 2 2 tiny_net.
Proof. repeat split; simpl; repeat constructor. Qed.

Lemma training_pairs_index_the_tables_witness :
  (∀ l : list (option nat * option nat * Q), reverse l ≡ₚ l)
  ∧ built (num_track scenario_rows) (num_name scenario_rows) 2 tiny_net
  ∧ (Some 1, Some 1) ∈ x reverse scenario_rows
  ∧ ∃ t n,
      (Some 1, Some 1) = (Some t, Some n)
      ∧ t < num_track scenario_rows ∧ n < num_name scenario_rows
      ∧ ∀ training keep,
          ∃ s, call_row 0%R Rplus Rmult logistic keep_scale tiny_net
                 training keep (t, n) = Py.Ok s.
Proof.
  assert (∀ l : list (option nat * option nat * Q), reverse l ≡ₚ l) as Hp
    by (intros l; apply reverse_Permutation).
  assert ((Some 1, Some 1) ∈ x reverse scenario_rows) as Hin by left.
  split; [exact Hp|]. split; [exact built_tiny_net|]. split; [exact Hin|].
  exact (training_pairs_index_the_tables 0%R Rplus Rmult logistic keep_scale
           reverse scenario_rows tiny_net 2 _ Hp built_tiny_net Hin).
Defined.

(** ** The label query *)

Lemma slice_from_length {A} (lo : Z) (l : list A) :
  length (Py.slice_from lo l) = length l - Py.bound (length l) lo.
Proof. unfold Py.slice_from. apply length_drop. Qed.

Lemma slice_from_suffix {A} (lo : Z) (l : list A) :
  ∃ l1, l = l1 ++ Py.slice_from lo l.
Proof.
  exists (take (Py.bound (length l) lo) l). unfold Py.slice_from.
  by rewrite take_drop.
Qed.

Lemma elem_of_rev {A} (l : list A) (x : A) : x ∈ rev l ↔ x ∈ l.
Proof. rewrite !list_elem_of_In. symmetry. apply in_rev. Qed.

Lemma traverse_index_seq (n : nat) (top : list nat) :
  (∀ i, i ∈ top → i < n) →
  Py.traverse (@index nat (seq 0 n)) top = Py.Ok top.
Proof.
  intros Hlt. apply traverse_Ok. apply Forall_Forall2_diag, Forall_forall.
  intros i Hi. unfold index. by rewrite lookup_seq_lt by by apply Hlt.
Qed.

Section label_query.
Context {T : Type}.
Variables (zero : T) (add mul : T → T → T) (sigmoid rescale : T → T).
Variables (argsort : list T → list nat) (show_rating : Q → string).

(** The line of a film that the catalog has. *)
Lemma describe_known (rows : list filter_row) (i : nat) (f : string) :
  film_ids rows !! i = Some f →
  ∃ r, head (filter (λ r, fl_film_id r = f) rows) = Some r
       ∧ Py.get (film_to_film_encoded rows) (fl_film_id r) = Some i
       ∧ describe show_rating rows (Some f)
         = "🎬 " +:+ fl_title r +:+ " | Genre: " +:+ fl_genres_str r
             +:+ " | Rating: " +:+ show_rating (fl_rating r).
Proof.
  intros Hf.
  assert (f ∈ map fl_film_id rows) as Hin.
  { apply unique_elem. by eapply list_elem_of_lookup_2. }
  apply list_elem_of_fmap in Hin as (r0 & -> & Hr0).
  assert (r0 ∈ filter (λ r, fl_film_id r = fl_film_id r0) rows) as Hflt
    by by apply list_elem_of_filter.
  unfold describe.
  destruct (filter (λ r, fl_film_id r = fl_film_id r0) rows) as [|r rest] eqn:Hfr;
    [by apply not_elem_of_nil in Hflt|].
  exists r. split; [done|].
  assert (fl_film_id r = fl_film_id r0) as Hid.
  { assert (r ∈ filter (λ r, fl_film_id r = fl_film_id r0) rows) as Hr
      by (rewrite Hfr; by left).
    by apply list_elem_of_filter in Hr as [? _]. }
  split; [|done]. rewrite Hid.
  by apply get_encoding; [apply unique_NoDup|].
Qed.

(** The label query, unfolded for a label of the catalog. *)
Lemma label_query_unfold (net : RecommenderNet) (rows : list filter_row)
    (size : nat) (movie_label : string) (top_n : Z) :
  built (num_track rows) (num_name rows) size net →
  (∀ scores, argsort scores ≡ₚ seq 0 (length scores)) →
  movie_label ∈ map fl_movie_label rows →
  ∃ e scores,
    Py.get (movie_to_encoded rows) movie_label = Some e
    ∧ predict zero add mul sigmoid rescale net
        (map (λ f, (f, e)) (seq 0 (num_track rows))) = Py.Ok scores
    ∧ length scores = num_track rows
    ∧ recommend_movies_based_on_title zero add mul sigmoid rescale argsort
        show_rating net rows movie_label top_n
      = Py.Ok (String "010"%char
                 ("Rekomendasi film berdasarkan: '" +:+ movie_label +:+ "'")
               :: map (λ i, describe show_rating rows (film_ids rows !! i))
                    (rev (Py.slice_from (- top_n) (argsort scores))),
               tt).
Proof.
  intros Hbuilt Hperm Hlabel.
  destruct (index_round_trip (map fl_movie_label rows) movie_label Hlabel)
    as (e & He & Hdec).
  assert (e < num_name rows) as Hlt.
  { unfold num_name, encoded_to_movie. rewrite len_decoding.
    rewrite get_decoding in Hdec. by eapply lookup_lt_Some. }
  assert (Py.values (film_to_film_encoded rows) = seq 0 (num_track rows))
    as Hvals.
  { unfold film_to_film_encoded, num_track, film_to_film_encoded.
    rewrite values_encoding by apply unique_NoDup.
    by rewrite len_encoding by apply unique_NoDup. }
  set (inputs := map (λ f, (f, e)) (seq 0 (num_track rows))).
  assert (∃ scores, predict zero add mul sigmoid rescale net inputs
                    = Py.Ok scores) as [scores Hscores].
  { unfold predict, call. apply traverse_total. intros [i p] Hin. simpl.
    unfold Py.enumerate in Hin.
    apply elem_of_lookup_imap in Hin as (j & p' & [= -> ->] & Hp).
    unfold inputs in Hp. rewrite list_lookup_fmap in Hp.
    destruct (seq 0 (num_track rows) !! j) as [f|] eqn:Hf; simpl in Hp;
      [|done].
    injection Hp as <-. apply lookup_seq in Hf as [-> Hf].
    by apply (call_row_Ok zero add mul sigmoid rescale net (num_track rows)
                (num_name rows) size). }
  assert (length scores = num_track rows) as Hlen.
  { destruct (predict_lookup _ _ _ _ _ net inputs scores Hscores) as [-> _].
    unfold inputs. by rewrite length_map, length_seq. }
  exists e, scores. split; [exact He|]. split; [exact Hscores|].
  split; [exact Hlen|].
  unfold recommend_movies_based_on_title.
  unfold movie_to_encoded, movie_labels in He |- *. rewrite He.
  rewrite Hvals. fold inputs. rewrite Hscores. unfold_outcome.
  rewrite traverse_index_seq.
  - do 3 f_equal. rewrite <- list_fmap_compose. apply map_ext.
    intros i. simpl. unfold film_encoded_to_film. by rewrite get_decoding.
  - intros i Hi. rewrite elem_of_rev in Hi.
    destruct (slice_from_suffix (- top_n) (argsort scores)) as [l1 Hl1].
    assert (i ∈ argsort scores) as Hin
      by (rewrite Hl1; apply elem_of_app; by right).
    rewrite (Hperm scores) in Hin. apply elem_of_seq in Hin. lia.
Qed.

(** X25: for a label of the catalog and a model built for the catalog, the label
    query does not fail: after the heading it prints one line per film
    taken from the end of [argsort], that is [top_n] lines when [top_n] is
    between 1 and the number of films, and a line for every film when
    [top_n] is 0 ([-0] cuts nothing); every line describes a catalog row,
    none is the line for a film id that the catalog does not have. *)
Theorem label_query_prints_catalog_rows
    (net : RecommenderNet) (rows : list filter_row) (size : nat)
    (movie_label : string) (top_n : Z) :
  built (num_track rows) (num_name rows) size net →
  (∀ scores, argsort scores ≡ₚ seq 0 (length scores)) →
  movie_label ∈ map fl_movie_label rows →
  ∃ lines,
    recommend_movies_based_on_title zero add mul sigmoid rescale argsort
      show_rating net rows movie_label top_n
    = Py.Ok (String "010"%char
               ("Rekomendasi film berdasarkan: '" +:+ movie_label +:+ "'")
             :: lines, tt)
    ∧ length lines = num_track rows - Py.bound (num_track rows) (- top_n)
    ∧ ((1 ≤ top_n ≤ Z.of_nat (num_track rows))%Z
       → length lines = Z.to_nat top_n)
    ∧ ((Z.of_nat (num_track rows) ≤ top_n)%Z → length lines = num_track rows)
    ∧ (top_n = 0%Z → length lines = num_track rows)
    ∧ Forall (λ line, ∃ r, r ∈ rows
                ∧ line = "🎬 " +:+ fl_title r +:+ " | Genre: "
                           +:+ fl_genres_str r +:+ " | Rating: "
                           +:+ show_rating (fl_rating r)) lines.
Proof.
  intros Hbuilt Hperm Hlabel.
  destruct (label_query_unfold net rows size movie_label top_n
              Hbuilt Hperm Hlabel) as (e & scores & _ & _ & Hlen & Hres).
  eexists. split; [exact Hres|].
  assert (length (map (λ i, describe show_rating rows (film_ids rows !! i))
                    (rev (Py.slice_from (- top_n) (argsort scores))))
          = num_track rows - Py.bound (num_track rows) (- top_n)) as Hcount.
  { rewrite length_map, length_rev, slice_from_length.
    by rewrite (Permutation_length (Hperm scores)), length_seq, Hlen. }
  split; [exact Hcount|].
  split; [|split; [|split]].
  - intros Hk. rewrite Hcount. unfold Py.bound.
    destruct (Z.ltb_spec (- top_n) 0); lia.
  - intros Hk. rewrite Hcount. unfold Py.bound.
    destruct (Z.ltb_spec (- top_n) 0); lia.
  - intros ->. rewrite Hcount. unfold Py.bound. simpl. lia.
  - apply Forall_fmap, Forall_forall. intros i Hi. simpl.
    rewrite elem_of_rev in Hi.
    destruct (slice_from_suffix (- top_n) (argsort scores)) as [l1 Hl1].
    assert (i ∈ argsort scores) as Hin
      by (rewrite Hl1; apply elem_of_app; by right).
    rewrite (Hperm scores) in Hin. apply elem_of_seq in Hin.
    destruct (lookup_lt_is_Some_2 (film_ids rows) i) as [f Hf].
    { unfold num_track, film_to_film_encoded in Hlen.
      rewrite len_encoding in Hlen by apply unique_NoDup. lia. }
    rewrite Hf. destruct (describe_known rows i f Hf) as (r & Hr & _ & ->).
    exists r. split; [|done]. apply head_Some_elem_of in Hr.
    by apply list_elem_of_filter in Hr as [_ ?].
Qed.

Variable le : T → T → Prop.

Lemma StronglySorted_rev {A} (R : A → A → Prop) (l : list A) :
  StronglySorted R l → StronglySorted (λ a b, R b a) (rev l).
Proof.
  induction 1 as [|x l Hs IH Hall]; simpl; [constructor|].
  apply StronglySorted_app_2; [|done|repeat constructor].
  intros a b Ha ->%list_elem_of_singleton.
  rewrite Forall_forall in Hall. apply Hall. by rewrite <- elem_of_rev.
Qed.

Lemma NoDup_rev_1 {A} (l : list A) : NoDup l → NoDup (rev l).
Proof.
  intros H. by rewrite <- Permutation_rev.
Qed.

(** X26: the films come by descending predicted score: the score of the film
    that a line describes (the one that the model gives the pair of the
    film's code and the label's code) is at least that of the film of every
    later line, and at least that of every film that is not printed. *)
Theorem label_query_ranks_by_score
    (net : RecommenderNet) (rows : list filter_row) (size : nat)
    (movie_label : string) (top_n : Z) :
  built (num_track rows) (num_name rows) size net →
  argsorts le argsort →
  movie_label ∈ map fl_movie_label rows →
  ∃ e scores top,
    Py.get (movie_to_encoded rows) movie_label = Some e
    ∧ predict zero add mul sigmoid rescale net
        (map (λ f, (f, e)) (seq 0 (num_track rows))) = Py.Ok scores
    ∧ NoDup top ∧ (∀ i, i ∈ top → i < num_track rows)
    ∧ recommend_movies_based_on_title zero add mul sigmoid rescale argsort
        show_rating net rows movie_label top_n
      = Py.Ok (String "010"%char
                 ("Rekomendasi film berdasarkan: '" +:+ movie_label +:+ "'")
               :: map (λ i, describe show_rating rows (film_ids rows !! i))
                    top,
               tt)
    ∧ StronglySorted
        (λ i j, ∀ a b, scores !! i = Some a → scores !! j = Some b → le b a)
        top
    ∧ (∀ i j a b, i ∈ top → j < num_track rows → j ∉ top →
                  scores !! i = Some a → scores !! j = Some b → le b a).
Proof.
  intros Hbuilt Hsort Hlabel.
  assert (∀ scores, argsort scores ≡ₚ seq 0 (length scores)) as Hperm
    by (intros scores; apply Hsort).
  destruct (label_query_unfold net rows size movie_label top_n
              Hbuilt Hperm Hlabel) as (e & scores & He & Hscores & Hlen & Hres).
  exists e, scores, (rev (Py.slice_from (- top_n) (argsort scores))).
  destruct (Hsort scores) as [_ Hsorted].
  destruct (slice_from_suffix (- top_n) (argsort scores)) as [l1 Hl1].
  set (top := Py.slice_from (- top_n) (argsort scores)) in *.
  assert (NoDup (argsort scores)) as Hnd.
  { rewrite (Hperm scores). apply NoDup_seq. }
  split; [done|]. split; [done|]. split; [|split; [|split; [done|split]]].
  - apply NoDup_rev_1. rewrite Hl1 in Hnd. by apply NoDup_app in Hnd as (_ & _ & ?).
  - intros i Hi. rewrite elem_of_rev in Hi.
    assert (i ∈ argsort scores) as Hin
      by (rewrite Hl1; apply elem_of_app; by right).
    rewrite (Hperm scores) in Hin. apply elem_of_seq in Hin. lia.
  - rewrite Hl1 in Hsorted. apply StronglySorted_app_1_r in Hsorted.
    apply StronglySorted_rev in Hsorted.
    eapply StronglySorted_weaken; [|exact Hsorted].
    intros i j H a b Ha Hb. simpl in H. by apply (H b a).
  - intros i j a b Hi Hj Hnot Ha Hb. rewrite elem_of_rev in Hi.
    assert (j ∈ argsort scores) as Hjin.
    { rewrite (Hperm scores). apply elem_of_seq. lia. }
    rewrite Hl1 in Hjin, Hsorted. apply elem_of_app in Hjin as [Hj1|Hj2].
    + by apply (StronglySorted_app_1_elem_of _ _ _ _ _ Hsorted Hj1 Hi).
    + exfalso. apply Hnot. by rewrite elem_of_rev.
Qed.
End label_query.

Lemma stable_argsort_argsorts : argsorts Rle stable_argsort.
Proof.
  intros scores. unfold stable_argsort. split; [apply sort_by_Permutation|].
  eapply StronglySorted_weaken; [|apply sort_by_sorted].
  - intros i j H a b Ha Hb. simpl in H.
    rewrite (nth_lookup_Some _ _ _ _ Ha), (nth_lookup_Some _ _ _ _ Hb) in H.
    by destruct (Rle_dec a b).
  - intros i j H. simpl in *.
    destruct (Rle_dec (nth i scores 0%R) (nth j scores 0%R)); [done|].
    destruct (Rle_dec (nth j scores 0%R) (nth i scores 0%R)); [done|lra].
  - intros i j k H1 H2. simpl in *.
    destruct (Rle_dec (nth i scores 0%R) (nth j scores 0%R)); [|done].
    destruct (Rle_dec (nth j scores 0%R) (nth k scores 0%R)); [|done].
    destruct (Rle_dec (nth i scores 0%R) (nth k scores 0%R)); [done|lra].
Qed.

Lemma stable_argsort_Permutation (scores : list R) :
  stable_argsort scores ≡ₚ seq 0 (length scores).
Proof. apply stable_argsort_argsorts. Qed.

Lemma heat_label_known :
  "Heat (1995) (Action Crime)" ∈ map fl_movie_label scenario_rows.
Proof. right. left. Qed.

Lemma label_query_prints_catalog_rows_witness :
  built (num_track scenario_rows) (num_name scenario_rows) 2 tiny_net
  ∧ (∀ scores, stable_argsort scores ≡ₚ seq 0 (length scores))
  ∧ "Heat (1995) (Action Crime)" ∈ map fl_movie_label scenario_rows
  ∧ ∃ lines,
      recommend_movies_based_on_title 0%R Rplus Rmult logistic keep_scale
        stable_argsort (λ _, "4.0") tiny_net scenario_rows
        "Heat (1995) (Action Crime)" 1
      = Py.Ok (String "010"%char
                 ("Rekomendasi film berdasarkan: '"
                    +:+ "Heat (1995) (Action Crime)" +:+ "'")
               :: lines, tt)
      ∧ length lines
        = num_track scenario_rows - Py.bound (num_track scenario_rows) (- 1)
      ∧ ((1 ≤ 1 ≤ Z.of_nat (num_track scenario_rows))%Z
         → length lines = Z.to_nat 1)
      ∧ ((Z.of_nat (num_track scenario_rows) ≤ 1)%Z
         → length lines = num_track scenario_rows)
      ∧ (1%Z = 0%Z → length lines = num_track scenario_rows)
      ∧ Forall (λ line, ∃ r, r ∈ scenario_rows
                  ∧ line = "🎬 " +:+ fl_title r +:+ " | Genre: "
                             +:+ fl_genres_str r +:+ " | Rating: "
                             +:+ (λ _ : Q, "4.0") (fl_rating r)) lines.
Proof.
  split; [exact built_tiny_net|]. split; [exact stable_argsort_Permutation|].
  split; [exact heat_label_known|].
  exact (label_query_prints_catalog_rows 0%R Rplus Rmult logistic keep_scale
           stable_argsort (λ _, "4.0") tiny_net scenario_rows 2
           "Heat (1995) (Action Crime)" 1 built_tiny_net
           stable_argsort_Permutation heat_label_known).
Defined.

Lemma label_query_ranks_by_score_witness :
  built (num_track scenario_rows) (num_name scenario_rows) 2 tiny_net
  ∧ argsorts Rle stable_argsort
  ∧ "Heat (1995) (Action Crime)" ∈ map fl_movie_label scenario_rows
  ∧ ∃ e scores top,
      Py.get (movie_to_encoded scenario_rows) "Heat (1995) (Action Crime)"
      = Some e
      ∧ predict 0%R Rplus Rmult logistic keep_scale tiny_net
          (map (λ f, (f, e)) (seq 0 (num_track scenario_rows)))
        = Py.Ok scores
      ∧ NoDup top ∧ (∀ i, i ∈ top → i < num_track scenario_rows)
      ∧ recommend_movies_based_on_title 0%R Rplus Rmult logistic keep_scale
          stable_argsort (λ _, "4.0") tiny_net scenario_rows
          "Heat (1995) (Action Crime)" 1
        = Py.Ok (String "010"%char
                   ("Rekomendasi film berdasarkan: '"
                      +:+ "Heat (1995) (Action Crime)" +:+ "'")
                 :: map (λ i, describe (λ _, "4.0") scenario_rows
                                (film_ids scenario_rows !! i)) top,
                 tt)
      ∧ StronglySorted
          (λ i j, ∀ a b, scores !! i = Some a → scores !! j = Some b
                         → Rle b a) top
      ∧ (∀ i j a b, i ∈ top → j < num_track scenario_rows → j ∉ top →
                    scores !! i = Some a → scores !! j = Some b → Rle b a).
Proof.
  split; [exact built_tiny_net|]. split; [exact stable_argsort_argsorts|].
  split; [exact heat_label_known|].
  exact (label_query_ranks_by_score 0%R Rplus Rmult logistic keep_scale
           stable_argsort (λ _, "4.0") Rle tiny_net scenario_rows 2
           "Heat (1995) (Action Crime)" 1 built_tiny_net
           stable_argsort_argsorts heat_label_known).
Defined.

(** ** Labels across the two queries *)

Section labels_across_queries.
Context {T : Type}.
Variables (zero : T) (add mul : T → T → T) (sigmoid rescale : T → T).
Variables (argsort : list T → list nat) (show_rating : Q → string).

Lemma label_query_unknown (net : RecommenderNet) (rows : list filter_row)
    (movie_label : string) (top_n : Z) :
  movie_label ∉ map fl_movie_label rows →
  recommend_movies_based_on_title zero add mul sigmoid rescale argsort
    show_rating net rows movie_label top_n
  = Py.Ok (["Film dengan label '" +:+ movie_label +:+ "' tidak ditemukan."],
           tt).
Proof.
  intros Hlabel. unfold recommend_movies_based_on_title.
  assert (Py.get (movie_to_encoded rows) movie_label = None) as ->; [|done].
  apply get_None. unfold movie_to_encoded, movie_labels.
  rewrite keys_encoding by apply unique_NoDup. by rewrite unique_elem.
Qed.

(** X27: the label under which the content engine knows a movie with several
    genres (the index of its similarity frame, the label column of its
    results) is not a label of the embedding engine, where the bars are
    spaces: when no title has a bar, the label query answers it with the
    message for a film that is not found. *)
Theorem content_label_unknown_to_label_query
    (ratings : list rating_row) (movies : list movie)
    (rows : list filter_row) (c : content_row) (net : RecommenderNet)
    (top_n : Z) :
  dataset_filter (dataset_content ratings movies) = Py.Ok rows →
  (∀ c', c' ∈ dataset_content ratings movies
         → "|"%char ∉ chars (dc_title c')) →
  c ∈ dataset_content ratings movies →
  "|"%char ∈ chars (dc_genres c) →
  (dc_movie_label c ∉ map fl_movie_label rows)
  ∧ recommend_movies_based_on_title zero add mul sigmoid rescale argsort
      show_rating net rows (dc_movie_label c) top_n
    = Py.Ok (["Film dengan label '" +:+ dc_movie_label c
                +:+ "' tidak ditemukan."], tt).
Proof.
  intros Hrows Htitles Hc Hbar.
  assert (dc_movie_label c ∉ map fl_movie_label rows) as Hnot.
  { intros Hin. apply list_elem_of_fmap in Hin as (r & Heq & Hr).
    apply list_elem_of_lookup in Hr as [i Hi].
    destruct (dataset_filter_rows _ rows Hrows) as [Hlen Hall].
    destruct (lookup_lt_is_Some_2 (dataset_content ratings movies) i)
      as [c' Hc'].
    { rewrite <- Hlen. by eapply lookup_lt_Some. }
    destruct (Hall i c' Hc') as (w & _ & Hr'). rewrite Hi in Hr'.
    injection Hr' as ->. simpl in Heq.
    assert (c' ∈ dataset_content ratings movies) as Hc'in
      by by eapply list_elem_of_lookup_2.
    pose proof (Htitles c' Hc'in) as Ht'.
    destruct (dataset_content_row ratings movies c' Hc'in)
      as (r' & m' & _ & _ & _ & ->).
    destruct (dataset_content_row ratings movies c Hc)
      as (r0 & m0 & _ & _ & _ & ->).
    simpl in *. rewrite join_split_on in Heq.
    apply (f_equal chars) in Heq. rewrite !chars_app in Heq.
    assert ("|"%char ∈ chars (mv_title m0) ++ chars " (" ++ chars (mv_genres m0)
              ++ chars ")") as Hin.
    { rewrite !elem_of_app. right. right. by left. }
    rewrite Heq in Hin. rewrite !elem_of_app in Hin.
    destruct Hin as [?|[Hin|[Hin|Hin]]]; [done| | |].
    - simpl in Hin. by repeat (apply elem_of_cons in Hin as [?|Hin]);
        try apply not_elem_of_nil in Hin.
    - by apply (replace_char_removes "|" " " (mv_genres m')) in Hin.
    - simpl in Hin. by repeat (apply elem_of_cons in Hin as [?|Hin]);
        try apply not_elem_of_nil in Hin. }
  split; [done|]. by apply label_query_unknown.
Qed.
End labels_across_queries.

Lemma scenario_titles_without_bar (c : content_row) :
  c ∈ dataset_content scenario_ratings scenario_movies →
  "|"%char ∉ chars (dc_title c).
Proof.
  intros Hc.
  let v := eval vm_compute in (dataset_content scenario_ratings scenario_movies)
  in change (dataset_content scenario_ratings scenario_movies) with v in Hc.
  repeat (apply elem_of_cons in Hc as [->|Hc]);
    [| |by apply not_elem_of_nil in Hc];
    by apply (bool_decide_unpack _).
Qed.

Lemma content_label_unknown_to_label_query_witness :
  let c := {| dc_movieId := 2; dc_title := "Heat (1995)";
              dc_genres := "Action|Crime"; dc_rating := 7 # 2;
              dc_genres_split := ["Action"; "Crime"]; dc_title_length := 11;
              dc_movie_label := "Heat (1995) (Action|Crime)";
              dc_content_features := "Action Crime 11" |} in
  dataset_filter (dataset_content scenario_ratings scenario_movies)
  = Py.Ok scenario_rows
  ∧ (∀ c', c' ∈ dataset_content scenario_ratings scenario_movies
           → "|"%char ∉ chars (dc_title c'))
  ∧ c ∈ dataset_content scenario_ratings scenario_movies
  ∧ "|"%char ∈ chars (dc_genres c)
  ∧ (dc_movie_label c ∉ map fl_movie_label scenario_rows)
  ∧ recommend_movies_based_on_title 0%R Rplus Rmult logistic keep_scale
      stable_argsort (λ _, "4.0") tiny_net scenario_rows (dc_movie_label c) 10
    = Py.Ok (["Film dengan label '" +:+ dc_movie_label c
                +:+ "' tidak ditemukan."], tt).
Proof.
  intros c.
  assert (dataset_filter (dataset_content scenario_ratings scenario_movies)
          = Py.Ok scenario_rows) as H1 by reflexivity.
  assert (c ∈ dataset_content scenario_ratings scenario_movies) as H3
    by (right; left).
  assert ("|"%char ∈ chars (dc_genres c)) as H4
    by by apply (bool_decide_unpack _).
  split; [exact H1|]. split; [exact scenario_titles_without_bar|].
  split; [exact H3|]. split; [exact H4|].
  exact (content_label_unknown_to_label_query 0%R Rplus Rmult logistic
           keep_scale stable_argsort (λ _, "4.0") scenario_ratings
           scenario_movies scenario_rows c tiny_net 10 H1
           scenario_titles_without_bar H3 H4).
Defined.

(** ** The order of the catalog *)

Section catalog_order.
Context {A K : Type} `{EqDecision K} (key : A → K).

Lemma drop_duplicates_same_key (seen : list K) (l : list A) (k : K) :
  l ≠ [] → (∀ x, x ∈ l → key x = k) →
  map key (drop_duplicates key seen l) = if decide (k ∈ seen) then [] else [k].
Proof.
  intros Hne Hk. destruct l as [|a l]; [done|]. clear Hne. simpl.
  assert (key a = k) as Ha by (apply Hk; by left). rewrite Ha.
  assert (∀ s, k ∈ s → drop_duplicates key s l = []) as Hrest.
  { intros s Hs. assert (∀ x, x ∈ l → key x = k) as Hl
      by (intros x Hx; apply Hk; by right).
    clear -Hs Hl. induction l as [|b l IH]; [done|]. simpl.
    rewrite (Hl b) by by left.
    destruct (decide (k ∈ s)); [|done]. apply IH. intros x Hx. apply Hl.
    by right. }
  destruct (decide (k ∈ seen)) as [Hin|Hnin].
  - by rewrite Hrest.
  - simpl. rewrite Ha, Hrest; [done|by left].
Qed.
End catalog_order.

Lemma df_merged_cons (r : rating_row) (ratings : list rating_row)
    (movies : list movie) :
  df_merged (r :: ratings) movies
  = map (join_row r)
      (filter (λ m, mr_movieId m = rt_movieId r) (df_mov movies))
    ++ df_merged ratings movies.
Proof. done. Qed.

Lemma df_mov_ids (movies : list movie) (id : Z) :
  filter (λ m, mr_movieId m = id) (df_mov movies) ≠ []
  ↔ id ∈ map mv_movieId movies.
Proof.
  split.
  - intros Hne. destruct (filter _ (df_mov movies)) as [|m ms] eqn:Hf; [done|].
    assert (m ∈ filter (λ m, mr_movieId m = id) (df_mov movies)) as Hm
      by (rewrite Hf; by left).
    apply list_elem_of_filter in Hm as [<- Hm]. unfold df_mov in Hm.
    apply list_elem_of_fmap in Hm as (m' & -> & Hm'). simpl.
    by apply list_elem_of_fmap_2.
  - intros Hin Hnil. apply list_elem_of_fmap in Hin as (m & -> & Hm).
    assert (MovRow (mv_movieId m) (mv_title m) (mv_genres m)
              (Py.split_on "|" (mv_genres m)) (String.length (mv_title m))
            ∈ filter (λ m', mr_movieId m' = mv_movieId m) (df_mov movies)) as H.
    { apply list_elem_of_filter. split; [done|]. unfold df_mov.
      apply list_elem_of_fmap. by exists m. }
    rewrite Hnil in H. by apply not_elem_of_nil in H.
Qed.

Lemma dataset_content_ids_seen (seen : list Z) (ratings : list rating_row)
    (movies : list movie) :
  map mg_movieId (drop_duplicates mg_movieId seen (df_merged ratings movies))
  = drop_duplicates (λ id : Z, id) seen
      (filter (λ id, id ∈ map mv_movieId movies) (map rt_movieId ratings)).
Proof.
  revert seen. induction ratings as [|r ratings IH]; intros seen; [done|].
  rewrite df_merged_cons, drop_duplicates_app, map_app. simpl map.
  rewrite filter_cons.
  set (ms := filter (λ m, mr_movieId m = rt_movieId r) (df_mov movies)).
  destruct (decide (rt_movieId r ∈ map mv_movieId movies)) as [Hin|Hnin].
  - assert (map (join_row r) ms ≠ []) as Hne.
    { intros Hnil. apply fmap_nil_inv in Hnil.
      by apply (proj2 (df_mov_ids movies (rt_movieId r))). }
    rewrite (drop_duplicates_same_key mg_movieId seen _ (rt_movieId r) Hne).
    2:{ intros g Hg. by apply list_elem_of_fmap in Hg as (m & -> & _). }
    simpl. destruct (decide (rt_movieId r ∈ seen)) as [Hs|Hs].
    + simpl. rewrite <- IH. f_equal. apply drop_duplicates_seen_ext.
      intros k. rewrite elem_of_app. split; [|by right].
      intros [Hk|?]; [|done].
      apply list_elem_of_fmap in Hk as (g & -> & Hg).
      by apply list_elem_of_fmap in Hg as (m & -> & _).
    + simpl. rewrite <- IH. do 2 f_equal. apply drop_duplicates_seen_ext.
      intros k. rewrite elem_of_app, elem_of_cons. split.
      * intros [Hk|?]; [left|by right].
        apply list_elem_of_fmap in Hk as (g & -> & Hg).
        by apply list_elem_of_fmap in Hg as (m & -> & _).
      * intros [->|?]; [left|by right].
        destruct (map (join_row r) ms) as [|g gs] eqn:Hgs; [done|].
        assert (g ∈ map (join_row r) ms) as Hg by (rewrite Hgs; by left).
        apply list_elem_of_fmap in Hg as (m & -> & _). simpl. by left.
  - assert (ms = []) as ->.
    { destruct ms eqn:Hms; [done|]. exfalso. apply Hnin.
      apply df_mov_ids. fold ms. by rewrite Hms. }
    simpl. rewrite <- IH. done.
Qed.

(** X3: the records of the catalog come in the order in which their movies are
    first rated: their ids are the movie ids of the rating table that the
    movie table has, each at its first occurrence.  The order of the movie
    table plays no part. *)
Theorem dataset_content_in_first_rating_order
    (ratings : list rating_row) (movies : list movie) :
  map dc_movieId (dataset_content ratings movies)
  = drop_duplicates (λ id : Z, id) []
      (filter (λ id, id ∈ map mv_movieId movies) (map rt_movieId ratings))
  ∧ (∀ movies', movies' ≡ₚ movies →
       map dc_movieId (dataset_content ratings movies')
       = map dc_movieId (dataset_content ratings movies)).
Proof.
  assert (∀ ms, map dc_movieId (dataset_content ratings ms)
                = drop_duplicates (λ id : Z, id) []
                    (filter (λ id, id ∈ map mv_movieId ms)
                       (map rt_movieId ratings))) as H.
  { intros ms. unfold dataset_content. rewrite <- list_fmap_compose.
    apply (dataset_content_ids_seen [] ratings ms). }
  split; [apply H|]. intros movies' Hperm. rewrite !H. f_equal.
  apply list_filter_iff. intros id. by rewrite Hperm.
Qed.

Lemma dataset_content_rating_is_first_row_witness :
  let c := {| dc_movieId := 1; dc_title := "Toy Story (1995)";
              dc_genres := "Adventure|Animation"; dc_rating := 4;
              dc_genres_split := ["Adventure"; "Animation"];
              dc_title_length := 16;
              dc_movie_label := "Toy Story (1995) (Adventure|Animation)";
              dc_content_features := "Adventure Animation 16" |} in
  c ∈ dataset_content scenario_ratings scenario_movies
  ∧ head (ratings_of (dc_movieId c) scenario_ratings) = Some (dc_rating c).
Proof.
  intros c.
  assert (c ∈ dataset_content scenario_ratings scenario_movies) as H by left.
  split; [exact H|].
  exact (dataset_content_rating_is_first_row scenario_ratings scenario_movies
           c H).
Defined.

(** ** The shape of a film id *)

Lemma upper_upper_char (c : ascii) :
  Py.upper_char (Py.upper_char c) = Py.upper_char c.
Proof. by destruct c as [[] [] [] [] [] [] [] []]. Qed.

Lemma upper_not_space (c : ascii) :
  Py.is_space c = false → Py.is_space (Py.upper_char c) = false.
Proof. by destruct c as [[] [] [] [] [] [] [] []]. Qed.

Lemma prefix_length (n : nat) (s : string) :
  String.length (Py.prefix n s) = Nat.min n (String.length s).
Proof.
  revert s. induction n as [|n IH]; intros [|c s]; simpl; try done.
  by rewrite IH.
Qed.

Lemma prefix_chars (n : nat) (s : string) (c : ascii) :
  c ∈ chars (Py.prefix n s) → c ∈ chars s.
Proof.
  revert s. induction n as [|n IH]; intros [|a s]; simpl; try done.
  - intros H. by apply not_elem_of_nil in H.
  - intros [->|H]%elem_of_cons; [by left|]. right. by apply IH.
Qed.

Lemma map_chars_chars (f : ascii → ascii) (s : string) :
  chars (Py.map_chars f s) = map f (chars s).
Proof. induction s as [|a s IH]; simpl; [done|]. by rewrite <- IH. Qed.

(** X8: the film id of a row whose title is ASCII text is a code followed by
    the position of the row in decimal; the code is the first word of the
    title cut after three characters and put in upper case, so it has one
    to three characters, none of them white space or a lower-case
    letter. *)
Theorem film_id_is_code_and_position
    (dc : list content_row) (rows : list filter_row) (i : nat)
    (r : filter_row) :
  dataset_filter dc = Py.Ok rows →
  rows !! i = Some r →
  is_ascii (fl_title r) = true →
  ∃ w code,
    head (Py.split (fl_title r)) = Some w
    ∧ code = Py.upper (Py.prefix 3 w)
    ∧ fl_film_id r = code +:+ Py.str_of_nat i
    ∧ 1 ≤ String.length code ≤ 3
    ∧ String.length code = Nat.min 3 (String.length w)
    ∧ Py.upper code = code
    ∧ Forall (λ c, Py.is_space c = false) (chars code).
Proof.
  intros Hrows Hr _.
  destruct (dataset_filter_rows dc rows Hrows) as [Hlen Hall].
  destruct (lookup_lt_is_Some_2 dc i) as [c Hc].
  { rewrite <- Hlen. by eapply lookup_lt_Some. }
  destruct (Hall i c Hc) as (w & Hw & Hr'). rewrite Hr in Hr'.
  injection Hr' as ->. simpl. exists w, (Py.upper (Py.prefix 3 w)).
  split; [done|]. split; [done|]. split; [done|].
  assert (w ∈ Py.split (dc_title c)) as Hin by by apply head_Some_elem_of.
  unfold Py.split in Hin. apply list_elem_of_filter in Hin as [Hne Hin].
  assert (String.length (Py.upper (Py.prefix 3 w))
          = Nat.min 3 (String.length w)) as Hl.
  { unfold Py.upper. by rewrite length_map_chars, prefix_length. }
  split; [|split; [done|split]].
  - rewrite Hl. destruct w; [done|]. simpl String.length. lia.
  - unfold Py.upper. rewrite map_chars_compose.
    apply map_chars_ext, upper_upper_char.
  - unfold Py.upper. rewrite map_chars_chars. apply Forall_fmap, Forall_forall.
    intros ch Hch. simpl. apply upper_not_space.
    apply prefix_chars in Hch.
    by destruct (fields_chars _ _ _ _ Hin Hch) as [? _].
Qed.

Lemma film_id_is_code_and_position_witness :
  dataset_filter (dataset_content scenario_ratings scenario_movies)
  = Py.Ok scenario_rows
  ∧ scenario_rows !! 1 = Some heat_row
  ∧ is_ascii (fl_title heat_row) = true
  ∧ ∃ w code,
      head (Py.split (fl_title heat_row)) = Some w
      ∧ code = Py.upper (Py.prefix 3 w)
      ∧ fl_film_id heat_row = code +:+ Py.str_of_nat 1
      ∧ 1 ≤ String.length code ≤ 3
      ∧ String.length code = Nat.min 3 (String.length w)
      ∧ Py.upper code = code
      ∧ Forall (λ c, Py.is_space c = false) (chars code).
Proof.
  assert (dataset_filter (dataset_content scenario_ratings scenario_movies)
          = Py.Ok scenario_rows) as H1 by reflexivity.
  assert (scenario_rows !! 1 = Some heat_row) as H2 by reflexivity.
  assert (is_ascii (fl_title heat_row) = true) as H3 by reflexivity.
  split; [exact H1|]. split; [exact H2|]. split; [exact H3|].
  exact (film_id_is_code_and_position _ scenario_rows 1 heat_row H1 H2 H3).
Defined.

(** ** Scores in training *)

Section training.
Context {T : Type}.
Variables (zero : T) (add mul : T → T → T) (sigmoid rescale : T → T).

(** X24: in training the dropout layer sits between the sum and the sigmoid,
    on the one unit that each row has.  A batch of valid pairs is scored
    without an error: a row that the layer keeps scores the sigmoid of the
    rescaled sum (the dot product of the two embedding rows plus the two
    biases), and a row that it drops scores the sigmoid of zero, whatever
    the weights of its two ids. *)
Theorem training_score_under_dropout
    (net : RecommenderNet) (num_track num_name size : nat)
    (mask : nat → bool) (inputs : list (nat * nat)) :
  built num_track num_name size net →
  Forall (λ p, p.1 < num_track ∧ p.2 < num_name) inputs →
  call zero add mul sigmoid rescale net true mask inputs
  = Py.Ok (imap (λ i p,
                   if mask i
                   then sigmoid (rescale
                          (spec_sum zero add mul (track_embedding net)
                             (name_embedding net) (track_bias net)
                             (name_bias net) size p.1 p.2))
                   else sigmoid zero)
             inputs).
Proof.
  intros Hb Hall.
  rewrite (call_spec zero add mul sigmoid rescale net num_track num_name size)
    by done.
  f_equal. apply imap_ext. intros i p _. unfold Dropout.
  by destruct (mask i).
Qed.
End training.

Lemma training_score_under_dropout_witness :
  built 2 2 2 tiny_net
  ∧ Forall (λ p : nat * nat, p.1 < 2 ∧ p.2 < 2) [(1, 0); (0, 1)]
  ∧ call 0%R Rplus Rmult logistic keep_scale tiny_net true
      (λ i, bool_decide (i = 0)) [(1, 0); (0, 1)]
    = Py.Ok (imap (λ i p,
                     if bool_decide (i = 0)
                     then logistic (keep_scale
                            (spec_sum 0%R Rplus Rmult
                               (track_embedding tiny_net)
                               (name_embedding tiny_net)
                               (track_bias tiny_net) (name_bias tiny_net)
                               2 p.1 p.2))
                     else logistic 0%R)
               [(1, 0); (0, 1)]).
Proof.
  assert (Forall (λ p : nat * nat, p.1 < 2 ∧ p.2 < 2) [(1, 0); (0, 1)]) as H
    by (repeat constructor; simpl; lia).
  split; [exact built_tiny_net|]. split; [exact H|].
  exact (training_score_under_dropout 0%R Rplus Rmult logistic keep_scale
           tiny_net 2 2 2 (λ i, bool_decide (i = 0)) [(1, 0); (0, 1)]
           built_tiny_net H).
Defined.

(** ** Counting values *)

Section counting.
Context {K : Type} `{EqDecision K}.

Lemma sum_list_with_zero {A} (l : list A) : sum_list_with (λ _, 0) l = 0.
Proof. induction l as [|x l IH]; simpl; [done|]. by rewrite IH. Qed.

Lemma sum_list_with_ext {A} (f g : A → nat) (l : list A) :
  (∀ x, x ∈ l → f x = g x) → sum_list_with f l = sum_list_with g l.
Proof.
  induction l as [|x l IH]; intros H; simpl; [done|].
  rewrite (H x) by by left. rewrite IH; [done|].
  intros y Hy. apply H. by right.
Qed.

Lemma sum_list_with_fmap {A B} (f : B → nat) (g : A → B) (l : list A) :
  sum_list_with f (map g l) = sum_list_with (λ x, f (g x)) l.
Proof. induction l as [|x l IH]; simpl; [done|]. by rewrite IH. Qed.

Lemma sum_list_with_plus {A} (f g : A → nat) (l : list A) :
  sum_list_with (λ x, f x + g x) l = sum_list_with f l + sum_list_with g l.
Proof. induction l as [|x l IH]; simpl; [done|]. rewrite IH. lia. Qed.

Lemma sum_indicator (ks : list K) (y : K) :
  NoDup ks → y ∈ ks →
  sum_list_with (λ k, if decide (y = k) then 1 else 0) ks = 1.
Proof.
  induction ks as [|k ks IH]; intros Hnd Hy; [by apply not_elem_of_nil in Hy|].
  apply NoDup_cons in Hnd as [Hk Hnd]. simpl.
  destruct (decide (y = k)) as [->|Hne].
  - rewrite (sum_list_with_ext _ (λ _, 0)).
    + by rewrite sum_list_with_zero.
    + intros k' Hk'. destruct (decide (k = k')) as [->|]; [|done].
      by apply Hk in Hk'.
  - apply elem_of_cons in Hy as [?|Hy]; [done|]. by rewrite IH.
Qed.

(** Every occurrence is counted once. *)
Lemma counts_sum (ks vs : list K) :
  NoDup ks → (∀ v, v ∈ vs → v ∈ ks) →
  sum_list_with (λ k, length (filter (λ y, y = k) vs)) ks = length vs.
Proof.
  intros Hnd. induction vs as [|y vs IH]; intros Hin.
  - apply sum_list_with_zero.
  - rewrite (sum_list_with_ext _
               (λ k, (if decide (y = k) then 1 else 0)
                     + length (filter (λ y, y = k) vs))).
    + rewrite sum_list_with_plus, sum_indicator, IH; [done| |done|].
      * intros v Hv. apply Hin. by right.
      * apply Hin. by left.
    + intros k _. rewrite filter_cons. by destruct (decide (y = k)).
Qed.

Lemma map_fst_pair {A B} (f : A → B) (l : list A) :
  map fst (map (λ v, (v, f v)) l) = l.
Proof. induction l as [|x l IH]; simpl; [done|]. by rewrite IH. Qed.

Lemma value_counts_spec (sorter : list (K * nat) → list (K * nat))
    (xs : list (option K)) :
  (∀ s, sorter s ≡ₚ s) →
  let vs := omap (λ x : option K, x) xs in
  NoDup (map fst (value_counts sorter xs))
  ∧ (∀ v n, (v, n) ∈ value_counts sorter xs
            ↔ v ∈ vs ∧ n = length (filter (λ y, y = v) vs))
  ∧ sum_list_with snd (value_counts sorter xs) = length vs.
Proof.
  intros Hperm vs. unfold value_counts. fold vs.
  set (ks := drop_duplicates (λ v : K, v) [] vs).
  assert (NoDup ks) as Hnd.
  { pose proof (drop_duplicates_NoDup (λ v : K, v) [] vs) as H.
    by rewrite map_id in H. }
  assert (∀ v, v ∈ ks ↔ v ∈ vs) as Hks.
  { intros v. unfold ks. split.
    - intros H. by apply drop_duplicates_elem in H as [? _].
    - intros H.
      pose proof (drop_duplicates_keys (λ v : K, v) [] vs v) as Hk.
      rewrite !map_id in Hk. apply Hk; [done|apply not_elem_of_nil]. }
  split; [|split].
  - by rewrite Hperm, map_fst_pair.
  - intros v n. rewrite Hperm, list_elem_of_fmap. split.
    + intros (k & [= -> ->] & Hk). split; [by apply Hks|done].
    + intros [Hv ->]. exists v. split; [done|by apply Hks].
  - rewrite Hperm. rewrite sum_list_with_fmap. simpl.
    apply counts_sum; [done|]. intros v. apply Hks.
Qed.
End counting.

(** ** The genre table of the plots *)

Lemma explode_df_mov (movies : list movie) :
  genres_ex movies
  = flat_map (λ m, map (λ g, (MovRow (mv_movieId m) (mv_title m) (mv_genres m)
                                (Py.split_on "|" (mv_genres m))
                                (String.length (mv_title m)), Some g))
                     (Py.split_on "|" (mv_genres m))) movies.
Proof.
  unfold genres_ex, explode, df_mov. induction movies as [|m movies IH];
    [done|].
  cbn [map flat_map mr_genres_split]. f_equal; [|exact IH].
  pose proof (fields_not_nil (Ascii.eqb "|") (mv_genres m)) as Hne.
  unfold Py.split_on. by destruct (Py.fields _ (mv_genres m)).
Qed.

Lemma omap_Some {A} (l : list A) : omap (λ x : option A, x) (map Some l) = l.
Proof. induction l as [|x l IH]; [done|]. cbn [map omap list_omap]. by f_equal. Qed.

Lemma genres_ex_values (movies : list movie) :
  map snd (genres_ex movies)
  = map Some (flat_map (λ m, Py.split_on "|" (mv_genres m)) movies).
Proof.
  rewrite explode_df_mov. induction movies as [|m movies IH]; [done|].
  simpl. rewrite !map_app, IH. f_equal.
  by rewrite <- list_fmap_compose.
Qed.

(** X1: the table behind the genre plot has a row for every genre of every
    movie, at least one per movie and none with a missing genre; the bars
    stand for the genres that occur, each once, with the number of movie and
    genre pairs of the genre, which add up to the rows of the table; the
    most frequent genre comes first. *)
Theorem genre_counts_cover_the_exploded_table
    (sorter : list (string * nat) → list (string * nat))
    (movies : list movie) :
  sorts_counts sorter →
  let genres := flat_map (λ m, Py.split_on "|" (mv_genres m)) movies in
  map snd (genres_ex movies) = map Some genres
  ∧ length (genres_ex movies)
    = sum_list_with (λ m, length (Py.split_on "|" (mv_genres m))) movies
  ∧ length movies ≤ length (genres_ex movies)
  ∧ NoDup (map fst (genre_order sorter movies))
  ∧ (∀ g n, (g, n) ∈ genre_order sorter movies
            ↔ g ∈ genres ∧ n = length (filter (λ y, y = g) genres))
  ∧ (∀ g n, (g, n) ∈ genre_order sorter movies → 1 ≤ n)
  ∧ sum_list_with snd (genre_order sorter movies)
    = length (genres_ex movies)
  ∧ StronglySorted (λ a b, b.2 ≤ a.2) (genre_order sorter movies).
Proof.
  intros Hsort genres.
  assert (∀ s, sorter s ≡ₚ s) as Hperm by (intros s; apply Hsort).
  pose proof (genres_ex_values movies) as Hvals. fold genres in Hvals.
  assert (length (genres_ex movies) = length genres) as Hlen.
  { rewrite <- (length_map snd), Hvals. by rewrite length_map. }
  assert (length genres
          = sum_list_with (λ m, length (Py.split_on "|" (mv_genres m))) movies)
    as Hsum.
  { unfold genres. clear. induction movies as [|m movies IH]; [done|].
    simpl. rewrite length_app, IH. done. }
  destruct (value_counts_spec sorter (map Some genres) Hperm)
    as (Hnd & Hin & Htotal).
  rewrite omap_Some in Hin, Htotal.
  unfold genre_order. rewrite Hvals.
  split; [done|]. split; [by rewrite Hlen|]. split.
  { rewrite Hlen, Hsum. clear. induction movies as [|m movies IH]; [done|].
    cbn [length sum_list_with].
    assert (1 ≤ length (Py.split_on "|" (mv_genres m))) as Hone; [|lia].
    pose proof (fields_not_nil (Ascii.eqb "|") (mv_genres m)) as Hne.
    unfold Py.split_on. destruct (Py.fields _ (mv_genres m)); [done|].
    simpl. lia. }
  split; [exact Hnd|]. split; [exact Hin|]. split; [|split].
  - intros g n [Hg ->]%Hin.
    assert (g ∈ filter (λ y, y = g) genres) as Hf
      by by apply list_elem_of_filter.
    destruct (filter (λ y, y = g) genres); [by apply not_elem_of_nil in Hf|].
    simpl. lia.
  - by rewrite Hlen.
  - apply Hsort.
Qed.

Lemma by_count_desc_sorts {K} : sorts_counts (@by_count_desc K).
Proof.
  intros s. unfold by_count_desc. split; [apply sort_by_Permutation|].
  eapply StronglySorted_weaken; [|apply sort_by_sorted].
  - intros a b H. simpl in H. by apply Nat.leb_le in H.
  - intros a b H. simpl in *. apply Nat.leb_le. apply Nat.leb_gt in H. lia.
  - intros a b c H1 H2. simpl in *. apply Nat.leb_le.
    apply Nat.leb_le in H1, H2. lia.
Qed.

Lemma genre_counts_cover_the_exploded_table_witness :
  sorts_counts (@by_count_desc string)
  ∧ let genres := flat_map (λ m, Py.split_on "|" (mv_genres m)) up_movies in
    map snd (genres_ex up_movies) = map Some genres
    ∧ length (genres_ex up_movies)
      = sum_list_with (λ m, length (Py.split_on "|" (mv_genres m))) up_movies
    ∧ length up_movies ≤ length (genres_ex up_movies)
    ∧ NoDup (map fst (genre_order by_count_desc up_movies))
    ∧ (∀ g n, (g, n) ∈ genre_order by_count_desc up_movies
              ↔ g ∈ genres ∧ n = length (filter (λ y, y = g) genres))
    ∧ (∀ g n, (g, n) ∈ genre_order by_count_desc up_movies → 1 ≤ n)
    ∧ sum_list_with snd (genre_order by_count_desc up_movies)
      = length (genres_ex up_movies)
    ∧ StronglySorted (λ a b, b.2 ≤ a.2) (genre_order by_count_desc up_movies).
Proof.
  split; [exact by_count_desc_sorts|].
  exact (genre_counts_cover_the_exploded_table by_count_desc up_movies
           by_count_desc_sorts).
Defined.

(** ** The rating counts of the plots *)

Lemma Qle_bool_total (a b : Q) : Qle_bool a b = false → Qle_bool b a = true.
Proof.
  intros H. apply Qle_bool_iff.
  destruct (Qlt_le_dec b a) as [Hlt|Hle]; [by apply Qlt_le_weak|].
  apply Qle_bool_iff in Hle. congruence.
Qed.

Lemma strictly_ascending (l : list (Q * nat)) :
  StronglySorted (λ a b, Qle_bool a.1 b.1 = true) l →
  NoDup (map fst l) → Forall (λ a, Qred a.1 = a.1) l →
  StronglySorted (λ a b, (a.1 < b.1)%Q) l.
Proof.
  induction 1 as [|a l Hs IH Hall]; intros Hnd Hred; [constructor|].
  simpl in Hnd. apply NoDup_cons in Hnd as [Ha Hnd].
  apply Forall_cons in Hred as [Hra Hred].
  constructor; [by apply IH|].
  apply Forall_forall. intros b Hb.
  rewrite Forall_forall in Hall, Hred.
  pose proof (Hall b Hb) as Hle. simpl in Hle. apply Qle_bool_iff in Hle.
  destruct (Qlt_le_dec a.1 b.1) as [Hlt|Hge]; [done|]. exfalso.
  apply Ha. apply list_elem_of_fmap. exists b. split; [|done].
  rewrite <- Hra, <- (Hred b Hb). apply Qred_complete.
  by apply Qle_antisym.
Qed.

(** X2: the bars of the rating plot stand for the rating values that occur, in
    ascending order and each once, with the number of rating rows of that
    value; the counts add up to the rows of the rating table, whatever the
    order in which the values were counted. *)
Theorem rating_counts_ascend_and_add_up
    (sorter : list (Q * nat) → list (Q * nat)) (ratings : list rating_row) :
  (∀ s, sorter s ≡ₚ s) →
  StronglySorted (λ a b, (a.1 < b.1)%Q) (rating_counts sorter ratings)
  ∧ (∀ v n, (v, n) ∈ rating_counts sorter ratings
            ↔ (∃ r, r ∈ ratings ∧ v = Qred (rt_rating r))
              ∧ n = length (filter (λ r, (rt_rating r == v)%Q) ratings))
  ∧ (∀ v n, (v, n) ∈ rating_counts sorter ratings → 1 ≤ n)
  ∧ sum_list_with snd (rating_counts sorter ratings) = length ratings.
Proof.
  intros Hperm. unfold rating_counts.
  set (xs := map (λ r, Some (Qred (rt_rating r))) ratings).
  destruct (value_counts_spec sorter xs Hperm) as (Hnd & Hin & Htotal).
  assert (omap (λ x : option Q, x) xs = map (λ r, Qred (rt_rating r)) ratings)
    as Hvs.
  { unfold xs. rewrite (list_fmap_compose (λ r, Qred (rt_rating r)) Some).
    apply omap_Some. }
  rewrite Hvs in Hin, Htotal.
  assert (∀ v, length (filter (λ y, y = Qred v)
                         (map (λ r, Qred (rt_rating r)) ratings))
               = length (filter (λ r, (rt_rating r == Qred v)%Q) ratings))
    as Hcount.
  { intros v. clear. induction ratings as [|r ratings IH]; [done|].
    simpl map. rewrite !filter_cons.
    destruct (decide (Qred (rt_rating r) = Qred v)) as [Heq|Hne];
      destruct (decide (rt_rating r == Qred v)%Q) as [Heq'|Hne']; simpl;
      rewrite ?IH; try done.
    - exfalso. apply Hne'. apply Qred_eq_iff in Heq.
      by rewrite Heq, Qred_correct.
    - exfalso. apply Hne. rewrite <- (Qcanon.Qred_involutive v).
      by apply Qred_complete. }
  pose proof (sort_by_Permutation (λ a b : Q * nat, Qle_bool a.1 b.1)
                (value_counts sorter xs)) as Hsp.
  assert (∀ v n, (v, n) ∈ sort_by (λ a b : Q * nat, Qle_bool a.1 b.1)
                            (value_counts sorter xs)
                 ↔ (∃ r, r ∈ ratings ∧ v = Qred (rt_rating r))
                   ∧ n = length (filter (λ r, (rt_rating r == v)%Q) ratings))
    as Hmem.
  { intros v n. rewrite Hsp, Hin, list_elem_of_fmap. split.
    - intros [(r & -> & Hr) ->]. split; [by exists r|]. apply Hcount.
    - intros [(r & Hr & ->) ->]. split; [by exists r|]. by rewrite Hcount. }
  split; [|split; [exact Hmem|split]].
  - apply strictly_ascending.
    + apply sort_by_sorted.
      * intros a b. apply Qle_bool_total.
      * intros a b c H1 H2. apply Qle_bool_iff. apply Qle_bool_iff in H1, H2.
        by apply (Qle_trans _ b.1).
    + by rewrite Hsp.
    + apply Forall_forall. intros [v n] [[r [_ ->]] _]%Hmem. simpl.
      apply Qcanon.Qred_involutive.
  - intros v n [[r [Hr ->]] ->]%Hmem.
    assert (r ∈ filter (λ r', (rt_rating r' == Qred (rt_rating r))%Q) ratings)
      as Hf.
    { apply list_elem_of_filter. split; [|done]. by rewrite Qred_correct. }
    destruct (filter _ ratings); [by apply not_elem_of_nil in Hf|].
    simpl. lia.
  - rewrite Hsp, Htotal. by rewrite length_map.
Qed.

Lemma reverse_counts_Permutation (s : list (Q * nat)) : reverse s ≡ₚ s.
Proof. apply reverse_Permutation. Qed.

Lemma rating_counts_ascend_and_add_up_witness :
  (∀ s : list (Q * nat), reverse s ≡ₚ s)
  ∧ StronglySorted (λ a b, (a.1 < b.1)%Q)
      (rating_counts reverse scenario_ratings)
  ∧ (∀ v n, (v, n) ∈ rating_counts reverse scenario_ratings
            ↔ (∃ r, r ∈ scenario_ratings ∧ v = Qred (rt_rating r))
              ∧ n = length (filter (λ r, (rt_rating r == v)%Q)
                              scenario_ratings))
  ∧ (∀ v n, (v, n) ∈ rating_counts reverse scenario_ratings → 1 ≤ n)
  ∧ sum_list_with snd (rating_counts reverse scenario_ratings)
    = length scenario_ratings.
Proof.
  split; [exact reverse_counts_Permutation|].
  exact (rating_counts_ascend_and_add_up reverse scenario_ratings
           reverse_counts_Permutation).
Defined.

(** ** The encoder and the words of the specification *)

Section runs.
Import Sklearn.

Lemma is_word_char_spec (c : ascii) : is_word_char c = word_char c.
Proof. by destruct c as [[] [] [] [] [] [] [] []]. Qed.

Lemma word_runs_nil_inv (ws : list string) : word_runs "" ws → ws = [].
Proof.
  intros H. remember EmptyString as s eqn:Hs.
  destruct H as [|c s ws|w s ws Hne]; [done|discriminate|].
  destruct w; [done|discriminate].
Qed.

Lemma append_empty_r (w : string) : w +:+ "" = w.
Proof.
  induction w as [|a w IH]; [done|].
  change (String a (w +:+ "") = String a w). by rewrite IH.
Qed.

Lemma fields_word_run (w s : string) :
  w ≠ "" → Forall (λ c, word_char c = true) (chars w) →
  (∀ c s', s = String c s' → word_char c = false) →
  filter (λ x, Py.nonempty x = true)
    (Py.fields (λ c, negb (is_word_char c)) (w +:+ s))
  = w :: filter (λ x, Py.nonempty x = true)
           (Py.fields (λ c, negb (is_word_char c)) s).
Proof.
  intros Hne Hw Hs.
  assert (Forall (λ c, negb (is_word_char c) = false) (chars w)) as Hw'.
  { eapply Forall_impl; [exact Hw|]. intros c Hc. simpl.
    by rewrite is_word_char_spec, Hc. }
  destruct s as [|c s'].
  - rewrite append_empty_r.
    rewrite fields_whole by done. simpl.
    rewrite filter_cons_True by (by destruct w). done.
  - pose proof (Hs c s' eq_refl) as Hc. rewrite <- is_word_char_spec in Hc.
    rewrite fields_app by (by rewrite Hc).
    rewrite fields_whole by done. simpl.
    rewrite Hc. simpl.
    rewrite filter_cons_True by (by destruct w).
    by rewrite filter_cons_False by done.
Qed.

(** The fields between characters that are no word characters, the empty
    ones left out, are the maximal runs of word characters. *)
Lemma word_runs_fields (s : string) (ws : list string) :
  word_runs s ws →
  filter (λ x, Py.nonempty x = true)
    (Py.fields (λ c, negb (is_word_char c)) s) = ws.
Proof.
  induction 1 as [|c s ws Hc _ IH|w s ws Hne Hw Hs _ IH].
  - done.
  - simpl. rewrite is_word_char_spec, Hc. simpl.
    by rewrite filter_cons_False by done.
  - rewrite fields_word_run by done. by rewrite IH.
Qed.

Lemma word_runs_exist (s : string) : ∃ ws, word_runs s ws.
Proof.
  induction s as [|c s [ws IH]].
  - exists []. constructor.
  - destruct (word_char c) eqn:Hc.
    + destruct IH as [|c' s' ws' Hc' H'|w s' ws' Hne Hw Hs H'].
      * exists [String c ""].
        apply (runs_word (String c "") "" []); [done| |done|constructor].
        by repeat constructor.
      * exists (String c "" :: ws').
        apply (runs_word (String c "") (String c' s') ws'); [done| | |].
        -- by repeat constructor.
        -- by intros ? ? [= <- <-].
        -- by constructor.
      * exists (String c w :: ws').
        apply (runs_word (String c w) s' ws'); [done| |done|done].
        simpl. by constructor.
    + exists ws. by constructor.
Qed.

Lemma tokenize_runs (s : string) (ws : list string) :
  word_runs s ws → tokenize s = filter (λ w, 2 ≤ String.length w) ws.
Proof.
  intros H. rewrite <- (word_runs_fields s ws H). unfold tokenize.
  rewrite list_filter_filter. apply list_filter_iff. intros w.
  split; [|by intros [? _]]. intros Hw. split; [done|].
  destruct w; [simpl in Hw; lia|done].
Qed.
End runs.

Section weights_spec.
Import Sklearn.
Local Open Scope R_scope.

Lemma tf_spec (t d : string) : tf t d = spec_tf (analyze d) t.
Proof.
  unfold tf, spec_tf. induction (analyze d) as [|w l IH]; [done|].
  rewrite filter_cons. simpl count_occ.
  destruct (string_dec w t) as [Heq|Hne].
  - rewrite decide_True by done. simpl. by rewrite IH.
  - by rewrite decide_False by done.
Qed.

Lemma existsb_eqb (t : string) (l : list string) :
  existsb (String.eqb t) l = true ↔ t ∈ l.
Proof.
  rewrite existsb_exists. split.
  - intros (x & Hx & ->%String.eqb_eq). by apply list_elem_of_In.
  - intros H. exists t. split; [by apply list_elem_of_In|apply String.eqb_refl].
Qed.

Lemma df_spec (docs : list string) (t : string) :
  df docs t = spec_df (map analyze docs) t.
Proof.
  unfold df. induction docs as [|d docs IH]; [done|].
  rewrite filter_cons. simpl spec_df. rewrite <- IH.
  destruct (decide (t ∈ analyze d)) as [Hin|Hnin].
  - apply existsb_eqb in Hin. by rewrite Hin.
  - destruct (existsb (String.eqb t) (analyze d)) eqn:He; [|done].
    by apply existsb_eqb in He.
Qed.

Lemma weight_spec (docs : list string) (d t : string) :
  INR (tf t d) * idf docs t = spec_weight (map analyze docs) (analyze d) t.
Proof.
  unfold spec_weight, spec_idf, idf.
  by rewrite tf_spec, df_spec, length_map.
Qed.

Lemma weights_spec (docs : list string) (d : string) :
  weights docs d
  = map (spec_weight (map analyze docs) (analyze d)) (vocabulary docs).
Proof.
  unfold weights. apply map_ext. intros t. apply weight_spec.
Qed.

Lemma sum_squares_spec (v : list R) : sum_squares v = spec_norm_sq v.
Proof.
  induction v as [|x v IH]; [done|]. simpl. rewrite <- IH.
  unfold sum_squares. simpl. ring.
Qed.

Lemma vocabulary_NoDup (docs : list string) : NoDup (vocabulary docs).
Proof.
  unfold vocabulary. rewrite (sort_by_Permutation String.leb).
  apply unique_NoDup.
Qed.

Lemma one_digit_no_token (n : nat) : (n < 10)%nat → analyze (Py.str_of_nat n) = [].
Proof.
  intros Hn. rewrite analyze_str_of_nat, filter_cons, filter_nil.
  destruct (decide (2 ≤ String.length (Py.str_of_nat n))%nat) as [H|H]; [|done].
  apply str_of_nat_length in H. lia.
Qed.

(** The entries of the row of a document, in terms of the specification's
    weights. *)
Lemma tfidf_entry_spec (docs : list string) (d : string) (j : nat)
    (t : string) :
  d ∈ docs → vocabulary docs !! j = Some t →
  normalize_row (weights docs d) !! j
  = Some (if decide (analyze d = []) then 0
          else spec_weight (map analyze docs) (analyze d) t
               / spec_norm (map (spec_weight (map analyze docs) (analyze d))
                              (vocabulary docs))).
Proof.
  intros Hd Hj. unfold normalize_row, spec_norm.
  rewrite <- sum_squares_spec, <- weights_spec.
  assert (weights docs d !! j
          = Some (spec_weight (map analyze docs) (analyze d) t)) as Hw.
  { unfold weights. rewrite list_lookup_fmap, Hj. simpl. by rewrite weight_spec. }
  destruct (decide (analyze d = [])) as [He|Hne].
  - assert (spec_weight (map analyze docs) (analyze d) t = 0) as H0.
    { rewrite <- weight_spec, (tf_none t d He). simpl. ring. }
    rewrite H0 in Hw.
    destruct (Req_dec_T _ 0) as [_|Hn]; [done|].
    rewrite list_lookup_fmap, Hw. simpl. f_equal. unfold Rdiv. ring.
  - pose proof (weights_positive docs d Hd Hne) as Hpos.
    apply sqrt_lt_R0 in Hpos.
    destruct (Req_dec_T _ 0) as [H0|_]; [lra|].
    by rewrite list_lookup_fmap, Hw.
Qed.

(** C4, as amended: on ASCII text the tokens of a feature string are the
    maximal runs of word characters of the lowercased string that have two
    characters or more, so [Sci-Fi] gives [sci] and [fi] and a title length
    of one digit gives no token; they are the lowercased white-space
    separated words of two characters or more when the string has word
    characters and white space only.  The vocabulary has every token of the
    corpus once; the weight of a term in a document is its raw count there
    times [ln ((1 + N) / (1 + df)) + 1], for [N] documents of which [df]
    contain the term, and the row of a document is its weights divided by
    their Euclidean norm, a document without a token keeping a null
    row. *)
Theorem tfidf_tokens_weights_and_norm
    (docs : list string) (X : list (list R)) :
  fit_transform docs = Py.Ok X →
  Forall (λ d, is_ascii d = true) docs →
  let corpus := map analyze docs in
  (∀ d, d ∈ docs →
     (∃ runs, word_runs (Py.lower d) runs)
     ∧ (∀ runs, word_runs (Py.lower d) runs →
          analyze d = filter (λ w, (2 ≤ String.length w)%nat) runs)
     ∧ ((∀ c, c ∈ chars d → Py.is_space c || word_char c = true) →
        analyze d
        = map Py.lower
            (filter (λ w, (2 ≤ String.length w)%nat) (Py.split d))))
  ∧ analyze "Sci-Fi" = ["sci"; "fi"]
  ∧ (∀ n, (n < 10)%nat → analyze (Py.str_of_nat n) = [])
  ∧ NoDup (vocabulary docs)
  ∧ (∀ t, t ∈ vocabulary docs ↔ ∃ d, d ∈ docs ∧ t ∈ analyze d)
  ∧ (∀ i d, docs !! i = Some d →
       ∃ row,
         X !! i = Some row
         ∧ length row = length (vocabulary docs)
         ∧ ∀ j t, vocabulary docs !! j = Some t →
             row !! j
             = Some (if decide (analyze d = []) then 0
                     else spec_weight corpus (analyze d) t
                          / spec_norm (map (spec_weight corpus (analyze d))
                                         (vocabulary docs)))).
Proof.
  intros HX _ corpus. apply fit_transform_Ok in HX. subst X.
  split; [|split; [reflexivity|]]; [|split; [apply one_digit_no_token|]].
  - intros d _. split; [apply word_runs_exist|]. split.
    + intros runs. apply tokenize_runs.
    + intros Hd. apply analyze_split. intros c Hc.
      rewrite is_word_char_spec. by apply Hd.
  - split; [apply vocabulary_NoDup|]. split; [apply vocabulary_elem|].
    intros i d Hd. eexists. split; [by rewrite list_lookup_fmap, Hd|].
    assert (d ∈ docs) as Hin by by apply list_elem_of_lookup_2 in Hd.
    split; [by rewrite normalize_row_length, weights_length|].
    intros j t Hj. by apply tfidf_entry_spec.
Qed.
End weights_spec.

Lemma tfidf_tokens_weights_and_norm_witness :
  Sklearn.fit_transform up_docs = Py.Ok up_tfidf
  ∧ Forall (λ d, is_ascii d = true) up_docs
  ∧ let corpus := map Sklearn.analyze up_docs in
    (∀ d, d ∈ up_docs →
       (∃ runs, word_runs (Py.lower d) runs)
       ∧ (∀ runs, word_runs (Py.lower d) runs →
            Sklearn.analyze d = filter (λ w, 2 ≤ String.length w) runs)
       ∧ ((∀ c, c ∈ chars d →
                Py.is_space c || word_char c = true) →
          Sklearn.analyze d
          = map Py.lower (filter (λ w, 2 ≤ String.length w) (Py.split d))))
    ∧ Sklearn.analyze "Sci-Fi" = ["sci"; "fi"]
    ∧ (∀ n, n < 10 → Sklearn.analyze (Py.str_of_nat n) = [])
    ∧ NoDup (Sklearn.vocabulary up_docs)
    ∧ (∀ t, t ∈ Sklearn.vocabulary up_docs
            ↔ ∃ d, d ∈ up_docs ∧ t ∈ Sklearn.analyze d)
    ∧ (∀ i d, up_docs !! i = Some d →
         ∃ row,
           up_tfidf !! i = Some row
           ∧ length row = length (Sklearn.vocabulary up_docs)
           ∧ ∀ j t, Sklearn.vocabulary up_docs !! j = Some t →
               row !! j
               = Some (if decide (Sklearn.analyze d = []) then 0%R
                       else (spec_weight corpus (Sklearn.analyze d) t
                             / spec_norm
                                 (map (spec_weight corpus (Sklearn.analyze d))
                                    (Sklearn.vocabulary up_docs)))%R)).
Proof.
  assert (Forall (λ d, is_ascii d = true) up_docs) as H
    by (by repeat constructor).
  split; [exact fit_transform_up|]. split; [exact H|].
  exact (tfidf_tokens_weights_and_norm up_docs up_tfidf fit_transform_up H).
Defined.
